(** * AnnonChat: the realtime session plane, embedded and verified

    A shallow embedding of the server side of the chat service:
    - [server/profanityFilter.ts]: the pattern tables, [checkProfanity],
      [filterContent], [getSpamScore], [isSpam];
    - [server/storage.ts]: the in-memory waiting queue and active chats, the
      message log and the rate-limit table of [DatabaseStorage];
    - [server/routes.ts]: [sanitizeMessage], [sendToUser], [matchUsers],
      [handleDisconnect], the WebSocket connection and message handlers,
      and the HTTP routes of bans and appeals with the storage functions
      they call;
    - [shared/schema.ts]: the event vocabulary, [messageSchema],
      [banIpSchema] and [banAppealFormSchema];
    - [client/src/lib/socket.ts]: the [SocketManager] of the browser, with
      the page's WebSockets as its surroundings; a callback is opaque and
      does not call back into the manager.

    Conventions of the embedding.
    - A JavaScript string is the list of its UTF-16 code units ([list N]).
      Session ids, room ids and addresses are opaque keys ([string]).
    - Module-level mutable objects (the [connectedUsers] map, the storage
      singleton, the [RegExp] objects of the pattern tables with their
      [lastIndex]) are fields of one explicit [Server] state. A session
      object is reached through its entry of [connectedUsers] only, so a
      write to [user] or [partner] is a write to that entry.
    - Each event handler runs to completion as one step: the awaits of a
      handler do not interleave with other handlers.
    - [Date.now()] and [randomUUID()] are inputs of a step; one step reads
      one instant.
    - The database answers as the code expects it to: a statement does not
      fail, an update reports the rows it changed, a select without order
      returns rows in insertion order. The tables of bans, sessions,
      messages and rate limits are lists of rows; the statistics tables
      are left out. Where the driver does not report the rows changed
      ([rowCount] undefined), the code takes the other branch of
      [incrementRateLimit] (it inserts on every call) and of
      [DELETE /api/admin/bans/:id] (it answers 404 after the delete); the
      statements on the limiter are made within one window, whose first
      row is the one [checkRateLimit] reads, and no statement is about
      the status of that reply.
    - In the runs of [Run.step] the socket of a registered session is
      open until its close event is handled; the code sends through
      [sendToUser], which drops a frame when the socket is not open. A
      statement about a frame to a session takes the state of its socket
      as it finds it ([Notions.sentIfOpen]), or names it in a hypothesis,
      or is about the sender of the frame being handled.
    - Of an HTTP request the model takes the fields the route reads: a
      body field that is absent or not a string is [None]; an id is the
      number [parseInt] returned, [None] for NaN; the pattern of zod's
      [email()] is a parameter.
    - Every outbound frame, rate-limiter call and log append is recorded,
      in program order, in the list of effects a handler returns. *)

From Stdlib Require Import ZArith NArith Ascii String List Bool Lia Sorted.
From stdpp Require Import gmap strings list fin_maps.

Set Default Proof Using "Type".
Open Scope N_scope.

(* ===================================================================== *)
(** ** JavaScript strings *)
(* ===================================================================== *)

Module JsString.

(** A string value: its sequence of UTF-16 code units. *)
Definition t := list N.

(** A literal, written as a Rocq string of ASCII characters. *)
Definition lit (s : string) : t :=
  List.map N_of_ascii (list_ascii_of_string s).

(** The single code unit of a one-character literal. *)
Definition cu (s : string) : N :=
  match lit s with
  | c :: _ => c
  | [] => 0
  end.

(** WhiteSpace and LineTerminator code points (what [trim] strips and
    what [\s] matches). *)
Definition isSpace (c : N) : bool :=
  ((9 <=? c) && (c <=? 13)) || (c =? 32) || (c =? 160) || (c =? 5760)
  || ((8192 <=? c) && (c <=? 8202)) || (c =? 8232) || (c =? 8233)
  || (c =? 8239) || (c =? 8287) || (c =? 12288) || (c =? 65279).

(** LineTerminator code points (what [.] refuses). *)
Definition isLineTerminator (c : N) : bool :=
  (c =? 10) || (c =? 13) || (c =? 8232) || (c =? 8233).

(** [\w]: the 63 basic word characters. *)
Definition isWordChar (c : N) : bool :=
  ((97 <=? c) && (c <=? 122)) || ((65 <=? c) && (c <=? 90))
  || ((48 <=? c) && (c <=? 57)) || (c =? 95).

(** [String.prototype.toUpperCase] on one code unit, when the result is one
    code unit. The table covers Basic Latin and Latin-1; other code units
    are left unchanged. *)
Definition toUpper (c : N) : N :=
  if (97 <=? c) && (c <=? 122) then c - 32
  else if (224 <=? c) && (c <=? 254) && negb (c =? 247) then c - 32
  else if c =? 255 then 376
  else if c =? 181 then 924
  else c.

Definition toLower (c : N) : N :=
  if (65 <=? c) && (c <=? 90) then c + 32
  else if (192 <=? c) && (c <=? 222) && negb (c =? 215) then c + 32
  else if c =? 376 then 255
  else if c =? 924 then 181
  else c.

Fixpoint dropSpaces (s : t) : t :=
  match s with
  | c :: s' => if isSpace c then dropSpaces s' else s
  | [] => []
  end.

(** [String.prototype.trim]. *)
Definition trim (s : t) : t :=
  rev (dropSpaces (rev (dropSpaces s))).

(** [s.slice(0, n)]. *)
Definition slice0 (n : nat) (s : t) : t := firstn n s.

(** ['*'.repeat(n)]. *)
Definition stars (n : nat) : t := repeat 42 n.

End JsString.

(* ===================================================================== *)
(** ** Regular expressions: the backtracking matcher of ECMAScript *)
(* ===================================================================== *)

Module RegExp.
Import JsString.

(** A member of a character class. *)
Inductive classItem :=
| CChar (c : N)
| CRange (lo hi : N)
| CWord                       (* \w *)
| CSpace.                     (* \s *)

(** Pattern syntax (the fragment the pattern tables use). *)
Inductive regex :=
| Chr (c : N)
| Any                                              (* .        *)
| Class (negated : bool) (items : list classItem)  (* [..] [^..] \w \s *)
| WordB                                            (* \b       *)
| Seq (r1 r2 : regex)
| Alt (r1 r2 : regex)                              (* r1|r2    *)
| Rep (min : nat) (max : option nat) (r : regex)   (* greedy {min,max} *)
| Group (n : nat) (r : regex)                      (* capture n *)
| Backref (n : nat).                               (* \n       *)

(** Captures: group number to the span it last matched. *)
Definition caps := list (nat * (nat * nat)).

Fixpoint capture (n : nat) (c : caps) : option (nat * nat) :=
  match c with
  | (k, sp) :: c' => if Nat.eqb k n then Some sp else capture n c'
  | [] => None
  end.

(** A continuation: given the end index and captures so far, the end index
    of the whole match, if the rest of the pattern matches. *)
Definition cont := nat -> caps -> option nat.

(** The mandatory iterations of a quantifier. *)
Fixpoint repMin (step : nat -> caps -> cont -> option nat)
         (n : nat) (i : nat) (c : caps) (k : cont) : option nat :=
  match n with
  | O => k i c
  | S n' => step i c (fun j c' => repMin step n' j c' k)
  end.

(** The optional iterations of a greedy quantifier: one more iteration is
    tried first, and an iteration that consumes nothing is refused
    (RepeatMatcher). [fuel] bounds the iterations by the input left. *)
Fixpoint repGreedy (step : nat -> caps -> cont -> option nat)
         (fuel : nat) (left : option nat) (i : nat) (c : caps) (k : cont)
  : option nat :=
  match fuel with
  | O => k i c
  | S fuel' =>
      match left with
      | Some O => k i c
      | _ =>
          match step i c (fun j c' =>
                   if Nat.eqb j i then None
                   else repGreedy step fuel' (pred <$> left) j c' k) with
          | Some e => Some e
          | None => k i c
          end
      end
  end.

Section Matcher.

(** The [i] flag and the input string. *)
Variable ignoreCase : bool.
Variable s : JsString.t.

(** Canonicalize (non-Unicode mode). *)
Definition canonicalize (ch : N) : N :=
  if ignoreCase then
    let u := toUpper ch in
    if (128 <=? ch) && (u <? 128) then ch else u
  else ch.

Definition itemMatches (x : N) (it : classItem) : bool :=
  match it with
  | CChar c => canonicalize c =? canonicalize x
  | CRange lo hi =>
      existsb (fun a => (lo <=? a) && (a <=? hi)
                        && (canonicalize a =? canonicalize x))
              [x; toUpper x; toLower x]
  | CWord => isWordChar x
  | CSpace => isSpace x
  end.

(** IsWordChar(e) for the assertion [\b]: false outside the input. *)
Definition wordAt (i : nat) : bool :=
  match s !! i with
  | Some x => isWordChar x
  | None => false
  end.

Definition wordBefore (i : nat) : bool :=
  match i with
  | O => false
  | S j => wordAt j
  end.

(** Does the input at [i] repeat the span [a, a+len)? *)
Fixpoint sameSpan (a i len : nat) : bool :=
  match len with
  | O => true
  | S len' =>
      match s !! a, s !! i with
      | Some x, Some y =>
          (canonicalize x =? canonicalize y) && sameSpan (S a) (S i) len'
      | _, _ => false
      end
  end.

(** The matcher of a pattern, in continuation-passing style. *)
Fixpoint m (r : regex) (i : nat) (c : caps) (k : cont) : option nat :=
  match r with
  | Chr ch =>
      match s !! i with
      | Some x => if canonicalize ch =? canonicalize x then k (S i) c else None
      | None => None
      end
  | Any =>
      match s !! i with
      | Some x => if isLineTerminator x then None else k (S i) c
      | None => None
      end
  | Class negated items =>
      match s !! i with
      | Some x =>
          if eqb negated (existsb (itemMatches x) items) then None
          else k (S i) c
      | None => None
      end
  | WordB => if eqb (wordBefore i) (wordAt i) then None else k i c
  | Seq r1 r2 => m r1 i c (fun j c' => m r2 j c' k)
  | Alt r1 r2 =>
      match m r1 i c k with
      | Some e => Some e
      | None => m r2 i c k
      end
  | Rep min max r' =>
      repMin (m r') min i c (fun j c' =>
        repGreedy (m r') (S (length s - j))
                  ((fun mx => mx - min)%nat <$> max) j c' k)
  | Group n r' => m r' i c (fun j c' => k j ((n, (i, j)) :: c'))
  | Backref n =>
      match capture n c with
      | None => k i c
      | Some (a, b) =>
          if sameSpan a i (b - a) then k (i + (b - a))%nat c else None
      end
  end.

(** One attempt at index [i]: the end index of the match. *)
Definition matchAt (r : regex) (i : nat) : option nat :=
  m r i [] (fun j _ => Some j).

(** The search loop of RegExpBuiltinExec: the first index from [i] on, up to
    the length of the input, where the pattern matches; [n] counts the
    indices still to try. *)
Fixpoint searchFrom (r : regex) (n : nat) (i : nat) : option (nat * nat) :=
  match n with
  | O => None
  | S n' =>
      match matchAt r i with
      | Some e => Some (i, e)
      | None => searchFrom r n' (S i)
      end
  end.

(** [exec] from [lastIndex]: the span of the match. *)
Definition execFrom (r : regex) (lastIndex : nat) : option (nat * nat) :=
  if (length s <? lastIndex)%nat then None
  else searchFrom r (S (length s - lastIndex)) lastIndex.

(** All the matches of a global pattern, as [String.prototype.match] and
    [replace] enumerate them: after an empty match the index advances by
    one. [n] bounds the number of matches. *)
Fixpoint allMatches (r : regex) (n : nat) (lastIndex : nat)
  : list (nat * nat) :=
  match n with
  | O => []
  | S n' =>
      match execFrom r lastIndex with
      | None => []
      | Some (a, e) =>
          (a, e) :: allMatches r n' (if Nat.eqb e a then S e else e)
      end
  end.

(** The result of [replace] with a callback on the matched text. *)
Fixpoint substitute (f : JsString.t -> JsString.t) (ms : list (nat * nat))
         (next : nat) : JsString.t :=
  match ms with
  | [] => drop next s
  | (a, e) :: ms' =>
      if (a <? next)%nat then substitute f ms' next
      else take (a - next) (drop next s) ++ f (take (e - a) (drop a s))
           ++ substitute f ms' e
  end.

End Matcher.

(** A [RegExp] object: pattern, flags and the mutable [lastIndex]. *)
Record t := mk {
  source : regex;
  global : bool;
  ignoreCase : bool;
  lastIndex : nat
}.

Definition setLastIndex (n : nat) (re : t) : t :=
  {| source := source re; global := global re;
     ignoreCase := ignoreCase re; lastIndex := n |}.

(** [re.test(s)]: the answer and the object afterwards. With the [g] flag
    the search starts at [lastIndex], which a match moves to its end and a
    failure resets to 0. *)
Definition test (re : t) (s : JsString.t) : bool * t :=
  if global re then
    match execFrom (ignoreCase re) s (source re) (lastIndex re) with
    | Some (_, e) => (true, setLastIndex e re)
    | None => (false, setLastIndex 0 re)
    end
  else
    match execFrom (ignoreCase re) s (source re) 0 with
    | Some _ => (true, re)
    | None => (false, re)
    end.

(** [s.replace(re, f)] for a global [re]: every match is replaced, and
    [lastIndex] is 0 afterwards. *)
Definition replace (re : t) (s : JsString.t)
           (f : JsString.t -> JsString.t) : JsString.t * t :=
  (substitute s f
     (allMatches (ignoreCase re) s (source re) (S (length s)) 0) 0,
   setLastIndex 0 re).

(** [(s.match(re) || []).length] for a global [re] written as a literal. *)
Definition matchCount (r : regex) (ic : bool) (s : JsString.t) : nat :=
  length (allMatches ic s r (S (length s)) 0).

(** A literal [/r/flags] evaluated afresh: its [lastIndex] is 0. *)
Definition literal (r : regex) (g ic : bool) : t := mk r g ic 0.

(** *** Writing patterns *)

Definition plus (r : regex) : regex := Rep 1 None r.
Definition star (r : regex) : regex := Rep 0 None r.
Definition opt (r : regex) : regex := Rep 0 (Some 1%nat) r.
Definition atLeast (n : nat) (r : regex) : regex := Rep n None r.
Definition word : regex := Class false [CWord].
Definition space : regex := Class false [CSpace].
Definition c (x : string) : regex := Chr (cu x).

(** [oneOf "i1"] is [[i1]]. *)
Definition oneOf (x : string) : regex := Class false (List.map CChar (lit x)).

Fixpoint cat (rs : list regex) : regex :=
  match rs with
  | [] => Rep 0 (Some O) Any
  | [r] => r
  | r :: rs' => Seq r (cat rs')
  end.

Fixpoint alts (rs : list regex) : regex :=
  match rs with
  | [] => Class false []
  | [r] => r
  | r :: rs' => Alt r (alts rs')
  end.

(** [str "kill"] is the pattern [kill]. *)
Definition str (x : string) : regex := cat (List.map Chr (lit x)).

(** [runs "fuck"] is the pattern [f+u+c+k+]. *)
Definition runs (x : string) : regex :=
  cat (List.map (fun ch => plus (Chr ch)) (lit x)).

End RegExp.

(* ===================================================================== *)
(** ** server/profanityFilter.ts *)
(* ===================================================================== *)

Module ProfanityFilter.
Import JsString RegExp.

(** A table entry [/r/gi]. *)
Definition gi (r : regex) : RegExp.t := RegExp.literal r true true.

(** [const profanePatterns = [...]], in source order. *)
Definition profanePatterns : list RegExp.t := [
  (* Common explicit words and variations *)
  gi (cat [WordB; runs "fuck"; star word]);
  gi (cat [WordB; runs "sh"; plus (oneOf "i1"); runs "t"; star word]);
  gi (cat [WordB; runs "b"; plus (oneOf "i1"); runs "tch"; star word]);
  gi (cat [WordB; runs "ass"; opt (runs "hole")]);
  gi (cat [WordB; runs "d"; plus (oneOf "i1"); runs "ck"; star word]);
  gi (cat [WordB; runs "cunt"; star word]);
  gi (cat [WordB; runs "p"; plus (oneOf "i1"); runs "ss"; star word]);
  gi (cat [WordB; runs "damn"; star word]);
  gi (cat [WordB; runs "hell"; WordB]);
  gi (cat [WordB; runs "crap"; star word]);
  gi (cat [WordB; runs "bastard"; star word]);
  gi (cat [WordB; runs "whore"; star word]);
  gi (cat [WordB; runs "slut"; star word]);
  (* Slurs and hate speech *)
  gi (cat [WordB; runs "n"; plus (oneOf "i1"); runs "g";
           Alt (cat [runs "g"; plus (oneOf "ae3"); opt (c "r")])
               (cat [runs "a"; opt (c "h")]);
           star word]);
  gi (cat [WordB; runs "fag";
           opt (cat [runs "g"; plus (oneOf "o0"); runs "t"]); star word]);
  gi (cat [WordB; runs "retard"; star word]);
  (* Leetspeak variations *)
  gi (cat [WordB; oneOf "s$"; c "h"; oneOf "i1!"; c "t"; star word]);
  gi (cat [WordB; oneOf "a@"; oneOf "$s"; oneOf "s$"; star word]);
  gi (cat [WordB; oneOf "f"; oneOf "u"; oneOf "c"; oneOf "k"; star word]);
  (* Threat patterns *)
  gi (cat [WordB; runs "k"; plus (oneOf "i1"); runs "ll"; star space;
           Group 1 (alts [str "you"; str "yourself"; str "u"; str "urself"])]);
  gi (cat [WordB; opt (Group 1 (cat [str "go"; star space]));
           runs "d"; plus (oneOf "i1"); runs "e"; WordB]);
  gi (cat [WordB; str "suicide"; WordB]);
  gi (cat [WordB; str "kill"; star space; str "myself"]);
  (* Sexual content *)
  gi (cat [WordB; runs "p"; plus (oneOf "o0"); runs "rn"; star word]);
  gi (cat [WordB; runs "sex"; star (c "y"); WordB]);
  gi (cat [WordB; runs "nude"; opt (c "s"); WordB]);
  (* Spam patterns *)
  gi (cat [WordB;
           Group 1 (alts [str "buy"; str "click"; str "subscribe"; str "follow"]);
           star space;
           Group 2 (alts [str "now"; str "here"; str "this"])]);
  gi (atLeast 3 (Group 1 (cat [str "http"; opt (c "s"); str "://";
                               plus (Class true [CSpace])])));
  gi (cat [Group 1 Any; atLeast 5 (Backref 1)])
].

(** [const warningPatterns = [...]]. *)
Definition warningPatterns : list RegExp.t := [
  gi (cat [WordB; str "idiot"; star word]);
  gi (cat [WordB; str "stupid"; star word]);
  gi (cat [WordB; str "dumb"; star word]);
  gi (cat [WordB; str "ugly"; star word]);
  gi (cat [WordB; str "loser"; star word]);
  gi (cat [WordB; str "hate"; star space;
           Group 1 (alts [str "you"; str "u"]); WordB])
].

(** The two module-level tables as mutable state: the patterns never
    change, the [lastIndex] of each object does. *)
Record Tables := mkTables {
  profane : list RegExp.t;
  warning : list RegExp.t
}.

(** The tables when the module is loaded. *)
Definition initialTables : Tables := mkTables profanePatterns warningPatterns.

Inductive Severity := clean | warningSev | blocked.

Record FilterResult := mkResult {
  isClean : bool;
  flagged : bool;
  reason : option string;
  severity : Severity
}.

(** [for (const pattern of ps) if (pattern.test(content)) return ...]: the
    objects are tested in order up to the first that matches; each test
    updates the object tested. *)
Fixpoint testFirst (ps : list RegExp.t) (content : JsString.t)
  : bool * list RegExp.t :=
  match ps with
  | [] => (false, [])
  | p :: ps' =>
      let (hit, p') := RegExp.test p content in
      if hit then (true, p' :: ps')
      else let (found, ps'') := testFirst ps' content in (found, p' :: ps'')
  end.

Definition checkProfanity (content : JsString.t) (tb : Tables)
  : FilterResult * Tables :=
  let (hitP, profane') := testFirst (profane tb) content in
  if hitP then
    (mkResult false true (Some "Contains prohibited content"%string) blocked,
     mkTables profane' (warning tb))
  else
    let (hitW, warning') := testFirst (warning tb) content in
    if hitW then
      (mkResult true true
                (Some "Contains potentially offensive content"%string)
                warningSev,
       mkTables profane' warning')
    else
      (mkResult true false None clean, mkTables profane' warning').

(** The loop of [filterContent] over the profane patterns. *)
Fixpoint maskAll (ps : list RegExp.t) (filtered : JsString.t)
  : JsString.t * list RegExp.t :=
  match ps with
  | [] => (filtered, [])
  | p :: ps' =>
      let (filtered', p') :=
        RegExp.replace p filtered (fun mt => stars (length mt)) in
      let (out, ps'') := maskAll ps' filtered' in
      (out, p' :: ps'')
  end.

Definition filterContent (content : JsString.t) (tb : Tables)
  : JsString.t * Tables :=
  let (filtered, profane') := maskAll (profane tb) content in
  (filtered, mkTables profane' (warning tb)).

(** [getSpamScore]. The ratio test [caps / length > 0.7] is stated on the
    integers: [10 * caps > 7 * length]. *)
Definition getSpamScore (content : JsString.t) : nat :=
  let caps := matchCount (Class false [CRange 65 90]) false content in
  let s1 := if ((7 * length content <? 10 * caps)
                && (10 <? length content))%nat then 2%nat else 0%nat in
  let s2 := if fst (RegExp.test
                      (RegExp.literal (cat [Group 1 Any; atLeast 4 (Backref 1)])
                                      false false) content)
            then 2%nat else 0%nat in
  let s3 := if fst (RegExp.test
                      (RegExp.literal (atLeast 3 (oneOf "!?")) false false)
                      content)
            then 1%nat else 0%nat in
  let linkCount :=
    matchCount (cat [str "http"; opt (c "s"); str "://"]) false content in
  let s4 := if (2 <? linkCount)%nat then linkCount else 0%nat in
  let s5 := if fst (RegExp.test
                      (RegExp.literal
                         (cat [WordB;
                               Group 1 (alts [str "free"; str "win";
                                              str "winner"; str "prize";
                                              str "claim"; str "limited";
                                              str "urgent"]);
                               WordB]) true true) content)
            then 1%nat else 0%nat in
  (s1 + s2 + s3 + s4 + s5)%nat.

Definition isSpam (content : JsString.t) : bool :=
  (3 <=? getSpamScore content)%nat.

End ProfanityFilter.

(* ===================================================================== *)
(** ** shared/schema.ts *)
(* ===================================================================== *)

Module Schema.

(** [socketEvents], client to server: the [type] of an inbound frame. *)
Definition JOIN_QUEUE : string := "join_queue".
Definition LEAVE_QUEUE : string := "leave_queue".
Definition SEND_MESSAGE : string := "send_message".
Definition TYPING : string := "typing".
Definition STOP_TYPING : string := "stop_typing".
Definition DISCONNECT_CHAT : string := "disconnect_chat".
Definition SEND_MEDIA : string := "send_media".

Inductive MediaKind := image | video.

(** [interface ChatMessage]; [type] is ['user'] for every message the server
    builds. *)
Record ChatMessage := mkChatMessage {
  msgId : string;
  content : JsString.t;
  senderId : string;
  timestamp : Z;
  mediaUrl : option JsString.t;
  mediaKind : option MediaKind;
  fileName : option JsString.t;
  fileSize : option Z
}.

(** [socketEvents], server to client, each with its [data]. *)
Inductive ServerFrame :=
| QUEUE_JOINED
| PARTNER_FOUND (roomId : string)
| MESSAGE_RECEIVED (message : ChatMessage)
| MEDIA_RECEIVED (message : ChatMessage)
| PARTNER_TYPING
| PARTNER_STOPPED_TYPING
| PARTNER_DISCONNECTED
| BANNED
| ERROR (message : string)
| RATE_LIMITED (message : string)
| MESSAGE_FLAGGED (message : string).

(** The [data] of an inbound frame: the properties a handler may read.
    [dContent] is present when [data.content] is a string. *)
Record Payload := mkPayload {
  dContent : option JsString.t;
  dUrl : option JsString.t;
  dKind : option JsString.t;
  dName : option JsString.t;
  dSize : option Z
}.

Definition noData : Payload := mkPayload None None None None None.
Definition contentData (c : JsString.t) : Payload :=
  mkPayload (Some c) None None None None.

(** A raw inbound message: text that [JSON.parse] rejects, or a frame
    [{type, data}]. A [type] that is not a string behaves as an unknown
    one. *)
Inductive Inbound :=
| Malformed
| Frame (type : string) (data : Payload).

(** [messageSchema.parse(data)]: [content: z.string().min(1).max(2000)].
    [None] stands for the ZodError thrown. *)
Definition messageSchema_parse (data : Payload) : option JsString.t :=
  match dContent data with
  | Some c =>
      if ((1 <=? length c) && (length c <=? 2000))%nat then Some c else None
  | None => None
  end.

(** [interface WaitingUser]. *)
Record WaitingUser := mkWaitingUser {
  wId : string;
  wSocketId : string;
  wIp : string;
  joinedAt : Z
}.

(** [interface ChatSession]. *)
Record ChatSession := mkChatSession {
  csId : string;
  user1Id : string;
  user2Id : string;
  user1Ip : string;
  user2Ip : string;
  startedAt : Z;
  messageCount : nat;
  lastActivity : Z
}.

(** A row of [chat_sessions]. *)
Record ChatSessionRow := mkChatSessionRow {
  rSessionId : string;
  rUser1Ip : string;
  rUser2Ip : string;
  rStartedAt : Z;
  rEndedAt : option Z;
  rMessageCount : nat;
  rIsActive : bool
}.

(** A row of [chat_messages]. *)
Record ChatMessageRow := mkChatMessageRow {
  mSessionId : string;
  mSenderIp : string;
  mContent : JsString.t;
  mSentAt : Z;
  mFlagged : bool;
  mFlagReason : option string
}.

(** A row of [rate_limits]; [windowStart] is in seconds. *)
Record RateLimitRow := mkRateLimitRow {
  rlIp : string;
  rlActionType : string;
  rlCount : Z;
  rlWindowStart : Z
}.

End Schema.

(* ===================================================================== *)
(** ** server/storage.ts: [DatabaseStorage] *)
(* ===================================================================== *)

Module Storage.
Import Schema.

(** *** A JavaScript [Map] with string keys, in insertion order *)

Section JsMap.
Context {V : Type}.

Fixpoint mapGet (k : string) (l : list (string * V)) : option V :=
  match l with
  | [] => None
  | (k', v) :: l' => if String.eqb k' k then Some v else mapGet k l'
  end.

(** [set]: an existing key keeps its position, a new key goes last. *)
Fixpoint mapSet (k : string) (v : V) (l : list (string * V))
  : list (string * V) :=
  match l with
  | [] => [(k, v)]
  | (k', v') :: l' =>
      if String.eqb k' k then (k, v) :: l' else (k', v') :: mapSet k v l'
  end.

Fixpoint mapDelete (k : string) (l : list (string * V)) : list (string * V) :=
  match l with
  | [] => []
  | (k', v') :: l' =>
      if String.eqb k' k then mapDelete k l' else (k', v') :: mapDelete k l'
  end.

Definition mapValues (l : list (string * V)) : list V := List.map snd l.

End JsMap.

(** *** The database tables the realtime plane uses *)

Record Db := mkDb {
  bannedIps : list string;
  chatSessions : list ChatSessionRow;
  chatMessages : list ChatMessageRow;
  rateLimits : list RateLimitRow
}.

Record t := mk {
  activeChats : gmap string ChatSession;
  waitingUsers : list (string * WaitingUser);
  todayMessages : nat;
  lastResetDate : Z;
  peakConcurrentChats : nat;
  uniqueIpsToday : gset string;
  db : Db
}.

Definition emptyDb : Db := mkDb [] [] [] [].

(** The day of an instant in milliseconds (what [toDateString] tells
    apart). *)
Definition toDateString (now : Z) : Z := (now / 86400000)%Z.

(** [new DatabaseStorage()] at time [now] over a database. *)
Definition create (now : Z) (d : Db) : t :=
  mk ∅ [] 0 (toDateString now) 0 ∅ d.

Definition setDb (d : Db) (st : t) : t :=
  mk (activeChats st) (waitingUsers st) (todayMessages st) (lastResetDate st)
     (peakConcurrentChats st) (uniqueIpsToday st) d.

Definition setWaitingUsers (w : list (string * WaitingUser)) (st : t) : t :=
  mk (activeChats st) w (todayMessages st) (lastResetDate st)
     (peakConcurrentChats st) (uniqueIpsToday st) (db st).

Definition setActiveChats (a : gmap string ChatSession) (st : t) : t :=
  mk a (waitingUsers st) (todayMessages st) (lastResetDate st)
     (peakConcurrentChats st) (uniqueIpsToday st) (db st).

Definition setUniqueIps (u : gset string) (st : t) : t :=
  mk (activeChats st) (waitingUsers st) (todayMessages st) (lastResetDate st)
     (peakConcurrentChats st) u (db st).

(** [checkDailyReset]; the daily statistics row it saves is outside the
    model. *)
Definition checkDailyReset (now : Z) (st : t) : t :=
  if (toDateString now =? lastResetDate st)%Z then st
  else mk (activeChats st) (waitingUsers st) 0 (toDateString now) 0 ∅ (db st).

Definition isIpBanned (ip : string) (st : t) : bool :=
  existsb (String.eqb ip) (bannedIps (db st)).

(** *** Chat logging *)

Definition logChatSession (now : Z) (sessionId u1Ip u2Ip : string) (st : t)
  : t :=
  let d := db st in
  setDb (mkDb (bannedIps d)
              (chatSessions d ++
                 [mkChatSessionRow sessionId u1Ip u2Ip (now / 1000) None 0 true])
              (chatMessages d) (rateLimits d)) st.

Definition endRow (now : Z) (count : nat) (sessionId : string)
           (r : ChatSessionRow) : ChatSessionRow :=
  if String.eqb (rSessionId r) sessionId then
    mkChatSessionRow (rSessionId r) (rUser1Ip r) (rUser2Ip r) (rStartedAt r)
                     (Some (now / 1000)%Z) count false
  else r.

Definition endChatSession (now : Z) (sessionId : string) (st : t) : t :=
  let d := db st in
  let count := match activeChats st !! sessionId with
               | Some chat => messageCount chat
               | None => 0%nat
               end in
  setDb (mkDb (bannedIps d)
              (List.map (endRow now count sessionId) (chatSessions d))
              (chatMessages d) (rateLimits d)) st.

Definition bumpRow (sessionId : string) (r : ChatSessionRow)
  : ChatSessionRow :=
  if String.eqb (rSessionId r) sessionId then
    mkChatSessionRow (rSessionId r) (rUser1Ip r) (rUser2Ip r) (rStartedAt r)
                     (rEndedAt r) (S (rMessageCount r)) (rIsActive r)
  else r.

(** [logMessage]: one row appended to [chat_messages], and the session's
    [message_count] incremented. *)
Definition logMessage (now : Z) (sessionId senderIp : string)
           (content : JsString.t) (flagged : bool)
           (flagReason : option string) (st : t) : t :=
  let d := db st in
  setDb (mkDb (bannedIps d)
              (List.map (bumpRow sessionId) (chatSessions d))
              (chatMessages d ++
                 [mkChatMessageRow sessionId senderIp content (now / 1000)
                                   flagged flagReason])
              (rateLimits d)) st.

(** *** Active chats *)

Definition addActiveChat (now : Z) (chat : ChatSession) (st : t) : t :=
  let chats := <[csId chat := chat]> (activeChats st) in
  let peak := if (peakConcurrentChats st <? size chats)%nat
              then size chats else peakConcurrentChats st in
  let uniq := uniqueIpsToday st ∪ {[user1Ip chat]} ∪ {[user2Ip chat]} in
  logChatSession now (csId chat) (user1Ip chat) (user2Ip chat)
    (mk chats (waitingUsers st) (todayMessages st) (lastResetDate st)
        peak uniq (db st)).

Definition removeActiveChat (now : Z) (id : string) (st : t) : t :=
  endChatSession now id (setActiveChats (delete id (activeChats st)) st).

Definition bumpChat (now : Z) (chat : ChatSession) : ChatSession :=
  mkChatSession (csId chat) (user1Id chat) (user2Id chat) (user1Ip chat)
                (user2Ip chat) (startedAt chat) (S (messageCount chat)) now.

Definition incrementMessageCount (now : Z) (id : string) (st : t) : t :=
  setActiveChats (alter (bumpChat now) id (activeChats st)) st.

Definition incrementTodayMessages (now : Z) (st : t) : t :=
  let st' := checkDailyReset now st in
  mk (activeChats st') (waitingUsers st') (S (todayMessages st'))
     (lastResetDate st') (peakConcurrentChats st') (uniqueIpsToday st')
     (db st').

(** *** Waiting users *)

(** Insertion of [x] in front of a list sorted by [joinedAt]: [x] stays
    before the entries that compare equal, as a stable sort leaves it. *)
Fixpoint insertSorted (x : WaitingUser) (l : list WaitingUser)
  : list WaitingUser :=
  match l with
  | [] => [x]
  | y :: l' =>
      if (joinedAt y <? joinedAt x)%Z then y :: insertSorted x l'
      else x :: l
  end.

(** [sort((a, b) => a.joinedAt - b.joinedAt)], a stable sort. *)
Fixpoint sortByJoinedAt (l : list WaitingUser) : list WaitingUser :=
  match l with
  | [] => []
  | x :: l' => insertSorted x (sortByJoinedAt l')
  end.

Definition getWaitingUsers (st : t) : list WaitingUser :=
  sortByJoinedAt (mapValues (waitingUsers st)).

Definition addWaitingUser (user : WaitingUser) (st : t) : t :=
  setUniqueIps (uniqueIpsToday st ∪ {[wIp user]})
    (setWaitingUsers (mapSet (wId user) user (waitingUsers st)) st).

Definition removeWaitingUser (id : string) (st : t) : t :=
  setWaitingUsers (mapDelete id (waitingUsers st)) st.

(** *** Rate limiting *)

(** The [where] clause shared by [checkRateLimit] and
    [incrementRateLimit]. *)
Definition inWindow (ip actionType : string) (windowStart : Z)
           (r : RateLimitRow) : bool :=
  String.eqb (rlIp r) ip && String.eqb (rlActionType r) actionType
  && (windowStart <=? rlWindowStart r)%Z.

(** A [Date] stored in a timestamp column: whole seconds. *)
Definition toSeconds (ms : Z) : Z := (ms / 1000)%Z.

Definition checkRateLimit (now : Z) (ip actionType : string)
           (limit windowSeconds : Z) (st : t) : bool :=
  let windowStart := toSeconds (now - windowSeconds * 1000) in
  match List.find (inWindow ip actionType windowStart) (rateLimits (db st)) with
  | None => true
  | Some record => (rlCount record <? limit)%Z
  end.

Definition bumpRate (ip actionType : string) (windowStart : Z)
           (r : RateLimitRow) : RateLimitRow :=
  if inWindow ip actionType windowStart r then
    mkRateLimitRow (rlIp r) (rlActionType r) (rlCount r + 1) (rlWindowStart r)
  else r.

Definition incrementRows (now : Z) (ip actionType : string)
           (rows : list RateLimitRow) : list RateLimitRow :=
  let windowStart := toSeconds (now - 60 * 1000) in
  if existsb (inWindow ip actionType windowStart) rows then
    List.map (bumpRate ip actionType windowStart) rows
  else
    rows ++ [mkRateLimitRow ip actionType 1 (toSeconds now)].

Definition incrementRateLimit (now : Z) (ip actionType : string) (st : t)
  : t :=
  let d := db st in
  setDb (mkDb (bannedIps d) (chatSessions d) (chatMessages d)
              (incrementRows now ip actionType (rateLimits d))) st.

End Storage.

(* ===================================================================== *)
(** ** server/routes.ts *)
(* ===================================================================== *)

Module Routes.
Import Schema.

(** [interface ConnectedUser]; [socketOpen] is
    [socket.readyState === WebSocket.OPEN]. *)
Record ConnectedUser := mkUser {
  id : string;
  socketOpen : bool;
  ip : string;
  partnerId : option string;
  roomId : option string
}.

(** [RATE_LIMITS]. *)
Inductive Action := message | connection.

Definition actionType (a : Action) : string :=
  match a with
  | message => "message"
  | connection => "connection"
  end.

Definition limit (a : Action) : Z :=
  match a with
  | message => 20
  | connection => 5
  end.

Definition windowSeconds (a : Action) : Z :=
  match a with
  | message => 60
  | connection => 60
  end.

(** The process state: [connectedUsers], the [storage] singleton and the
    pattern tables of the profanity filter. *)
Record Server := mkServer {
  connectedUsers : gmap string ConnectedUser;
  storage : Storage.t;
  filter : ProfanityFilter.Tables
}.

(** What a handler does to the outside, in program order. *)
Inductive Effect :=
| Send (to : string) (frame : ServerFrame)
| CloseSocket (userId : string)
| RateCheck (ip : string) (a : Action) (allowed : bool)
| RateIncrement (ip : string) (a : Action)
| IncrementMessageCount (roomId : string)
| IncrementTodayMessages
| LogMessage (row : ChatMessageRow)
| ConsoleError.

Definition setUsers (cu : gmap string ConnectedUser) (sv : Server) : Server :=
  mkServer cu (storage sv) (filter sv).

Definition setStorage (st : Storage.t) (sv : Server) : Server :=
  mkServer (connectedUsers sv) st (filter sv).

Definition setFilter (tb : ProfanityFilter.Tables) (sv : Server) : Server :=
  mkServer (connectedUsers sv) (storage sv) tb.

(** Truthiness of a [string | null]. *)
Definition truthy (o : option string) : bool :=
  match o with
  | Some x => negb (String.eqb x EmptyString)
  | None => false
  end.

(** [content.replace(/x/g, by)] for the one-character pattern of the code
    unit [x]. *)
Definition replaceChar (x : N) (by_ : string) (content : JsString.t)
  : JsString.t :=
  fst (RegExp.replace (RegExp.literal (RegExp.Chr x) true false) content
                      (fun _ => JsString.lit by_)).

(** [sanitizeMessage]; 60, 62, 34 and 39 are the code units of the
    characters escaped. *)
Definition sanitizeMessage (content : JsString.t) : JsString.t :=
  JsString.slice0 2000
    (JsString.trim
       (replaceChar 39 "&#x27;"
          (replaceChar 34 "&quot;"
             (replaceChar 62 "&gt;"
                (replaceChar 60 "&lt;" content))))).

(** [sendToUser]: the frame is written when the user is registered and the
    socket is open. *)
Definition sendToUser (sv : Server) (userId : string) (frame : ServerFrame)
  : list Effect :=
  match connectedUsers sv !! userId with
  | Some user => if socketOpen user then [Send userId frame] else []
  | None => []
  end.

(** [u.partnerId = p; u.roomId = r]. *)
Definition link (p r : option string) (u : ConnectedUser) : ConnectedUser :=
  mkUser (id u) (socketOpen u) (ip u) p r.

(** The loop of [matchUsers] over the array read from storage; [n] counts
    the [randomUUID()] calls made so far. *)
Fixpoint matchLoop (now : Z) (uuid : nat -> string) (n : nat)
         (waitingUsers : list WaitingUser) (sv : Server)
  : Server * list Effect :=
  match waitingUsers with
  | user1Data :: user2Data :: rest =>
      match connectedUsers sv !! wId user1Data,
            connectedUsers sv !! wId user2Data with
      | Some user1, Some user2 =>
          let st1 := Storage.removeWaitingUser (wId user2Data)
                       (Storage.removeWaitingUser (wId user1Data)
                          (storage sv)) in
          let roomId := uuid n in
          let cu1 := alter (link (Some (id user2)) (Some roomId))
                           (wId user1Data) (connectedUsers sv) in
          let cu2 := alter (link (Some (id user1)) (Some roomId))
                           (wId user2Data) cu1 in
          let chatSession :=
            mkChatSession roomId (id user1) (id user2) (ip user1) (ip user2)
                          now 0 now in
          let sv' := mkServer cu2 (Storage.addActiveChat now chatSession st1)
                              (filter sv) in
          let out := sendToUser sv' (id user1) (PARTNER_FOUND roomId)
                     ++ sendToUser sv' (id user2) (PARTNER_FOUND roomId) in
          let (sv'', out') := matchLoop now uuid (S n) rest sv' in
          (sv'', out ++ out')
      | o1, o2 =>
          let st1 := match o1 with
                     | Some _ => Storage.addWaitingUser user1Data (storage sv)
                     | None => storage sv
                     end in
          let st2 := match o2 with
                     | Some _ => Storage.addWaitingUser user2Data st1
                     | None => st1
                     end in
          matchLoop now uuid n rest (setStorage st2 sv)
      end
  | _ => (sv, [])
  end.

Definition matchUsers (now : Z) (uuid : nat -> string) (sv : Server)
  : Server * list Effect :=
  matchLoop now uuid 0 (Storage.getWaitingUsers (storage sv)) sv.

(** The partner of a leaving user is told and unlinked. *)
Definition unlinkPartner (sv : Server) (user : ConnectedUser)
  : Server * list Effect :=
  match partnerId user with
  | Some p =>
      if truthy (partnerId user) then
        (setUsers (alter (link None None) p (connectedUsers sv)) sv,
         sendToUser sv p PARTNER_DISCONNECTED)
      else (sv, [])
  | None => (sv, [])
  end.

Definition removeRoom (now : Z) (room : option string) (sv : Server)
  : Server :=
  match room with
  | Some r =>
      if truthy room
      then setStorage (Storage.removeActiveChat now r (storage sv)) sv
      else sv
  | None => sv
  end.

Definition handleDisconnect (now : Z) (userId : string) (sv : Server)
  : Server * list Effect :=
  match connectedUsers sv !! userId with
  | None => (sv, [])
  | Some user =>
      let (sv1, out) := unlinkPartner sv user in
      let room := match connectedUsers sv1 !! userId with
                  | Some u => roomId u
                  | None => roomId user
                  end in
      let sv2 := removeRoom now room sv1 in
      let sv3 := setStorage (Storage.removeWaitingUser userId (storage sv2))
                            sv2 in
      (setUsers (delete userId (connectedUsers sv3)) sv3, out)
  end.

(** [wss.on('connection')] for a socket that gets the id [userId]. *)
Definition onConnection (now : Z) (userId ip : string) (sv : Server)
  : Server * list Effect :=
  if Storage.isIpBanned ip (storage sv) then
    (sv, [Send userId BANNED; CloseSocket userId])
  else
    let canConnect :=
      Storage.checkRateLimit now ip (actionType connection)
                             (limit connection) (windowSeconds connection)
                             (storage sv) in
    if negb canConnect then
      (sv, [RateCheck ip connection false;
            Send userId
              (RATE_LIMITED
                 "Too many connection attempts. Please wait and try again.");
            CloseSocket userId])
    else
      let st := Storage.incrementRateLimit now ip (actionType connection)
                                           (storage sv) in
      (mkServer (<[userId := mkUser userId true ip None None]>
                   (connectedUsers sv)) st (filter sv),
       [RateCheck ip connection true; RateIncrement ip connection]).

(** [case socketEvents.JOIN_QUEUE]. *)
Definition onJoinQueue (now : Z) (uuid : nat -> string) (userId : string)
           (user : ConnectedUser) (sv : Server) : Server * list Effect :=
  if truthy (partnerId user) then
    (sv, sendToUser sv userId (ERROR "Already in a chat"))
  else
    let waitingUser := mkWaitingUser userId "[object Object]" (ip user) now in
    let sv1 := setStorage (Storage.addWaitingUser waitingUser (storage sv))
                          sv in
    let out := sendToUser sv1 userId QUEUE_JOINED in
    let (sv2, out') := matchUsers now uuid sv1 in
    (sv2, out ++ out').

(** The logging of a message that was not relayed. *)
Definition logFlagged (now : Z) (user : ConnectedUser)
           (content : JsString.t) (why : string) (sv : Server)
  : Server * list Effect :=
  match roomId user with
  | Some r =>
      if truthy (roomId user) then
        (setStorage (Storage.logMessage now r (ip user) content true
                                        (Some why) (storage sv)) sv,
         [LogMessage (mkChatMessageRow r (ip user) content (now / 1000)
                                       true (Some why))])
      else (sv, [])
  | None => (sv, [])
  end.

(** The counters and the log row of a relayed message. *)
Definition countAndLog (now : Z) (user : ConnectedUser)
           (content : JsString.t) (res : ProfanityFilter.FilterResult)
           (sv : Server) : Server * list Effect :=
  match roomId user with
  | Some r =>
      if truthy (roomId user) then
        let st1 := Storage.incrementMessageCount now r (storage sv) in
        let st2 := Storage.incrementTodayMessages now st1 in
        let st3 := Storage.logMessage now r (ip user) content
                     (ProfanityFilter.flagged res)
                     (ProfanityFilter.reason res) st2 in
        (setStorage st3 sv,
         [IncrementMessageCount r; IncrementTodayMessages;
          LogMessage (mkChatMessageRow r (ip user) content (now / 1000)
                        (ProfanityFilter.flagged res)
                        (ProfanityFilter.reason res))])
      else (sv, [])
  | None => (sv, [])
  end.

(** The body of the inner [try] of [case socketEvents.SEND_MESSAGE]. *)
Definition moderateAndRelay (now : Z) (uuid : nat -> string)
           (userId : string) (user : ConnectedUser) (data : Payload)
           (sv : Server) : Server * list Effect :=
  match messageSchema_parse data with
  | None => (sv, sendToUser sv userId (ERROR "Invalid message"))
  | Some content =>
      let sanitizedContent := sanitizeMessage content in
      if ProfanityFilter.isSpam sanitizedContent then
        let out := sendToUser sv userId
                     (MESSAGE_FLAGGED
                        "Your message appears to be spam and was not sent.") in
        let (sv', out') := logFlagged now user sanitizedContent "spam" sv in
        (sv', out ++ out')
      else
        let (profanityResult, tb1) :=
          ProfanityFilter.checkProfanity sanitizedContent (filter sv) in
        let sv1 := setFilter tb1 sv in
        match ProfanityFilter.severity profanityResult with
        | ProfanityFilter.blocked =>
            let out := sendToUser sv1 userId
                         (MESSAGE_FLAGGED
                            "Your message contains prohibited content and was not sent.") in
            let (sv', out') :=
              logFlagged now user sanitizedContent "profanity" sv1 in
            (sv', out ++ out')
        | sev =>
            let (sanitizedContent', tb2) :=
              match sev with
              | ProfanityFilter.warningSev =>
                  ProfanityFilter.filterContent sanitizedContent tb1
              | _ => (sanitizedContent, tb1)
              end in
            let sv2 := setFilter tb2 sv1 in
            let msg := mkChatMessage (uuid 0%nat) sanitizedContent' userId now
                                     None None None None in
            let out :=
              match partnerId user with
              | Some p => sendToUser sv2 p (MESSAGE_RECEIVED msg)
              | None => []
              end in
            let (sv', out') :=
              countAndLog now user sanitizedContent' profanityResult sv2 in
            (sv', out ++ out')
        end
  end.

(** [case socketEvents.SEND_MESSAGE]. *)
Definition onSendMessage (now : Z) (uuid : nat -> string) (userId : string)
           (user : ConnectedUser) (data : Payload) (sv : Server)
  : Server * list Effect :=
  if negb (truthy (partnerId user)) then
    (sv, sendToUser sv userId (ERROR "Not connected to a partner"))
  else
    let canSend :=
      Storage.checkRateLimit now (ip user) (actionType message)
                             (limit message) (windowSeconds message)
                             (storage sv) in
    if negb canSend then
      (sv, RateCheck (ip user) message false
           :: sendToUser sv userId
                (RATE_LIMITED "Slow down! You are sending messages too fast."))
    else
      let sv1 := setStorage
                   (Storage.incrementRateLimit now (ip user)
                                               (actionType message)
                                               (storage sv)) sv in
      let (sv', out) := moderateAndRelay now uuid userId user data sv1 in
      (sv', RateCheck (ip user) message true
            :: RateIncrement (ip user) message :: out).

(** [case socketEvents.TYPING] and [case socketEvents.STOP_TYPING]. *)
Definition forwardToPartner (user : ConnectedUser) (frame : ServerFrame)
           (sv : Server) : Server * list Effect :=
  match partnerId user with
  | Some p => if truthy (partnerId user) then (sv, sendToUser sv p frame)
              else (sv, [])
  | None => (sv, [])
  end.

(** [case socketEvents.DISCONNECT_CHAT]. *)
Definition onDisconnectChat (now : Z) (userId : string)
           (user : ConnectedUser) (sv : Server) : Server * list Effect :=
  let (sv1, out) := unlinkPartner sv user in
  let room := match connectedUsers sv1 !! userId with
              | Some u => roomId u
              | None => roomId user
              end in
  let sv2 := removeRoom now room sv1 in
  (setUsers (alter (link None None) userId (connectedUsers sv2)) sv2, out).

(** [ws.on('message')] of the socket of [userId]: the dispatch on the
    frame's [type]. A [type] without a [case] falls out of the [switch]. *)
Definition onMessage (now : Z) (uuid : nat -> string) (userId : string)
           (raw : Inbound) (sv : Server) : Server * list Effect :=
  match connectedUsers sv !! userId with
  | None => (sv, [])
  | Some user =>
      match raw with
      | Malformed => (sv, [ConsoleError])
      | Frame type data =>
          if String.eqb type JOIN_QUEUE then
            onJoinQueue now uuid userId user sv
          else if String.eqb type LEAVE_QUEUE then
            (setStorage (Storage.removeWaitingUser userId (storage sv)) sv, [])
          else if String.eqb type SEND_MESSAGE then
            onSendMessage now uuid userId user data sv
          else if String.eqb type TYPING then
            forwardToPartner user PARTNER_TYPING sv
          else if String.eqb type STOP_TYPING then
            forwardToPartner user PARTNER_STOPPED_TYPING sv
          else if String.eqb type DISCONNECT_CHAT then
            onDisconnectChat now userId user sv
          else (sv, [])
      end
  end.

(** The server at start-up, at time [now], over a database. *)
Definition start (now : Z) (d : Storage.Db) : Server :=
  mkServer ∅ (Storage.create now d) ProfanityFilter.initialTables.

End Routes.

(* ===================================================================== *)
(** ** Runs of the server *)
(* ===================================================================== *)

Module Run.
Import Schema Routes.

(** One event of the server: a socket is accepted, a frame arrives on the
    socket of a user, or the socket of a user closes. An accepted socket
    gets a fresh, non-empty id ([randomUUID()]). *)
Inductive step (sv : Server) : Server -> Prop :=
| step_connection (now : Z) (userId ip : string) :
    userId ≠ EmptyString ->
    connectedUsers sv !! userId = None ->
    step sv (onConnection now userId ip sv).1
| step_message (now : Z) (uuid : nat -> string) (userId : string)
               (raw : Inbound) :
    step sv (onMessage now uuid userId raw sv).1
| step_close (now : Z) (userId : string) :
    step sv (handleDisconnect now userId sv).1.

(** The states the server can be in. *)
Inductive reachable : Server -> Prop :=
| reachable_start (now : Z) (d : Storage.Db) : reachable (start now d)
| reachable_step (sv sv' : Server) :
    reachable sv -> step sv sv' -> reachable sv'.

(** The pairing links of the session registered under [k], as the data
    model states them: a partner is set exactly when a room is, and the
    partner points back with the same room. *)
Definition linked (cu : gmap string ConnectedUser) (k : string)
           (u : ConnectedUser) : Prop :=
  (partnerId u ≠ None <-> roomId u ≠ None)
  /\ (forall p, partnerId u = Some p ->
        exists v, cu !! p = Some v
                  /\ partnerId v = Some k /\ roomId v = roomId u).

(** What holds of the registry: a session is registered under its own
    non-empty id with an open socket, is not its own partner, and is
    linked. *)
Record LinkInv (cu : gmap string ConnectedUser) : Prop := mkLinkInv {
  link_key : forall k u, cu !! k = Some u ->
             id u = k /\ k ≠ EmptyString /\ socketOpen u = true;
  link_noself : forall k u, cu !! k = Some u -> partnerId u ≠ Some k;
  link_linked : forall k u, cu !! k = Some u -> linked cu k u
}.

(** What holds of the registry and of the waiting queue between two
    events: the links; a queued entry belongs to a registered session
    without partner; the queue holds at most one entry (a second one is
    paired at once). *)
Record InvOn (cu : gmap string ConnectedUser)
       (wu : list (string * WaitingUser)) : Prop := mkInv {
  inv_links : LinkInv cu;
  inv_waiting : forall k w, In (k, w) wu ->
                wId w = k /\ exists u, cu !! k = Some u /\ partnerId u = None;
  inv_queue : (length wu <= 1)%nat
}.

(** What [matchUsers] needs of a queue of any length: one entry per id,
    filed under its id, of a session that has no partner if it is
    registered. *)
Definition queueOfUnpaired (cu : gmap string ConnectedUser)
           (wu : list (string * WaitingUser)) : Prop :=
  NoDup (List.map fst wu)
  /\ forall k w, In (k, w) wu ->
       wId w = k /\ forall u, cu !! k = Some u -> partnerId u = None.

Definition Inv (sv : Server) : Prop :=
  InvOn (connectedUsers sv) (Storage.waitingUsers (storage sv)).

(** Frames and log rows among the effects of a handler. *)
Definition relayed (effs : list Effect) : Prop :=
  exists to_ m, In (Send to_ (MESSAGE_RECEIVED m)) effs.

(** The frame types the dispatch has a [case] for. *)
Definition handled (type : string) : bool :=
  existsb (String.eqb type)
          [JOIN_QUEUE; LEAVE_QUEUE; SEND_MESSAGE; TYPING; STOP_TYPING;
           DISCONNECT_CHAT].

(** The reason [checkProfanity] gives at severity warning. *)
Definition warningReason : string := "Contains potentially offensive content".

End Run.

(* ===================================================================== *)
(** ** Concrete sessions *)
(* ===================================================================== *)

Module Scenario.
Import JsString Schema Routes.

(** The room id every pairing of these scenarios draws. *)
Definition uuid (n : nat) : string := "room".

Definition join : Inbound := Frame JOIN_QUEUE noData.
Definition say (text : string) : Inbound :=
  Frame SEND_MESSAGE (contentData (lit text)).

(** A starts the server's day, B follows; both join the queue and are
    paired. *)
Definition s0 : Server := start 0 Storage.emptyDb.
Definition s1 : Server := (onConnection 1 "A" "10.0.0.1" s0).1.
Definition s2 : Server := (onConnection 2 "B" "10.0.0.2" s1).1.
Definition s3 : Server := (onMessage 3 uuid "A" join s2).1.
Definition paired : Server := (onMessage 4 uuid "B" join s3).1.

(** A queue whose oldest entry, of Z, has no registered session, followed
    by three live sessions B, C and D in this order. *)
Definition user (k : string) : ConnectedUser := mkUser k true "10.0.0.9" None None.
Definition entry (k : string) (t : Z) : string * WaitingUser :=
  (k, mkWaitingUser k "[object Object]" "10.0.0.9" t).

Definition stale : Server :=
  mkServer (<["B"%string := user "B"]>
              (<["C"%string := user "C"]> (<["D"%string := user "D"]> ∅)))
           (Storage.setWaitingUsers
              [entry "Z" 1; entry "B" 2; entry "C" 3; entry "D" 4]
              (Storage.create 0 Storage.emptyDb))
           ProfanityFilter.initialTables.

End Scenario.

(* ===================================================================== *)
(** ** Statements *)
(* ===================================================================== *)

Module Props.
Import JsString RegExp ProfanityFilter Schema Storage Routes Run.

(** The objects of a table all carry the [g] flag and [lastIndex] 0. *)
Definition rested (ps : list RegExp.t) : Prop :=
  Forall (fun p => global p = true /\ lastIndex p = 0%nat) ps.

(** [n] increments in a row, at the instants [times]. *)
Definition incrementAll (ip actionType : string) (times : list Z)
           (rows : list RateLimitRow) : list RateLimitRow :=
  fold_left (fun rs t => incrementRows t ip actionType rs) times rows.

(** No row of this source and action is in the window of an increment at
    [t0] or later. *)
Definition noneInWindow (ip actionType : string) (t0 : Z)
           (rows : list RateLimitRow) : Prop :=
  forall r, In r rows -> rlIp r = ip -> rlActionType r = actionType ->
            (rlWindowStart r < toSeconds (t0 - 60 * 1000))%Z.

(** The claim C8 on a frame of unknown type, as stated: an ERROR frame goes
    to the sender. *)
Definition unknown_type_answered_with_error : Prop :=
  forall now uuid userId type data sv,
    is_Some (connectedUsers sv !! userId) ->
    handled type = false ->
    exists m, In (Send userId (ERROR m))
                 (onMessage now uuid userId (Frame type data) sv).2.

(** The claim C1 as stated: when the processing of a [send_message] logs a
    flagged row, no [message_received] frame carries the content of that
    row. *)
Definition flagged_rows_never_relayed : Prop :=
  forall now uuid userId data sv row,
    In (LogMessage row)
       (onMessage now uuid userId (Frame SEND_MESSAGE data) sv).2 ->
    mFlagged row = true ->
    forall to_ m,
      In (Send to_ (MESSAGE_RECEIVED m))
         (onMessage now uuid userId (Frame SEND_MESSAGE data) sv).2 ->
      content m ≠ mContent row.

(** The claim C3 on a content of 2001 code units, as stated: it is clamped
    and then relayed. *)
Definition long_content_clamped_and_relayed : Prop :=
  forall now uuid userId user p partner raw sv,
    connectedUsers sv !! userId = Some user ->
    partnerId user = Some p ->
    connectedUsers sv !! p = Some partner ->
    socketOpen partner = true ->
    Storage.checkRateLimit now (ip user) (actionType message) (limit message)
                           (windowSeconds message) (storage sv) = true ->
    length raw = 2001%nat ->
    isSpam (sanitizeMessage raw) = false ->
    severity (checkProfanity (sanitizeMessage raw) (filter sv)).1 ≠ blocked ->
    relayed (onMessage now uuid userId
                       (Frame SEND_MESSAGE (contentData raw)) sv).2.

End Props.

(* ===================================================================== *)
(** ** Further notions *)
(* ===================================================================== *)

Module Notions.
Import JsString RegExp ProfanityFilter Schema Storage Routes.

(** What a matcher step over the input [s] may be trusted with: whenever
    it answers, the answer came from its continuation, called at an index
    in the input and not before the start. *)
Definition advances (s : JsString.t)
           (step : nat -> caps -> cont -> option nat) : Prop :=
  forall (i : nat) (c : caps) (k : cont) (e : nat) (Q : Prop),
    (forall j c', (i <= j)%nat -> (j <= length s)%nat ->
                  k j c' = Some e -> Q) ->
    (i <= length s)%nat -> step i c k = Some e -> Q.

(** The code units [sanitizeMessage] escapes: < > and the two quotes. *)
Definition isMarkup (c : N) : bool :=
  (c =? 60) || (c =? 62) || (c =? 34) || (c =? 39).

(** The tables with every pattern object back at [lastIndex] 0. *)
Definition resetTables (tb : Tables) : Tables :=
  mkTables (List.map (setLastIndex 0) (profane tb))
           (List.map (setLastIndex 0) (warning tb)).

(** The rows the effects of a handler say were logged, in order. *)
Definition logged (effs : list Effect) : list ChatMessageRow :=
  flat_map (fun e => match e with
                     | LogMessage row => [row]
                     | _ => []
                     end) effs.

(** [getFirstWaitingUser]: [users[0]] of the sorted queue, [undefined] when
    the queue is empty. *)
Definition getFirstWaitingUser (st : Storage.t) : option WaitingUser :=
  head (getWaitingUsers st).

(** The entries of a [Map] filed under the key [k]. *)
Definition entriesOf {V : Type} (k : string) (l : list (string * V))
  : list (string * V) :=
  List.filter (fun e => String.eqb (fst e) k) l.

(** The entries of a list of waiting users that joined at [t]. *)
Definition joinedAtInstant (t : Z) (l : list WaitingUser)
  : list WaitingUser :=
  List.filter (fun w => (joinedAt w =? t)%Z) l.

(** The rows of [chat_messages]. *)
Definition messageLog (sv : Server) : list ChatMessageRow :=
  chatMessages (db (storage sv)).

(** The frames a session may get as the answer to its own
    [send_message]. *)
Definition isRefusal (f : ServerFrame) : bool :=
  match f with
  | ERROR _ | RATE_LIMITED _ | MESSAGE_FLAGGED _ => true
  | _ => false
  end.

(** [send_message] frames of one session in a row, each with its instant
    and its payload. *)
Definition sendAll (uuid : nat -> string) (k : string)
           (msgs : list (Z * Payload)) (sv : Server) : Server :=
  fold_left (fun s m => (onMessage m.1 uuid k (Frame SEND_MESSAGE m.2) s).1)
            msgs sv.

(** [n] frames with the same text, one every millisecond from [from]. *)
Definition burst (n : nat) (from : Z) (text : string) : list (Z * Payload) :=
  List.map (fun i => ((from + Z.of_nat i)%Z, contentData (JsString.lit text)))
           (seq 0 n).

(** The frame [f] for the session [u] registered under [k], as
    [sendToUser] writes it: sent when the socket of [u] is open, dropped
    otherwise. *)
Definition sentIfOpen (u : ConnectedUser) (k : string) (f : ServerFrame)
  : list Effect :=
  if socketOpen u then [Send k f] else [].

(** The state with the socket of the session [k] no longer open. *)
Definition socketGone (k : string) (sv : Server) : Server :=
  setUsers (alter (fun u => mkUser (id u) false (ip u) (partnerId u)
                                   (roomId u)) k (connectedUsers sv)) sv.

(** *** The order of service *)



(** The state in which [case socketEvents.JOIN_QUEUE] calls [matchUsers]
    for the session [u] registered under [userId]. *)
Definition atThePass (now : Z) (userId : string) (u : ConnectedUser)
           (sv : Server) : Server :=
  setStorage
    (Storage.addWaitingUser
       (mkWaitingUser userId "[object Object]" (ip u) now) (storage sv)) sv.

(** *** Rooms *)

(** [k] is one of the two sessions of the chat and [p] names the other. *)
Definition chatOf (chat : ChatSession) (k : string) (p : option string)
  : Prop :=
  (user1Id chat = k /\ p = Some (user2Id chat))
  \/ (user2Id chat = k /\ p = Some (user1Id chat)).

(** The active chats are the rooms of the paired sessions: the room of a
    session is an active chat of this session and its partner, and an
    active chat is filed under its non-empty id and is the room of its two
    sessions, both registered. *)
Record RoomInv (cu : gmap string ConnectedUser)
       (chats : gmap string ChatSession) : Prop := mkRoomInv {
  room_of_session : forall k u r,
    cu !! k = Some u -> roomId u = Some r ->
    exists chat, chats !! r = Some chat /\ chatOf chat k (partnerId u);
  sessions_of_room : forall r chat,
    chats !! r = Some chat ->
    r ≠ EmptyString /\ csId chat = r
    /\ exists u1 u2, cu !! user1Id chat = Some u1 /\ roomId u1 = Some r
                     /\ cu !! user2Id chat = Some u2 /\ roomId u2 = Some r
}.

(** One event of the server when [randomUUID()] gives what it promises: a
    room id that is not empty and not the id of an active chat. *)
Inductive freshStep (sv : Server) : Server -> Prop :=
| fresh_connection (now : Z) (userId ip : string) :
    userId ≠ EmptyString ->
    connectedUsers sv !! userId = None ->
    freshStep sv (onConnection now userId ip sv).1
| fresh_message (now : Z) (uuid : nat -> string) (userId : string)
                (raw : Inbound) :
    uuid 0%nat ≠ EmptyString ->
    activeChats (storage sv) !! uuid 0%nat = None ->
    freshStep sv (onMessage now uuid userId raw sv).1
| fresh_close (now : Z) (userId : string) :
    freshStep sv (handleDisconnect now userId sv).1.

Inductive reachableFresh : Server -> Prop :=
| fresh_start (now : Z) (d : Storage.Db) : reachableFresh (start now d)
| fresh_step (sv sv' : Server) :
    reachableFresh sv -> freshStep sv sv' -> reachableFresh sv'.

(** What a chat is known by: its id and its two sessions. *)
Definition chatIds (chat : ChatSession) : string * string * string :=
  (csId chat, user1Id chat, user2Id chat).

End Notions.

(* ===================================================================== *)
(** ** The moderation desk: bans and appeals over HTTP *)
(* ===================================================================== *)

Module Admin.
Import Schema Storage Routes.

(** A row of [banned_ips]. *)
Record BannedIpRow := mkBannedIp {
  banId : Z;
  banIp : string;
  banReason : string;
  bannedAt : Z;
  bannedBy : string
}.

(** A row of [ban_appeals]; [status] is a text column. *)
Record BanAppealRow := mkBanAppeal {
  appealId : Z;
  appealIp : string;
  appealEmail : string;
  appealReason : string;
  appealStatus : string;
  submittedAt : Z;
  reviewedAt : option Z;
  reviewedBy : option string;
  reviewNotes : option string
}.

(** The two tables, each with its AUTOINCREMENT sequence (the largest id
    given so far). *)
Record Tables := mkTables {
  bannedIpsTable : list BannedIpRow;
  bannedIpsSeq : Z;
  banAppealsTable : list BanAppealRow;
  banAppealsSeq : Z
}.

Definition pendingStatus : string := "pending".
Definition approvedStatus : string := "approved".
Definition rejectedStatus : string := "rejected".

(** [eq(bannedIps.ip, ip)]. *)
Definition hasIp (ip : string) (b : BannedIpRow) : bool :=
  String.eqb (banIp b) ip.

(** [eq(table.id, id)] for the number [parseInt] returned; [None] is NaN,
    which equals no id. *)
Definition hasId (id : option Z) (n : Z) : bool :=
  match id with
  | Some i => (n =? i)%Z
  | None => false
  end.

(** [and(eq(banAppeals.ip, ip), eq(banAppeals.status, 'pending'))]. *)
Definition isPendingFor (ip : string) (a : BanAppealRow) : bool :=
  String.eqb (appealIp a) ip && String.eqb (appealStatus a) pendingStatus.

(** *** storage.ts *)

Definition getBannedIpByIp (ip : string) (tb : Tables) : option BannedIpRow :=
  List.find (hasIp ip) (bannedIpsTable tb).

(** [addBannedIp]: the insert is refused when it breaks the UNIQUE
    constraint on [ip]. *)
Definition addBannedIp (now : Z) (ip reason by_ : string) (tb : Tables)
  : option (Tables * BannedIpRow) :=
  if existsb (hasIp ip) (bannedIpsTable tb) then None
  else
    let row := mkBannedIp (bannedIpsSeq tb + 1) ip reason (toSeconds now) by_ in
    Some (mkTables (bannedIpsTable tb ++ [row]) (bannedIpsSeq tb + 1)
                   (banAppealsTable tb) (banAppealsSeq tb), row).

(** [removeBannedIp]: whether a row was deleted. *)
Definition removeBannedIp (id : option Z) (tb : Tables) : Tables * bool :=
  let kept := List.filter (fun b => negb (hasId id (banId b)))
                          (bannedIpsTable tb) in
  (mkTables kept (bannedIpsSeq tb) (banAppealsTable tb) (banAppealsSeq tb),
   (length kept <? length (bannedIpsTable tb))%nat).

Definition isIpBanned (ip : string) (tb : Tables) : bool :=
  match List.find (hasIp ip) (bannedIpsTable tb) with
  | Some _ => true
  | None => false
  end.

Definition createBanAppeal (now : Z) (ip email reason : string) (tb : Tables)
  : Tables * BanAppealRow :=
  let row := mkBanAppeal (banAppealsSeq tb + 1) ip email reason pendingStatus
                         (toSeconds now) None None None in
  (mkTables (bannedIpsTable tb) (bannedIpsSeq tb)
            (banAppealsTable tb ++ [row]) (banAppealsSeq tb + 1), row).

(** [getBanAppeals(status)]; a status that is absent or empty selects
    all rows. The order of the answer is left out. *)
Definition getBanAppeals (status : option string) (tb : Tables)
  : list BanAppealRow :=
  if truthy status then
    List.filter (fun a => match status with
                          | Some s => String.eqb (appealStatus a) s
                          | None => false
                          end) (banAppealsTable tb)
  else banAppealsTable tb.

(** The [set] of [updateBanAppealStatus]; a field given [undefined] is
    left as it is. *)
Definition review (now : Z) (status by_ : string) (notes : option string)
           (a : BanAppealRow) : BanAppealRow :=
  mkBanAppeal (appealId a) (appealIp a) (appealEmail a) (appealReason a)
              status (submittedAt a) (Some (toSeconds now)) (Some by_)
              (match notes with
               | Some n => Some n
               | None => reviewNotes a
               end).

(** [updateBanAppealStatus]: the update, and on approval the delete of
    the bans of the address of the row updated. *)
Definition updateBanAppealStatus (now : Z) (id : option Z)
           (status by_ : string) (notes : option string) (tb : Tables)
  : Tables * option BanAppealRow :=
  let appeals' :=
    List.map (fun a => if hasId id (appealId a)
                       then review now status by_ notes a else a)
             (banAppealsTable tb) in
  match List.find (fun a => hasId id (appealId a)) appeals' with
  | None =>
      (mkTables (bannedIpsTable tb) (bannedIpsSeq tb) appeals'
                (banAppealsSeq tb), None)
  | Some updated =>
      let bans' :=
        if String.eqb status approvedStatus
        then List.filter (fun b => negb (hasIp (appealIp updated) b))
                         (bannedIpsTable tb)
        else bannedIpsTable tb in
      (mkTables bans' (bannedIpsSeq tb) appeals' (banAppealsSeq tb),
       Some updated)
  end.

Definition getAppealByIp (ip : string) (tb : Tables) : option BanAppealRow :=
  List.find (isPendingFor ip) (banAppealsTable tb).

(** *** shared/schema.ts *)

Definition between (lo hi : nat) (s : string) : bool :=
  (lo <=? String.length s)%nat && (String.length s <=? hi)%nat.

(** [banIpSchema.parse]; a field is [None] when it is absent or not a
    string. *)
Definition banIpSchema_parse (ip reason : option string)
  : option (string * string) :=
  match ip, reason with
  | Some i, Some r =>
      if between 7 45 i && between 1 500 r then Some (i, r) else None
  | _, _ => None
  end.

Section Forms.
(** The pattern of [z.string().email()]. *)
Variable isEmail : string -> bool.

Definition banAppealFormSchema_parse (ip email reason : option string)
  : option (string * string * string) :=
  match ip, email, reason with
  | Some i, Some e, Some r =>
      if between 7 45 i && isEmail e && between 10 1000 r
      then Some (i, e, r) else None
  | _, _, _ => None
  end.

(** *** routes.ts *)

(** What a route answers: a status with its body. *)
Inductive Reply :=
| BanCreated (ban : BannedIpRow)
| AppealCreated (appeal : BanAppealRow)
| AppealUpdated (appeal : BanAppealRow)
| NoContent
| BanStatus (banned : bool) (ip : string)
| Invalid
| Refused (status : nat) (error : string).

(** [app.post('/api/admin/bans')]. *)
Definition postBan (now : Z) (ip reason : option string) (tb : Tables)
  : Tables * Reply :=
  match banIpSchema_parse ip reason with
  | None => (tb, Invalid)
  | Some (i, r) =>
      match getBannedIpByIp i tb with
      | Some _ => (tb, Refused 400 "IP is already banned")
      | None =>
          match addBannedIp now i r "Admin" tb with
          | Some (tb', ban) => (tb', BanCreated ban)
          | None => (tb, Refused 500 "Failed to add ban")
          end
      end
  end.

(** [app.delete('/api/admin/bans/:id')]. *)
Definition deleteBan (id : option Z) (tb : Tables) : Tables * Reply :=
  let (tb', success) := removeBannedIp id tb in
  if success then (tb', NoContent) else (tb', Refused 404 "Ban not found").

(** [app.post('/api/appeals')]. *)
Definition postAppeal (now : Z) (ip email reason : option string)
           (tb : Tables) : Tables * Reply :=
  match banAppealFormSchema_parse ip email reason with
  | None => (tb, Invalid)
  | Some (i, e, r) =>
      if negb (isIpBanned i tb) then
        (tb, Refused 400 "This IP is not currently banned")
      else
        match getAppealByIp i tb with
        | Some _ => (tb, Refused 400 "An appeal for this IP is already pending")
        | None =>
            let (tb', appeal) := createBanAppeal now i e r tb in
            (tb', AppealCreated appeal)
        end
  end.

(** [app.patch('/api/admin/appeals/:id')]. *)
Definition patchAppeal (now : Z) (id : option Z) (status notes : option string)
           (tb : Tables) : Tables * Reply :=
  match status with
  | Some st =>
      if String.eqb st approvedStatus || String.eqb st rejectedStatus then
        match updateBanAppealStatus now id st "Admin" notes tb with
        | (tb', None) => (tb', Refused 404 "Appeal not found")
        | (tb', Some appeal) => (tb', AppealUpdated appeal)
        end
      else (tb, Refused 400 "Invalid status")
  | None => (tb, Refused 400 "Invalid status")
  end.

(** [app.get('/api/check-ban')], for the address [getClientIp] gave. *)
Definition checkBan (ip : string) (tb : Tables) : Tables * Reply :=
  (tb, BanStatus (isIpBanned ip tb) ip).

(** The requests that write or read these two tables. *)
Inductive Request :=
| PostBan (ip reason : option string)
| DeleteBan (id : option Z)
| PostAppeal (ip email reason : option string)
| PatchAppeal (id : option Z) (status notes : option string)
| CheckBan (ip : string).

Definition handle (now : Z) (req : Request) (tb : Tables) : Tables * Reply :=
  match req with
  | PostBan ip reason => postBan now ip reason tb
  | DeleteBan id => deleteBan id tb
  | PostAppeal ip email reason => postAppeal now ip email reason tb
  | PatchAppeal id status notes => patchAppeal now id status notes tb
  | CheckBan ip => checkBan ip tb
  end.

(** Requests served one after the other, each at its instant: the tables
    they leave and the replies they got. *)
Fixpoint serve (reqs : list (Z * Request)) (tb : Tables)
  : Tables * list Reply :=
  match reqs with
  | [] => (tb, [])
  | (now, req) :: rest =>
      let (tb1, reply) := handle now req tb in
      let (tb2, replies) := serve rest tb1 in
      (tb2, reply :: replies)
  end.

End Forms.

(** The tables of a new database. *)
Definition noTables : Tables := mkTables [] 0 [] 0.

(** The realtime plane over these tables: its [isIpBanned] reads the [ip]
    column of [banned_ips]. *)
Definition withBans (tb : Tables) (sv : Server) : Server :=
  let d := db (storage sv) in
  setStorage
    (setDb (mkDb (List.map banIp (bannedIpsTable tb)) (chatSessions d)
                 (chatMessages d) (rateLimits d))
           (storage sv)) sv.

(** The constraints of the schema: [ip] is UNIQUE in [banned_ips], the
    ids of a table are distinct and not above its sequence. *)
Record Sound (tb : Tables) : Prop := mkSound {
  sound_ips : List.NoDup (List.map banIp (bannedIpsTable tb));
  sound_banIds : List.NoDup (List.map banId (bannedIpsTable tb));
  sound_banSeq : Forall (fun b => (banId b <= bannedIpsSeq tb)%Z)
                        (bannedIpsTable tb);
  sound_appealIds : List.NoDup (List.map appealId (banAppealsTable tb));
  sound_appealSeq : Forall (fun a => (appealId a <= banAppealsSeq tb)%Z)
                           (banAppealsTable tb)
}.

(** The pending appeals of an address. *)
Definition pendingFor (ip : string) (tb : Tables) : list BanAppealRow :=
  List.filter (isPendingFor ip) (banAppealsTable tb).

Definition onePendingEach (tb : Tables) : Prop :=
  forall ip, (length (pendingFor ip tb) <= 1)%nat.

(** The reply of a failed insert. *)
Definition isServerError (r : Reply) : bool :=
  match r with
  | Refused status _ => (status =? 500)%nat
  | _ => false
  end.

(** A desk with one ban, of 10.0.0.7, and the pending appeal against
    it; every address with an at sign counts as an e-mail address. *)
Definition anyEmail (e : string) : bool :=
  existsb (Ascii.eqb "@"%char) (list_ascii_of_string e).

Definition desk : Tables :=
  (serve anyEmail
     [(1000%Z, PostBan (Some "10.0.0.7"%string) (Some "spam"%string));
      (2000%Z, PostAppeal (Some "10.0.0.7"%string) (Some "a@b.example"%string)
                          (Some "please let me in"%string))]
     noTables).1.

End Admin.

(* ===================================================================== *)
(** ** The address of a client *)
(* ===================================================================== *)

Module ClientAddress.
Import JsString.

(** [req.headers['x-forwarded-for']]: absent, a string, or an array. *)
Inductive HeaderValue :=
| Absent
| Single (value : JsString.t)
| Several (values : list JsString.t).

(** [s.split(',')[0]]; 44 is the code unit of the comma. *)
Fixpoint beforeComma (s : JsString.t) : JsString.t :=
  match s with
  | c :: s' => if c =? 44 then [] else c :: beforeComma s'
  | [] => []
  end.

(** [getClientIp]; [remoteAddress] is [req.socket.remoteAddress]. *)
Definition getClientIp (forwarded : HeaderValue)
           (remoteAddress : option JsString.t) : JsString.t :=
  match forwarded with
  | Single value => trim (beforeComma value)
  | _ =>
      match remoteAddress with
      | Some (c :: a) => c :: a
      | _ => lit "0.0.0.0"
      end
  end.

(** A text that neither starts nor ends with white space. *)
Definition trimmed (s : JsString.t) : Prop :=
  match s with
  | c :: _ => isSpace c = false
  | [] => True
  end
  /\ match rev s with
     | c :: _ => isSpace c = false
     | [] => True
     end.

End ClientAddress.

(* ===================================================================== *)
(** ** The client: [SocketManager] *)
(* ===================================================================== *)

Module SocketManager.

(** [WebSocket.readyState]. *)
Inductive ReadyState := CONNECTING | OPEN | CLOSING | CLOSED.

(** The manager. [socket] refers to a WebSocket of the page by its
    number; a callback is known by its number; [listeners] is the [Map]
    from event names to [Set]s of callbacks, in insertion order. *)
Record t := mk {
  socket : option nat;
  listeners : list (string * list nat);
  reconnectAttempts : nat
}.

Definition maxReconnectAttempts : nat := 5.
Definition reconnectDelay : nat := 1000.

(** The page: the WebSockets created so far, each with its [readyState],
    and the manager. *)
Record Page := mkPage {
  sockets : list ReadyState;
  manager : t
}.

(** What the manager does to its surroundings. *)
Inductive Effect :=
| NewWebSocket (n : nat)
| Call (callback : nat) (event : string)
| SetTimeout (delay : nat)
| SocketClose (n : nat)
| SocketSend (n : nat) (type : string)
| ConsoleError.

Definition isOpen (pg : Page) (n : nat) : bool :=
  match sockets pg !! n with
  | Some OPEN => true
  | _ => false
  end.

Definition setManager (m : t) (pg : Page) : Page := mkPage (sockets pg) m.

(** [connect()]. *)
Definition connect (pg : Page) : Page * list Effect :=
  let m := manager pg in
  let fresh := length (sockets pg) in
  let create :=
    (mkPage (sockets pg ++ [CONNECTING])
            (mk (Some fresh) (listeners m) (reconnectAttempts m)),
     [NewWebSocket fresh]) in
  match socket m with
  | Some n => if isOpen pg n then (pg, []) else create
  | None => create
  end.

(** [emit(event, data)]. *)
Definition emit (event : string) (pg : Page) : list Effect :=
  match Storage.mapGet event (listeners (manager pg)) with
  | Some callbacks => List.map (fun cb => Call cb event) callbacks
  | None => []
  end.

(** [attemptReconnect()]. *)
Definition attemptReconnect (pg : Page) : Page * list Effect :=
  let m := manager pg in
  if (reconnectAttempts m <? maxReconnectAttempts)%nat then
    let attempts := S (reconnectAttempts m) in
    (setManager (mk (socket m) (listeners m) attempts) pg,
     [SetTimeout (reconnectDelay * attempts)])
  else (pg, []).

(** [socket.close()] as the browser records it. *)
Definition closing (s : ReadyState) : ReadyState :=
  match s with
  | CLOSED => CLOSED
  | _ => CLOSING
  end.

(** [disconnect()]. *)
Definition disconnect (pg : Page) : Page * list Effect :=
  let m := manager pg in
  match socket m with
  | Some n =>
      (mkPage (alter closing n (sockets pg))
              (mk None (listeners m) (reconnectAttempts m)),
       [SocketClose n])
  | None => (pg, [])
  end.

(** [send(type, data)]. *)
Definition send (type : string) (pg : Page) : Page * list Effect :=
  match socket (manager pg) with
  | Some n => if isOpen pg n then (pg, [SocketSend n type]) else (pg, [])
  | None => (pg, [])
  end.

(** [Set.prototype.add]. *)
Definition setAdd (cb : nat) (callbacks : list nat) : list nat :=
  if existsb (Nat.eqb cb) callbacks then callbacks else callbacks ++ [cb].

(** [on(event, callback)]. *)
Definition on (event : string) (cb : nat) (pg : Page) : Page :=
  let m := manager pg in
  let ls := match Storage.mapGet event (listeners m) with
            | Some _ => listeners m
            | None => Storage.mapSet event [] (listeners m)
            end in
  let callbacks := match Storage.mapGet event ls with
                   | Some cbs => cbs
                   | None => []
                   end in
  setManager (mk (socket m) (Storage.mapSet event (setAdd cb callbacks) ls)
                 (reconnectAttempts m)) pg.

(** [off(event, callback)]. *)
Definition off (event : string) (cb : nat) (pg : Page) : Page :=
  let m := manager pg in
  match Storage.mapGet event (listeners m) with
  | Some callbacks =>
      setManager
        (mk (socket m)
            (Storage.mapSet event
               (List.filter (fun c => negb (Nat.eqb c cb)) callbacks)
               (listeners m))
            (reconnectAttempts m)) pg
  | None => pg
  end.

(** [socket.onopen] of the socket [n]. *)
Definition onopen (n : nat) (pg : Page) : Page * list Effect :=
  let m := manager pg in
  let pg' := mkPage (<[n := OPEN]> (sockets pg))
                    (mk (socket m) (listeners m) 0) in
  (pg', emit "connected" pg').

(** What [JSON.parse(event.data)] gave: nothing, an object whose [type]
    is a string, or an object without such a [type]. *)
Inductive Incoming := Unparsable | Typed (type : string) | Untyped.

(** [socket.onmessage]. *)
Definition onmessage (incoming : Incoming) (pg : Page)
  : Page * list Effect :=
  match incoming with
  | Unparsable => (pg, [ConsoleError])
  | Typed type => (pg, emit type pg)
  | Untyped => (pg, [])
  end.

(** [socket.onclose] of the socket [n]. *)
Definition onclose (n : nat) (pg : Page) : Page * list Effect :=
  let pg1 := mkPage (<[n := CLOSED]> (sockets pg)) (manager pg) in
  let out := emit "disconnected" pg1 in
  let (pg2, out') := attemptReconnect pg1 in
  (pg2, out ++ out').

(** [socket.onerror]. *)
Definition onerror (pg : Page) : Page * list Effect := (pg, [ConsoleError]).

(** What happens on the page: a call of the application, an event of a
    socket, or a timer that fires. *)
Inductive Event :=
| CallConnect
| CallDisconnect
| CallSend (type : string)
| CallOn (event : string) (cb : nat)
| CallOff (event : string) (cb : nat)
| Opened (n : nat)
| Received (incoming : Incoming)
| Closed (n : nat)
| Errored
| TimerFired.

Definition step (e : Event) (pg : Page) : Page * list Effect :=
  match e with
  | CallConnect => connect pg
  | CallDisconnect => disconnect pg
  | CallSend type => send type pg
  | CallOn event cb => (on event cb pg, [])
  | CallOff event cb => (off event cb pg, [])
  | Opened n => onopen n pg
  | Received incoming => onmessage incoming pg
  | Closed n => onclose n pg
  | Errored => onerror pg
  | TimerFired => connect pg
  end.

Fixpoint run (events : list Event) (pg : Page) : Page * list Effect :=
  match events with
  | [] => (pg, [])
  | e :: rest =>
      let (pg1, out) := step e pg in
      let (pg2, out') := run rest pg1 in
      (pg2, out ++ out')
  end.

(** The page when the module is loaded. *)
Definition initial : Page := mkPage [] (mk None [] 0).

(** The delays of the timers set, in order. *)
Definition delays (effs : list Effect) : list nat :=
  flat_map (fun e => match e with SetTimeout d => [d] | _ => [] end) effs.

Definition isOpened (e : Event) : bool :=
  match e with Opened _ => true | _ => false end.

Definition isClosed (e : Event) : bool :=
  match e with Closed _ => true | _ => false end.

End SocketManager.

(* ===================================================================== *)
(** * Properties *)
(* ===================================================================== *)

(** ** The moderator *)

Module ModeratorFacts.
Import JsString RegExp ProfanityFilter Props.

(** [checkProfanity] returns one of its three literal results. *)
Lemma checkProfanity_result (content : JsString.t) (tb : Tables) :
  let r := (checkProfanity content tb).1 in
  (severity r = blocked /\ flagged r = true
   /\ reason r = Some "Contains prohibited content"%string)
  \/ (severity r = warningSev /\ flagged r = true
      /\ reason r = Some Run.warningReason)
  \/ (severity r = clean /\ flagged r = false /\ reason r = None).
Proof.
  unfold checkProfanity.
  destruct (testFirst (profane tb) content) as [[|] ps]; cbn; [tauto|].
  destruct (testFirst (warning tb) content) as [[|] ws]; cbn; tauto.
Qed.

(** A global pattern at [lastIndex] 0 that finds nothing leaves the text as
    it is under [replace]. *)
Lemma replace_no_match (re : RegExp.t) (s : JsString.t)
      (f : JsString.t -> JsString.t) :
  execFrom (RegExp.ignoreCase re) s (source re) 0 = None ->
  (RegExp.replace re s f).1 = s.
Proof.
  intros H. unfold RegExp.replace; cbn [fst allMatches]. rewrite H. reflexivity.
Qed.

Lemma testFirst_none (ps : list RegExp.t) (s : JsString.t) :
  rested ps -> (testFirst ps s).1 = false ->
  Forall (fun p => execFrom (RegExp.ignoreCase p) s (source p) 0 = None) ps.
Proof.
  induction 1 as [|p ps [Hg Hl] _ IH]; cbn [testFirst]; [constructor|].
  unfold test. rewrite Hg, Hl.
  destruct (execFrom _ s (source p) 0) as [[a e]|] eqn:E; cbn [fst];
    [discriminate|].
  destruct (testFirst ps s) as [found ps'] eqn:T; cbn [fst] in *.
  intros ->. constructor; auto.
Qed.

Lemma maskAll_none (ps : list RegExp.t) (s : JsString.t) :
  Forall (fun p => execFrom (RegExp.ignoreCase p) s (source p) 0 = None) ps ->
  (maskAll ps s).1 = s.
Proof.
  induction 1 as [|p ps Hp _ IH]; cbn [maskAll]; [reflexivity|].
  pose proof (replace_no_match p s (fun mt => stars (length mt)) Hp) as R.
  destruct (RegExp.replace p s _) as [s' p']; cbn [fst] in R; subst s'.
  destruct (maskAll ps s) as [out ps']; cbn [fst] in *. exact IH.
Qed.

(** With the tables at rest, a text that [checkProfanity] does not block
    holds no match of a profane pattern, and [filterContent] returns it
    unchanged: the masking applied at severity warning masks nothing. *)
Lemma filterContent_unblocked (content : JsString.t) (tb : Tables) :
  rested (profane tb) ->
  severity (checkProfanity content tb).1 ≠ blocked ->
  (filterContent content tb).1 = content.
Proof.
  intros Hr Hs. unfold filterContent.
  pose proof (maskAll_none (profane tb) content) as M.
  destruct (maskAll (profane tb) content) as [out ps']; cbn [fst] in *.
  apply M, testFirst_none; [exact Hr|].
  unfold checkProfanity in Hs.
  destruct (testFirst (profane tb) content) as [[|] ps]; cbn [fst severity] in *;
    [congruence | reflexivity].
Qed.

(** C5. [checkProfanity] is not a function of its text alone: the pattern
    objects are shared between calls and carry [lastIndex]. Called twice
    in a row on the text "damn", it answers blocked and then clean. *)
Theorem checkProfanity_second_call_differs :
  let first := checkProfanity (lit "damn") initialTables in
  let second := checkProfanity (lit "damn") first.2 in
  severity first.1 = blocked /\ severity second.1 = clean.
Proof. vm_compute. split; reflexivity. Qed.

End ModeratorFacts.

(** ** The frame dispatch *)

Module DispatchFacts.
Import JsString Schema Routes Run Scenario Props.

Lemma setUsers_same (sv : Server) : setUsers (connectedUsers sv) sv = sv.
Proof. destruct sv; reflexivity. Qed.

Lemma link_none (u : ConnectedUser) :
  partnerId u = None -> roomId u = None -> link None None u = u.
Proof. destruct u; cbn; intros -> ->; reflexivity. Qed.

(** C2. A [send_media] frame has no [case] in the dispatch: whatever the
    state and the payload, nothing is emitted, validated or logged, and the
    state is unchanged. *)
Theorem send_media_has_no_handler (now : Z) (uuid : nat -> string)
        (userId : string) (data : Payload) (sv : Server) :
  onMessage now uuid userId (Frame SEND_MEDIA data) sv = (sv, []).
Proof.
  unfold onMessage. destruct (connectedUsers sv !! userId); reflexivity.
Qed.

Lemma unknown_type_not_answered : ~ unknown_type_answered_with_error.
Proof.
  intros H.
  destruct (H 5%Z uuid "A"%string "bogus"%string noData s1) as [m Hm].
  - vm_compute. eauto.
  - reflexivity.
  - vm_compute in Hm. exact Hm.
Qed.

Lemma mapDelete_absent {V : Type} (k : string) (l : list (string * V)) :
  Storage.mapGet k l = None -> Storage.mapDelete k l = l.
Proof.
  induction l as [|[k' v] l IH]; cbn; [reflexivity|].
  destruct (String.eqb k' k); [discriminate|].
  intros H. rewrite (IH H). reflexivity.
Qed.

(** C8, amended. A frame of a type without a [case], a typing, stop-typing
    or disconnect frame from a session without partner and room, and a
    [leave_queue] from a session that is not queued, is dropped silently:
    no frame is emitted and the state is unchanged. A [send_message] from
    a session without partner and a [join_queue] from a session with a
    partner are answered with an ERROR frame to the sender and change no
    state. No socket is closed. *)
Theorem illegal_frames (now : Z) (uuid : nat -> string) (userId : string)
        (user : ConnectedUser) (sv : Server) :
  connectedUsers sv !! userId = Some user ->
  socketOpen user = true ->
  (forall type data, handled type = false ->
     onMessage now uuid userId (Frame type data) sv = (sv, []))
  /\ (partnerId user = None -> roomId user = None ->
      forall type data, In type [TYPING; STOP_TYPING; DISCONNECT_CHAT] ->
        onMessage now uuid userId (Frame type data) sv = (sv, []))
  /\ (partnerId user = None -> forall data,
        onMessage now uuid userId (Frame SEND_MESSAGE data) sv
        = (sv, [Send userId (ERROR "Not connected to a partner")]))
  /\ (truthy (partnerId user) = true -> forall data,
        onMessage now uuid userId (Frame JOIN_QUEUE data) sv
        = (sv, [Send userId (ERROR "Already in a chat")]))
  /\ (Storage.mapGet userId (Storage.waitingUsers (storage sv)) = None ->
      forall data,
        onMessage now uuid userId (Frame LEAVE_QUEUE data) sv = (sv, [])).
Proof.
  intros Hu Hopen. repeat split.
  - intros type data Hh. unfold onMessage. rewrite Hu.
    unfold handled in Hh. cbn [existsb] in Hh.
    repeat (apply orb_false_iff in Hh; destruct Hh as [? Hh]).
    repeat match goal with E : String.eqb _ _ = false |- _ =>
             rewrite E; clear E end.
    reflexivity.
  - intros Hp Hr type data Hin. unfold onMessage. rewrite Hu.
    cbn [In] in Hin. destruct Hin as [<-|[<-|[<-|[]]]]; cbn.
    + unfold forwardToPartner. rewrite Hp. reflexivity.
    + unfold forwardToPartner. rewrite Hp. reflexivity.
    + unfold onDisconnectChat, unlinkPartner. rewrite Hp, Hu, Hr. cbn.
      rewrite alter_id; [apply f_equal2; [apply setUsers_same | reflexivity]|].
      intros x Hx. rewrite Hu in Hx. injection Hx as <-.
      apply link_none; assumption.
  - intros Hp data. unfold onMessage. rewrite Hu. cbn.
    unfold onSendMessage. rewrite Hp. cbn. unfold sendToUser.
    rewrite Hu, Hopen. reflexivity.
  - intros Hp data. unfold onMessage. rewrite Hu. cbn.
    unfold onJoinQueue. rewrite Hp. unfold sendToUser.
    rewrite Hu, Hopen. reflexivity.
  - intros Hq data. unfold onMessage. rewrite Hu. cbn.
    unfold Storage.removeWaitingUser. rewrite (mapDelete_absent _ _ Hq).
    destruct sv as [cu [] tb]. reflexivity.
Qed.

Lemma illegal_frames_at_A :
  onMessage 5 uuid "A" (Frame TYPING noData) s1 = (s1, [])
  /\ onMessage 5 uuid "A" (Frame "bogus" noData) s1 = (s1, []).
Proof.
  destruct (illegal_frames 5 uuid "A" (mkUser "A" true "10.0.0.1" None None) s1)
    as (Hunknown & Hsilent & _ & _ & _).
  - reflexivity.
  - reflexivity.
  - split.
    + apply Hsilent; [reflexivity | reflexivity | left; reflexivity].
    + apply Hunknown. reflexivity.
Defined.

End DispatchFacts.

(** ** The message pipeline *)

Module MessageFacts.
Import JsString Schema ProfanityFilter Routes Run Scenario Props.

Lemma onMessage_send_message (now : Z) (uuid : nat -> string)
      (userId : string) (user : ConnectedUser) (data : Payload)
      (sv : Server) :
  connectedUsers sv !! userId = Some user ->
  onMessage now uuid userId (Frame SEND_MESSAGE data) sv
  = onSendMessage now uuid userId user data sv.
Proof. intros Hu. unfold onMessage. rewrite Hu. reflexivity. Qed.

Lemma in_sendToUser (sv : Server) (k : string) (f : ServerFrame)
      (e : Effect) :
  In e (sendToUser sv k f) -> e = Send k f.
Proof.
  unfold sendToUser. destruct (connectedUsers sv !! k) as [v|]; [|intros []].
  destruct (socketOpen v); cbn; intros H; [|contradiction].
  destruct H as [<-|[]]. reflexivity.
Qed.

(** [sendToUser] reads the registry only. *)
Lemma sendToUser_users (sv sv' : Server) (k : string) (f : ServerFrame) :
  connectedUsers sv' = connectedUsers sv ->
  sendToUser sv' k f = sendToUser sv k f.
Proof. intros H. unfold sendToUser. rewrite H. reflexivity. Qed.

Lemma in_logFlagged (now : Z) (user : ConnectedUser) (content : JsString.t)
      (why : string) (sv : Server) (e : Effect) :
  In e (logFlagged now user content why sv).2 ->
  exists r, e = LogMessage (mkChatMessageRow r (ip user) content (now / 1000)
                                             true (Some why)).
Proof.
  unfold logFlagged. destruct (roomId user) as [r|]; [|intros []].
  destruct (truthy (Some r)); cbn; intros H; [|contradiction].
  destruct H as [<-|[]]. eauto.
Qed.

Lemma in_countAndLog (now : Z) (user : ConnectedUser) (content : JsString.t)
      (res : FilterResult) (sv : Server) (row : ChatMessageRow) :
  In (LogMessage row) (countAndLog now user content res sv).2 ->
  mFlagged row = flagged res /\ mFlagReason row = reason res
  /\ mContent row = content.
Proof.
  unfold countAndLog. destruct (roomId user) as [r|]; [|intros []].
  destruct (truthy (Some r)); cbn; intros H; [|contradiction].
  destruct H as [H|[H|[H|[]]]]; try discriminate.
  injection H as <-. auto.
Qed.

(** The effects of the moderated part of [send_message]: a row that is
    flagged for another reason than the warning one comes with no relay. *)
Lemma moderateAndRelay_flagged (now : Z) (uuid : nat -> string)
      (userId : string) (user : ConnectedUser) (data : Payload)
      (sv : Server) (row : ChatMessageRow) :
  In (LogMessage row) (moderateAndRelay now uuid userId user data sv).2 ->
  mFlagged row = true ->
  mFlagReason row ≠ Some warningReason ->
  ~ relayed (moderateAndRelay now uuid userId user data sv).2.
Proof.
  unfold moderateAndRelay.
  destruct (messageSchema_parse data) as [content|].
  2:{ intros H. apply in_sendToUser in H. discriminate. }
  destruct (isSpam (sanitizeMessage content)).
  { destruct (logFlagged now user (sanitizeMessage content) "spam" sv)
      as [sv' out'] eqn:L.
    intros _ _ _ (to_ & m & Hin). cbn [snd] in Hin.
    apply in_app_or in Hin. destruct Hin as [Hin|Hin].
    - apply in_sendToUser in Hin. discriminate.
    - pose proof (in_logFlagged now user (sanitizeMessage content) "spam" sv
                                (Send to_ (MESSAGE_RECEIVED m))) as P.
      rewrite L in P. destruct (P Hin) as [r Hr]. discriminate. }
  pose proof (ModeratorFacts.checkProfanity_result
                (sanitizeMessage content) (filter sv)) as R.
  destruct (checkProfanity (sanitizeMessage content) (filter sv))
    as [res tb1]. cbn [fst] in R.
  destruct (severity res) eqn:S.
  - (* clean *)
    destruct R as [(?&_)|[(?&_)|(_&Hf&_)]]; try congruence.
    destruct (countAndLog now user (sanitizeMessage content) res
                          (setFilter tb1 (setFilter tb1 sv)))
      as [sv' out'] eqn:C.
    cbn [snd]. intros Hin Hflag _. exfalso.
    apply in_app_or in Hin. destruct Hin as [Hin|Hin].
    + destruct (partnerId user); [|destruct Hin].
      apply in_sendToUser in Hin. discriminate.
    + pose proof (in_countAndLog now user (sanitizeMessage content) res
                                 (setFilter tb1 (setFilter tb1 sv)) row) as P.
      rewrite C in P. destruct (P Hin) as (F & _). congruence.
  - (* warning *)
    destruct R as [(?&_)|[(_&_&Hr)|(?&_)]]; try congruence.
    destruct (filterContent (sanitizeMessage content) tb1) as [c' tb2].
    destruct (countAndLog now user c' res (setFilter tb2 (setFilter tb1 sv)))
      as [sv' out'] eqn:C.
    cbn [snd]. intros Hin _ Hreason. exfalso.
    apply in_app_or in Hin. destruct Hin as [Hin|Hin].
    + destruct (partnerId user); [|destruct Hin].
      apply in_sendToUser in Hin. discriminate.
    + pose proof (in_countAndLog now user c' res
                                 (setFilter tb2 (setFilter tb1 sv)) row) as P.
      rewrite C in P. destruct (P Hin) as (_ & F & _). congruence.
  - (* blocked *)
    destruct (logFlagged now user (sanitizeMessage content) "profanity"
                         (setFilter tb1 sv)) as [sv' out'] eqn:L.
    intros _ _ _ (to_ & m & Hin). cbn [snd] in Hin.
    apply in_app_or in Hin. destruct Hin as [Hin|Hin].
    + apply in_sendToUser in Hin. discriminate.
    + pose proof (in_logFlagged now user (sanitizeMessage content) "profanity"
                                (setFilter tb1 sv)
                                (Send to_ (MESSAGE_RECEIVED m))) as P.
      rewrite L in P. destruct (P Hin) as [r Hr]. discriminate.
Qed.

Lemma flagged_warning_row_is_relayed : ~ flagged_rows_never_relayed.
Proof.
  intros H.
  apply (H 5%Z uuid "A"%string (contentData (lit "you idiot")) paired
           (mkChatMessageRow "room" "10.0.0.1" (lit "you idiot") 0 true
                             (Some warningReason))
           ltac:(vm_compute; tauto) eq_refl
           "B"%string
           (mkChatMessage "room" (lit "you idiot") "A" 5 None None None None)
           ltac:(vm_compute; tauto)).
  reflexivity.
Qed.

(** C1, amended. When the processing of a [send_message] appends a log row
    that is flagged for another reason than the warning one (the rows of
    the spam and blocked outcomes), no [message_received] frame is emitted.
    A message of severity warning is relayed, and its row is flagged. *)
Theorem flagged_spam_or_blocked_not_relayed (now : Z) (uuid : nat -> string)
        (userId : string) (data : Payload) (sv : Server)
        (row : ChatMessageRow) :
  In (LogMessage row)
     (onMessage now uuid userId (Frame SEND_MESSAGE data) sv).2 ->
  mFlagged row = true ->
  mFlagReason row ≠ Some warningReason ->
  ~ relayed (onMessage now uuid userId (Frame SEND_MESSAGE data) sv).2.
Proof.
  destruct (connectedUsers sv !! userId) as [user|] eqn:Hu.
  2:{ unfold onMessage. rewrite Hu. intros []. }
  rewrite (onMessage_send_message now uuid userId user data sv Hu).
  unfold onSendMessage.
  destruct (truthy (partnerId user)); cbn [negb].
  2:{ intros H. apply in_sendToUser in H. discriminate. }
  destruct (Storage.checkRateLimit _ _ _ _ _ _); cbn [negb].
  2:{ intros [H|H]; [discriminate|]. apply in_sendToUser in H. discriminate. }
  set (sv1 := setStorage _ sv).
  pose proof (moderateAndRelay_flagged now uuid userId user data sv1 row) as M.
  destruct (moderateAndRelay now uuid userId user data sv1) as [sv' out].
  cbn [snd] in *. intros Hin Hf Hr (to_ & m & Hrel).
  destruct Hin as [Hin|[Hin|Hin]]; try discriminate.
  destruct Hrel as [Hrel|[Hrel|Hrel]]; try discriminate.
  apply (M Hin Hf Hr). exists to_, m. exact Hrel.
Qed.

Lemma blocked_message_not_relayed :
  ~ relayed (onMessage 5 uuid "A" (say "damn") paired).2.
Proof.
  apply (flagged_spam_or_blocked_not_relayed 5 uuid "A"
           (contentData (lit "damn")) paired
           (mkChatMessageRow "room" "10.0.0.1" (lit "damn") 0 true
                             (Some "profanity"%string))).
  - vm_compute. tauto.
  - reflexivity.
  - discriminate.
Defined.

(** C6. At severity warning [filterContent] is applied, but it masks the
    matches of the profane patterns only: the text "you idiot" is
    classified warning and reaches the partner as it was written. *)
Theorem warning_term_reaches_partner_unmasked :
  severity (checkProfanity (sanitizeMessage (lit "you idiot"))
                           (filter paired)).1 = warningSev
  /\ (onMessage 5 uuid "A" (say "you idiot") paired).2
     = [RateCheck "10.0.0.1" message true;
        RateIncrement "10.0.0.1" message;
        Send "B" (MESSAGE_RECEIVED
                    (mkChatMessage "room" (lit "you idiot") "A" 5
                                   None None None None));
        IncrementMessageCount "room";
        IncrementTodayMessages;
        LogMessage (mkChatMessageRow "room" "10.0.0.1" (lit "you idiot") 0
                                     true (Some warningReason))].
Proof. vm_compute. split; reflexivity. Qed.

Lemma long_content_rejected : ~ long_content_clamped_and_relayed.
Proof.
  intros H.
  destruct (H 5%Z uuid "A"%string
              (mkUser "A" true "10.0.0.1" (Some "B"%string)
                      (Some "room"%string))
              "B"%string
              (mkUser "B" true "10.0.0.2" (Some "A"%string)
                      (Some "room"%string))
              (lit "x" ++ repeat 32 2000) paired)
    as (to_ & m & Hin).
  - reflexivity.
  - reflexivity.
  - reflexivity.
  - reflexivity.
  - vm_compute. reflexivity.
  - vm_compute. reflexivity.
  - vm_compute. reflexivity.
  - vm_compute. discriminate.
  - vm_compute in Hin. intuition discriminate.
Qed.

(** C3, amended. For a [send_message] the steps run in this order: paired
    gate; rate-limit check; rate-limiter increment; schema validation
    (length within 1..2000) of the content as received; sanitization; spam
    check; profanity check; relay; room counter, daily counter and log row.
    The effects of the handler are, in order, exactly those listed below
    for each outcome: the increment is recorded right after an allowed
    check, also when the message is then refused, and a content that is
    absent, empty or longer than 2000 code units is answered with ERROR
    "Invalid message". *)
Theorem message_pipeline_order (now : Z) (uuid : nat -> string)
        (userId : string) (user : ConnectedUser) (data : Payload)
        (sv : Server) :
  connectedUsers sv !! userId = Some user -> socketOpen user = true ->
  let effs := (onMessage now uuid userId (Frame SEND_MESSAGE data) sv).2 in
  (partnerId user = None ->
   effs = [Send userId (ERROR "Not connected to a partner")])
  /\ (forall (p r : string) (partner : ConnectedUser),
      partnerId user = Some p -> p ≠ EmptyString ->
      roomId user = Some r -> r ≠ EmptyString ->
      connectedUsers sv !! p = Some partner -> socketOpen partner = true ->
      let row c fl why :=
        mkChatMessageRow r (ip user) c (now / 1000) fl why in
      let msg c :=
        mkChatMessage (uuid 0%nat) c userId now None None None None in
      if negb (Storage.checkRateLimit now (ip user) (actionType message)
                                      (limit message) (windowSeconds message)
                                      (storage sv))
      then effs = [RateCheck (ip user) message false;
                   Send userId
                     (RATE_LIMITED
                        "Slow down! You are sending messages too fast.")]
      else exists rest,
          effs = RateCheck (ip user) message true
                 :: RateIncrement (ip user) message :: rest
          /\ match dContent data with
             | None => rest = [Send userId (ERROR "Invalid message")]
             | Some raw =>
                 if ((length raw =? 0) || (2000 <? length raw))%nat
                 then rest = [Send userId (ERROR "Invalid message")]
                 else
                   let c := sanitizeMessage raw in
                   if isSpam c
                   then rest = [Send userId
                                  (MESSAGE_FLAGGED
                                     "Your message appears to be spam and was not sent.");
                                LogMessage (row c true (Some "spam"%string))]
                   else
                     let res := checkProfanity c (filter sv) in
                     match severity res.1 with
                     | blocked =>
                         rest = [Send userId
                                   (MESSAGE_FLAGGED
                                      "Your message contains prohibited content and was not sent.");
                                 LogMessage
                                   (row c true (Some "profanity"%string))]
                     | warningSev =>
                         let c' := (filterContent c res.2).1 in
                         rest = [Send p (MESSAGE_RECEIVED (msg c'));
                                 IncrementMessageCount r;
                                 IncrementTodayMessages;
                                 LogMessage (row c' true (Some warningReason))]
                     | clean =>
                         rest = [Send p (MESSAGE_RECEIVED (msg c));
                                 IncrementMessageCount r;
                                 IncrementTodayMessages;
                                 LogMessage (row c false None)]
                     end
             end).
Proof.
  intros Hu Hopen effs. unfold effs. clear effs.
  rewrite (onMessage_send_message now uuid userId user data sv Hu).
  split.
  { intros Hp. unfold onSendMessage. rewrite Hp. cbn [truthy negb snd].
    unfold sendToUser. rewrite Hu, Hopen. reflexivity. }
  intros p r partner Hp Hpne Hr Hrne Hpu Hpopen.
  assert (Tp : truthy (Some p) = true).
  { cbn. destruct (String.eqb_spec p EmptyString); [contradiction | reflexivity]. }
  assert (Tr : truthy (Some r) = true).
  { cbn. destruct (String.eqb_spec r EmptyString); [contradiction | reflexivity]. }
  unfold onSendMessage. rewrite Hp, Tp. cbn [negb].
  destruct (Storage.checkRateLimit _ _ _ _ _ _); cbn [negb].
  2:{ cbn [snd]. unfold sendToUser. rewrite Hu, Hopen. reflexivity. }
  set (sv1 := setStorage _ sv).
  assert (S1 : forall k f, sendToUser sv1 k f = sendToUser sv k f)
    by (intros; apply sendToUser_users; reflexivity).
  assert (F1 : filter sv1 = filter sv) by reflexivity.
  destruct (moderateAndRelay now uuid userId user data sv1) as [sv' out] eqn:M.
  cbn [snd]. exists out. split; [reflexivity|].
  assert (out = (moderateAndRelay now uuid userId user data sv1).2) as ->
    by (rewrite M; reflexivity).
  clear M sv'. unfold moderateAndRelay, messageSchema_parse.
  destruct (dContent data) as [raw|]; cbn [snd].
  2:{ rewrite S1. unfold sendToUser. rewrite Hu, Hopen. reflexivity. }
  assert (E : ((1 <=? length raw) && (length raw <=? 2000))%nat
              = negb ((length raw =? 0) || (2000 <? length raw))%nat).
  { destruct (Nat.leb_spec 1 (length raw)), (Nat.leb_spec (length raw) 2000),
      (Nat.eqb_spec (length raw) 0), (Nat.ltb_spec 2000 (length raw));
      cbn; (reflexivity || lia). }
  rewrite E. destruct ((length raw =? 0) || (2000 <? length raw))%nat;
    cbn [negb snd].
  { rewrite S1. unfold sendToUser. rewrite Hu, Hopen. reflexivity. }
  destruct (isSpam (sanitizeMessage raw)).
  { unfold logFlagged. rewrite Hr, Tr, S1. unfold sendToUser.
    rewrite Hu, Hopen. reflexivity. }
  rewrite F1.
  pose proof (ModeratorFacts.checkProfanity_result
                (sanitizeMessage raw) (filter sv)) as R.
  destruct (checkProfanity (sanitizeMessage raw) (filter sv)) as [res tb1].
  cbn [fst snd] in *.
  destruct (severity res) eqn:S.
  - destruct R as [(?&_)|[(?&_)|(_&Hf&Hre)]]; try congruence.
    unfold countAndLog. rewrite Hr, Tr, Hp, Hf, Hre. cbn [snd].
    unfold sendToUser; cbn [connectedUsers setFilter].
    subst sv1; cbn [connectedUsers setStorage].
    rewrite Hpu, Hpopen. reflexivity.
  - destruct R as [(?&_)|[(_&Hf&Hre)|(?&_)]]; try congruence.
    destruct (filterContent (sanitizeMessage raw) tb1) as [c' tb2].
    unfold countAndLog. rewrite Hr, Tr, Hp, Hf, Hre. cbn [fst snd].
    unfold sendToUser; cbn [connectedUsers setFilter].
    subst sv1; cbn [connectedUsers setStorage].
    rewrite Hpu, Hpopen. reflexivity.
  - unfold logFlagged. rewrite Hr, Tr. cbn [snd].
    unfold sendToUser; cbn [connectedUsers setFilter].
    subst sv1; cbn [connectedUsers setStorage].
    rewrite Hu, Hopen. reflexivity.
Qed.

(** A content of blanks passes the validation of the content as received
    and is relayed as the empty string. *)
Example blank_message_relayed_empty :
  (onMessage 5 uuid "A" (say "   ") paired).2
  = [RateCheck "10.0.0.1" message true;
     RateIncrement "10.0.0.1" message;
     Send "B" (MESSAGE_RECEIVED
                 (mkChatMessage "room" [] "A" 5 None None None None));
     IncrementMessageCount "room";
     IncrementTodayMessages;
     LogMessage (mkChatMessageRow "room" "10.0.0.1" [] 0 false None)].
Proof. vm_compute. reflexivity. Qed.

Lemma message_pipeline_order_hello :
  exists rest,
    (onMessage 5 uuid "A" (say "hello") paired).2
    = RateCheck "10.0.0.1" message true
      :: RateIncrement "10.0.0.1" message :: rest
    /\ rest = [Send "B" (MESSAGE_RECEIVED
                           (mkChatMessage "room" (lit "hello") "A" 5
                                          None None None None));
               IncrementMessageCount "room";
               IncrementTodayMessages;
               LogMessage (mkChatMessageRow "room" "10.0.0.1" (lit "hello") 0
                                            false None)].
Proof.
  destruct (message_pipeline_order 5 uuid "A"
              (mkUser "A" true "10.0.0.1" (Some "B"%string)
                      (Some "room"%string))
              (contentData (lit "hello")) paired eq_refl eq_refl)
    as [_ Hpaired].
  pose proof (Hpaired "B"%string "room"%string
                (mkUser "B" true "10.0.0.2" (Some "A"%string)
                        (Some "room"%string))
                eq_refl ltac:(discriminate) eq_refl ltac:(discriminate)
                eq_refl eq_refl) as H.
  vm_compute in H. vm_compute. exact H.
Defined.

End MessageFacts.

(** ** The rate limiter *)

Module RateLimitFacts.
Import Schema Storage Props.

Lemma toSeconds_mono (x y : Z) : (x <= y)%Z -> (toSeconds x <= toSeconds y)%Z.
Proof. intros H. unfold toSeconds. apply Z.div_le_mono; lia. Qed.

Lemma inWindow_self (ip a : string) (n ws start : Z) :
  (ws <= start)%Z ->
  inWindow ip a ws (mkRateLimitRow ip a n start) = true.
Proof.
  intros H. unfold inWindow. cbn. rewrite !String.eqb_refl. cbn.
  apply Z.leb_le. exact H.
Qed.

Lemma inWindow_stale (ip a : string) (t0 ws : Z) (rows : list RateLimitRow)
      (r : RateLimitRow) :
  noneInWindow ip a t0 rows -> In r rows ->
  (toSeconds (t0 - 60 * 1000) <= ws)%Z ->
  inWindow ip a ws r = false.
Proof.
  intros Hs Hin Hws. unfold inWindow.
  destruct (String.eqb_spec (rlIp r) ip) as [Hi|]; [|reflexivity].
  destruct (String.eqb_spec (rlActionType r) a) as [Ha|]; [|reflexivity].
  cbn. apply Z.leb_gt. specialize (Hs r Hin Hi Ha). lia.
Qed.

Lemma existsb_stale (ip a : string) (t0 ws : Z) (rows : list RateLimitRow) :
  noneInWindow ip a t0 rows ->
  (toSeconds (t0 - 60 * 1000) <= ws)%Z ->
  existsb (inWindow ip a ws) rows = false.
Proof.
  intros Hs Hws. apply not_true_is_false. intros E.
  apply existsb_exists in E. destruct E as (r & Hin & Hr).
  rewrite (inWindow_stale ip a t0 ws rows r Hs Hin Hws) in Hr. discriminate.
Qed.

Lemma find_stale (ip a : string) (t0 ws : Z) (rows tl : list RateLimitRow) :
  noneInWindow ip a t0 rows ->
  (toSeconds (t0 - 60 * 1000) <= ws)%Z ->
  List.find (inWindow ip a ws) (rows ++ tl) = List.find (inWindow ip a ws) tl.
Proof.
  intros Hs Hws. induction rows as [|r rows IH]; [reflexivity|].
  cbn. rewrite (inWindow_stale ip a t0 ws (r :: rows) r Hs (or_introl eq_refl) Hws).
  apply IH. intros x Hx. apply Hs. right. exact Hx.
Qed.

Lemma map_bump_stale (ip a : string) (t0 ws : Z) (rows : list RateLimitRow) :
  noneInWindow ip a t0 rows ->
  (toSeconds (t0 - 60 * 1000) <= ws)%Z ->
  List.map (bumpRate ip a ws) rows = rows.
Proof.
  intros Hs Hws. induction rows as [|r rows IH]; [reflexivity|].
  cbn. unfold bumpRate at 1.
  rewrite (inWindow_stale ip a t0 ws (r :: rows) r Hs (or_introl eq_refl) Hws).
  f_equal. apply IH. intros x Hx. apply Hs. right. exact Hx.
Qed.

(** The first increment of a window creates its row. *)
Lemma increment_first (ip a : string) (t0 : Z) (rows : list RateLimitRow) :
  noneInWindow ip a t0 rows ->
  incrementRows t0 ip a rows
  = rows ++ [mkRateLimitRow ip a 1 (toSeconds t0)].
Proof.
  intros Hs. unfold incrementRows.
  rewrite (existsb_stale ip a t0 _ rows Hs); [reflexivity | lia].
Qed.

(** A later increment within the minute counts on that row. *)
Lemma increment_next (ip a : string) (t0 t : Z) (n : Z)
      (rows : list RateLimitRow) :
  noneInWindow ip a t0 rows ->
  (t0 <= t)%Z -> (t - t0 <= 60 * 1000)%Z ->
  incrementRows t ip a (rows ++ [mkRateLimitRow ip a n (toSeconds t0)])
  = rows ++ [mkRateLimitRow ip a (n + 1) (toSeconds t0)].
Proof.
  intros Hs H0 H1. unfold incrementRows.
  assert (W : (toSeconds (t0 - 60 * 1000) <= toSeconds (t - 60 * 1000))%Z)
    by (apply toSeconds_mono; lia).
  assert (I : inWindow ip a (toSeconds (t - 60 * 1000))
                       (mkRateLimitRow ip a n (toSeconds t0)) = true)
    by (apply inWindow_self, toSeconds_mono; lia).
  rewrite existsb_app. cbn [existsb]. rewrite I. cbn [orb].
  rewrite orb_true_r.
  rewrite map_app, (map_bump_stale ip a t0 _ rows Hs W). cbn [List.map].
  unfold bumpRate. rewrite I. reflexivity.
Qed.

Lemma incrementAll_next (ip a : string) (t0 t : Z) (times : list Z) (n : Z)
      (rows : list RateLimitRow) :
  noneInWindow ip a t0 rows ->
  Forall (fun ti => t0 <= ti <= t)%Z times -> (t - t0 <= 60 * 1000)%Z ->
  incrementAll ip a times (rows ++ [mkRateLimitRow ip a n (toSeconds t0)])
  = rows ++ [mkRateLimitRow ip a (n + Z.of_nat (length times)) (toSeconds t0)].
Proof.
  intros Hs Ht Hw. revert n.
  induction Ht as [|ti times [Hlo Hhi] _ IH]; intros n.
  - cbn. rewrite Z.add_0_r. reflexivity.
  - cbn [incrementAll fold_left length].
    rewrite (increment_next ip a t0 ti n rows Hs Hlo); [|lia].
    fold (incrementAll ip a times
            (rows ++ [mkRateLimitRow ip a (n + 1) (toSeconds t0)])).
    rewrite IH. do 3 f_equal. lia.
Qed.

(** After [n >= 1] increments of one window, the table holds the rows it
    had and one row counting [n]. *)
Lemma incrementAll_window (ip a : string) (t0 t : Z) (later : list Z)
      (rows : list RateLimitRow) :
  noneInWindow ip a t0 rows ->
  Forall (fun ti => t0 <= ti <= t)%Z later -> (t - t0 <= 60 * 1000)%Z ->
  incrementAll ip a (t0 :: later) rows
  = rows ++ [mkRateLimitRow ip a (Z.of_nat (length (t0 :: later)))
                            (toSeconds t0)].
Proof.
  intros Hs Ht Hw. cbn [incrementAll fold_left].
  rewrite (increment_first ip a t0 rows Hs).
  fold (incrementAll ip a later (rows ++ [mkRateLimitRow ip a 1 (toSeconds t0)])).
  rewrite (incrementAll_next ip a t0 t later 1 rows Hs Ht Hw).
  do 3 f_equal. cbn [length]. lia.
Qed.

(** The check after [n] increments of one window, for a limit of at least
    1 and a window of at most a minute. *)
Lemma check_after_increments (ip a : string) (L W : Z) (times : list Z)
      (t : Z) (st : Storage.t) :
  (1 <= L)%Z -> (W <= 60)%Z ->
  noneInWindow ip a (hd t times) (rateLimits (db st)) ->
  Forall (fun ti => hd t times <= ti <= t)%Z times ->
  (t - hd t times <= W * 1000)%Z ->
  checkRateLimit t ip a L W
    (fold_left (fun s ti => incrementRateLimit ti ip a s) times st) = false
  <-> (L < Z.of_nat (length times) + 1)%Z.
Proof.
  intros HL HW Hs Ht Hw.
  assert (R : rateLimits
                (db (fold_left (fun s ti => incrementRateLimit ti ip a s)
                               times st))
              = incrementAll ip a times (rateLimits (db st))).
  { clear. revert st. induction times as [|ti times IH]; intros st;
      [reflexivity|].
    cbn [fold_left incrementAll]. rewrite IH. reflexivity. }
  unfold checkRateLimit. rewrite R. clear R.
  destruct times as [|t0 later]; cbn [hd] in *.
  - cbn [incrementAll fold_left length].
    replace (rateLimits (db st)) with (rateLimits (db st) ++ [])
      by apply app_nil_r.
    rewrite (find_stale ip a t _ (rateLimits (db st)) [] Hs)
      by (apply toSeconds_mono; lia).
    cbn. split; [discriminate | lia].
  - inversion Ht as [|? ? [_ Hhi] Hl]; subst.
    rewrite (incrementAll_window ip a t0 t later (rateLimits (db st)) Hs Hl)
      by lia.
    rewrite (find_stale ip a t0 _ (rateLimits (db st)) _ Hs)
      by (apply toSeconds_mono; lia).
    cbn [List.find].
    rewrite inWindow_self by (apply toSeconds_mono; lia).
    cbn [rlCount]. rewrite Z.ltb_ge. cbn [length]. lia.
Qed.

(** C9. For a source and a configured action, starting from a table with
    no row of theirs in the window, after [n] increments made within the
    window, the next check is refused exactly when [n + 1] exceeds the
    limit of the action. *)
Theorem rate_limit_monotonicity (a : Routes.Action) (ip : string)
        (times : list Z) (t : Z) (st : Storage.t) :
  (forall r, In r (rateLimits (db st)) ->
             rlIp r = ip -> rlActionType r = Routes.actionType a ->
             (rlWindowStart r
              < toSeconds (hd t times - Routes.windowSeconds a * 1000))%Z) ->
  Forall (fun ti => hd t times <= ti <= t)%Z times ->
  (t - hd t times <= Routes.windowSeconds a * 1000)%Z ->
  checkRateLimit t ip (Routes.actionType a) (Routes.limit a)
                 (Routes.windowSeconds a)
                 (fold_left
                    (fun s ti => incrementRateLimit ti ip (Routes.actionType a) s)
                    times st) = false
  <-> (Routes.limit a < Z.of_nat (length times) + 1)%Z.
Proof.
  intros Hs Ht Hw.
  apply check_after_increments; try assumption.
  - destruct a; cbn; lia.
  - destruct a; cbn; lia.
  - intros r Hin Hi Ha. specialize (Hs r Hin Hi Ha).
    destruct a; cbn in Hs; exact Hs.
Qed.

(** Five connections of one source within a minute: the sixth is refused. *)
Lemma sixth_connection_refused :
  checkRateLimit 5000 "10.0.0.1" "connection" 5 60
    (fold_left (fun s ti => incrementRateLimit ti "10.0.0.1" "connection" s)
               [1000; 2000; 3000; 4000; 4500]%Z
               (Storage.create 0 emptyDb)) = false.
Proof.
  apply (rate_limit_monotonicity Routes.connection "10.0.0.1"
           [1000; 2000; 3000; 4000; 4500]%Z 5000
           (Storage.create 0 emptyDb)).
  - intros r [].
  - repeat constructor; cbn; lia.
  - cbn. lia.
  - cbn. lia.
Defined.

End RateLimitFacts.

(** ** The pairing links *)

Module PairingFacts.
Import Schema Storage Routes Run.

(** *** The queue as a list *)

Lemma in_mapDelete {V : Type} (k j : string) (v : V)
      (l : list (string * V)) :
  In (j, v) (mapDelete k l) -> In (j, v) l /\ j ≠ k.
Proof.
  induction l as [|[k' v'] l IH]; cbn; [intros []|].
  destruct (String.eqb_spec k' k) as [->|Hne].
  - intros H. destruct (IH H). auto.
  - intros [E|H]; [injection E as -> ->; auto|].
    destruct (IH H). auto.
Qed.

Lemma length_mapDelete {V : Type} (k : string) (l : list (string * V)) :
  (length (mapDelete k l) <= length l)%nat.
Proof.
  induction l as [|[k' v'] l IH]; cbn; [lia|].
  destruct (String.eqb k' k); cbn; lia.
Qed.

(** *** Handlers that leave the registry and the queue alone *)

Lemma waiting_logMessage now r i c f w st :
  waitingUsers (logMessage now r i c f w st) = waitingUsers st.
Proof. reflexivity. Qed.

Lemma waiting_incrementTodayMessages now st :
  waitingUsers (incrementTodayMessages now st) = waitingUsers st.
Proof.
  unfold incrementTodayMessages, checkDailyReset.
  destruct (_ =? _)%Z; reflexivity.
Qed.

Lemma frame_logFlagged now user c why sv :
  connectedUsers (logFlagged now user c why sv).1 = connectedUsers sv
  /\ waitingUsers (storage (logFlagged now user c why sv).1)
     = waitingUsers (storage sv).
Proof.
  unfold logFlagged. destruct (roomId user); [|auto].
  destruct (truthy _); auto.
Qed.

Lemma frame_countAndLog now user c res sv :
  connectedUsers (countAndLog now user c res sv).1 = connectedUsers sv
  /\ waitingUsers (storage (countAndLog now user c res sv).1)
     = waitingUsers (storage sv).
Proof.
  unfold countAndLog. destruct (roomId user); [|auto].
  destruct (truthy _); [|auto]. cbn [fst connectedUsers setStorage storage].
  split; [reflexivity|].
  rewrite waiting_logMessage, waiting_incrementTodayMessages. reflexivity.
Qed.

Lemma frame_moderateAndRelay now uuid userId user data sv :
  connectedUsers (moderateAndRelay now uuid userId user data sv).1
  = connectedUsers sv
  /\ waitingUsers (storage (moderateAndRelay now uuid userId user data sv).1)
     = waitingUsers (storage sv).
Proof.
  unfold moderateAndRelay.
  destruct (messageSchema_parse data) as [content|]; [|auto].
  destruct (ProfanityFilter.isSpam _).
  { pose proof (frame_logFlagged now user (sanitizeMessage content) "spam" sv).
    destruct (logFlagged _ _ _ _ _); assumption. }
  destruct (ProfanityFilter.checkProfanity _ _) as [res tb1].
  destruct (ProfanityFilter.severity res).
  - pose proof (frame_countAndLog now user (sanitizeMessage content) res
                                  (setFilter tb1 (setFilter tb1 sv))).
    destruct (countAndLog _ _ _ _ _); assumption.
  - destruct (ProfanityFilter.filterContent _ _) as [c' tb2].
    pose proof (frame_countAndLog now user c' res
                                  (setFilter tb2 (setFilter tb1 sv))).
    destruct (countAndLog _ _ _ _ _); assumption.
  - pose proof (frame_logFlagged now user (sanitizeMessage content)
                                 "profanity" (setFilter tb1 sv)).
    destruct (logFlagged _ _ _ _ _); assumption.
Qed.

Lemma frame_onSendMessage now uuid userId user data sv :
  connectedUsers (onSendMessage now uuid userId user data sv).1
  = connectedUsers sv
  /\ waitingUsers (storage (onSendMessage now uuid userId user data sv).1)
     = waitingUsers (storage sv).
Proof.
  unfold onSendMessage.
  destruct (negb (truthy _)); [auto|].
  destruct (negb (checkRateLimit _ _ _ _ _ _)); [auto|].
  set (sv1 := setStorage _ sv).
  pose proof (frame_moderateAndRelay now uuid userId user data sv1).
  destruct (moderateAndRelay _ _ _ _ _ _); assumption.
Qed.

(** *** The invariant under the changes the handlers make *)

Lemma inv_key (cu : gmap string ConnectedUser)
      (wu : list (string * WaitingUser)) (I : InvOn cu wu) (k : string)
      (u : ConnectedUser) :
  cu !! k = Some u -> id u = k /\ k ≠ EmptyString /\ socketOpen u = true.
Proof. apply (link_key _ (inv_links _ _ I)). Qed.

Lemma inv_noself (cu : gmap string ConnectedUser)
      (wu : list (string * WaitingUser)) (I : InvOn cu wu) (k : string)
      (u : ConnectedUser) :
  cu !! k = Some u -> partnerId u ≠ Some k.
Proof. apply (link_noself _ (inv_links _ _ I)). Qed.

Lemma inv_linked (cu : gmap string ConnectedUser)
      (wu : list (string * WaitingUser)) (I : InvOn cu wu) (k : string)
      (u : ConnectedUser) :
  cu !! k = Some u -> linked cu k u.
Proof. apply (link_linked _ (inv_links _ _ I)). Qed.

Lemma link_fields (p r : option string) (u : ConnectedUser) :
  id (link p r u) = id u /\ socketOpen (link p r u) = socketOpen u
  /\ partnerId (link p r u) = p /\ roomId (link p r u) = r.
Proof. destruct u; cbn; auto. Qed.

Lemma linked_unlinked (cu : gmap string ConnectedUser) (k : string)
      (u : ConnectedUser) :
  linked cu k (link None None u).
Proof. split; [tauto|]. intros p H. discriminate. Qed.

(** A fresh session is registered. *)
Lemma inv_connect (cu : gmap string ConnectedUser)
      (wu : list (string * WaitingUser)) (userId ip : string) :
  InvOn cu wu -> userId ≠ EmptyString -> cu !! userId = None ->
  InvOn (<[userId := mkUser userId true ip None None]> cu) wu.
Proof.
  intros I Hne Hfresh. constructor; [constructor| |].
  - intros k u. destruct (decide (k = userId)) as [->|Hk].
    + rewrite lookup_insert_eq. intros [= <-]. auto.
    + rewrite lookup_insert_ne by done. apply (inv_key _ _ I).
  - intros k u. destruct (decide (k = userId)) as [->|Hk].
    + rewrite lookup_insert_eq. intros [= <-]. discriminate.
    + rewrite lookup_insert_ne by done. apply (inv_noself _ _ I).
  - intros k u. destruct (decide (k = userId)) as [->|Hk].
    + rewrite lookup_insert_eq. intros [= <-].
      split; [tauto|]. intros p H. discriminate.
    + rewrite lookup_insert_ne by done. intros Hu.
      destruct (inv_linked _ _ I k u Hu) as [H1 H2]. split; [exact H1|].
      intros p Hp. destruct (H2 p Hp) as (v & Hv & Hpv & Hrv).
      exists v. rewrite lookup_insert_ne by congruence. auto.
  - intros k w Hin. destruct (inv_waiting _ _ I k w Hin) as (Hw & u & Hu & Hp).
    split; [exact Hw|]. exists u.
    rewrite lookup_insert_ne by congruence. auto.
  - apply (inv_queue _ _ I).
Qed.

(** Entries leave the queue. *)
Lemma inv_dequeue (cu : gmap string ConnectedUser)
      (wu wu' : list (string * WaitingUser)) :
  InvOn cu wu -> (forall e, In e wu' -> In e wu) ->
  (length wu' <= 1)%nat -> InvOn cu wu'.
Proof.
  intros I Hsub Hlen. constructor; try apply I.
  - intros k w Hin. apply (inv_waiting _ _ I). auto.
  - exact Hlen.
Qed.

(** Both ends of a pairing are reset. *)
Lemma inv_unpair (cu : gmap string ConnectedUser)
      (wu : list (string * WaitingUser)) (k p : string) (u : ConnectedUser) :
  InvOn cu wu -> cu !! k = Some u -> partnerId u = Some p ->
  InvOn (alter (link None None) k (alter (link None None) p cu)) wu.
Proof.
  intros I Hu Hp.
  destruct (inv_linked _ _ I k u Hu) as [_ Hl].
  destruct (Hl p Hp) as (v & Hv & Hvk & _).
  assert (Hpk : p ≠ k) by (intros ->; apply (inv_noself _ _ I k u Hu Hp)).
  assert (L : forall j x,
             alter (link None None) k (alter (link None None) p cu) !! j
             = Some x ->
             (j ≠ k /\ j ≠ p /\ cu !! j = Some x)
             \/ ((j = k \/ j = p)
                 /\ exists y, cu !! j = Some y /\ x = link None None y)).
  { intros j x. destruct (decide (j = k)) as [->|Hjk].
    - rewrite lookup_alter_eq, lookup_alter_ne, Hu by done.
      intros [= <-]. right. eauto.
    - rewrite lookup_alter_ne by done.
      destruct (decide (j = p)) as [->|Hjp].
      + rewrite lookup_alter_eq, Hv. intros [= <-]. right. eauto.
      + rewrite lookup_alter_ne by done. intros H. left. auto. }
  constructor; [constructor| |].
  - intros j x Hx. destruct (L j x Hx) as [(_&_&H)|(_&y&Hy&->)].
    + apply (inv_key _ _ I j x H).
    + destruct (link_fields None None y) as (-> & -> & _).
      apply (inv_key _ _ I j y Hy).
  - intros j x Hx. destruct (L j x Hx) as [(_&_&H)|(_&y&Hy&->)].
    + apply (inv_noself _ _ I j x H).
    + destruct y; discriminate.
  - intros j x Hx. destruct (L j x Hx) as [(Hjk&Hjp&H)|(_&y&Hy&->)].
    2:{ apply linked_unlinked. }
    destruct (inv_linked _ _ I j x H) as [H1 H2]. split; [exact H1|].
    intros q Hq. destruct (H2 q Hq) as (y & Hy & Hyj & Hyr).
    exists y. repeat split; try assumption.
    rewrite !lookup_alter_ne; [exact Hy| |].
    + intros <-. rewrite Hv in Hy. congruence.
    + intros <-. rewrite Hu in Hy. congruence.
  - intros j w Hin.
    destruct (inv_waiting _ _ I j w Hin) as (Hw & x & Hx & Hxp).
    split; [exact Hw|]. exists x. split; [|exact Hxp].
    rewrite !lookup_alter_ne; [exact Hx| |].
    + intros <-. rewrite Hv in Hx. congruence.
    + intros <-. rewrite Hu in Hx. congruence.
  - apply (inv_queue _ _ I).
Qed.

(** A session without partner leaves the registry and the queue. *)
Lemma inv_delete (cu : gmap string ConnectedUser)
      (wu : list (string * WaitingUser)) (k : string) (u : ConnectedUser) :
  InvOn cu wu -> cu !! k = Some u -> partnerId u = None ->
  InvOn (delete k cu) (mapDelete k wu).
Proof.
  intros I Hu Hp.
  assert (L : forall j x, delete k cu !! j = Some x -> j ≠ k /\ cu !! j = Some x).
  { intros j x H. apply lookup_delete_Some in H. destruct H. auto. }
  constructor; [constructor| |].
  - intros j x Hx. destruct (L j x Hx) as [_ H]. apply (inv_key _ _ I j x H).
  - intros j x Hx. destruct (L j x Hx) as [_ H]. apply (inv_noself _ _ I j x H).
  - intros j x Hx. destruct (L j x Hx) as [Hjk H].
    destruct (inv_linked _ _ I j x H) as [H1 H2]. split; [exact H1|].
    intros q Hq. destruct (H2 q Hq) as (y & Hy & Hyj & Hyr).
    exists y. repeat split; try assumption.
    rewrite lookup_delete_ne; [exact Hy|].
    intros <-. rewrite Hu in Hy. congruence.
  - intros j w Hin. apply in_mapDelete in Hin. destruct Hin as [Hin Hjk].
    destruct (inv_waiting _ _ I j w Hin) as (Hw & x & Hx & Hxp).
    split; [exact Hw|]. exists x. split; [|exact Hxp].
    rewrite lookup_delete_ne by done. exact Hx.
  - pose proof (length_mapDelete k wu). pose proof (inv_queue _ _ I). lia.
Qed.

(** Two distinct sessions without partner are paired; the queue is
    empty afterwards. *)
Lemma inv_pair (cu : gmap string ConnectedUser)
      (wu : list (string * WaitingUser)) (ka kb r : string)
      (ua ub : ConnectedUser) :
  InvOn cu wu -> ka ≠ kb ->
  cu !! ka = Some ua -> cu !! kb = Some ub ->
  partnerId ua = None -> partnerId ub = None ->
  InvOn (alter (link (Some (id ua)) (Some r)) kb
               (alter (link (Some (id ub)) (Some r)) ka cu)) [].
Proof.
  intros I Hab Ha Hb Hpa Hpb.
  destruct (inv_key _ _ I ka ua Ha) as (Hida & _ & _).
  destruct (inv_key _ _ I kb ub Hb) as (Hidb & _ & _).
  rewrite Hida, Hidb.
  set (cu' := alter _ kb _).
  assert (La : cu' !! ka = Some (link (Some kb) (Some r) ua)).
  { unfold cu'. rewrite lookup_alter_ne, lookup_alter_eq, Ha by done.
    reflexivity. }
  assert (Lb : cu' !! kb = Some (link (Some ka) (Some r) ub)).
  { unfold cu'. rewrite lookup_alter_eq, lookup_alter_ne, Hb by done.
    reflexivity. }
  assert (Lo : forall j, j ≠ ka -> j ≠ kb -> cu' !! j = cu !! j).
  { intros j H1 H2. unfold cu'. rewrite !lookup_alter_ne by done.
    reflexivity. }
  assert (L : forall j x, cu' !! j = Some x ->
             (j = ka /\ x = link (Some kb) (Some r) ua)
             \/ (j = kb /\ x = link (Some ka) (Some r) ub)
             \/ (j ≠ ka /\ j ≠ kb /\ cu !! j = Some x)).
  { intros j x Hx. destruct (decide (j = ka)) as [->|H1].
    - rewrite La in Hx. left. split; congruence.
    - destruct (decide (j = kb)) as [->|H2].
      + rewrite Lb in Hx. right. left. split; congruence.
      + rewrite Lo in Hx by done. auto. }
  constructor; [constructor| |].
  - intros j x Hx. destruct (L j x Hx) as [[-> ->]|[[-> ->]|(_&_&H)]].
    + destruct (link_fields (Some kb) (Some r) ua) as (-> & -> & _).
      apply (inv_key _ _ I ka ua Ha).
    + destruct (link_fields (Some ka) (Some r) ub) as (-> & -> & _).
      apply (inv_key _ _ I kb ub Hb).
    + apply (inv_key _ _ I j x H).
  - intros j x Hx. destruct (L j x Hx) as [[-> ->]|[[-> ->]|(_&_&H)]].
    + destruct ua; cbn. congruence.
    + destruct ub; cbn. congruence.
    + apply (inv_noself _ _ I j x H).
  - intros j x Hx. destruct (L j x Hx) as [[-> ->]|[[-> ->]|(H1&H2&H)]].
    + split; [destruct ua; cbn; split; discriminate|].
      intros q Hq. exists (link (Some ka) (Some r) ub).
      destruct ua, ub; cbn in *. injection Hq as <-. auto.
    + split; [destruct ub; cbn; split; discriminate|].
      intros q Hq. exists (link (Some kb) (Some r) ua).
      destruct ua, ub; cbn in *. injection Hq as <-. auto.
    + destruct (inv_linked _ _ I j x H) as [G1 G2]. split; [exact G1|].
      intros q Hq. destruct (G2 q Hq) as (y & Hy & Hyj & Hyr).
      exists y. repeat split; try assumption.
      rewrite Lo; [exact Hy| |].
      * intros ->. rewrite Ha in Hy. congruence.
      * intros ->. rewrite Hb in Hy. congruence.
  - intros j w [].
  - cbn. lia.
Qed.

(** A session without partner is queued, alone. *)
Lemma inv_enqueue (cu : gmap string ConnectedUser)
      (wu : list (string * WaitingUser)) (k : string) (u : ConnectedUser)
      (w : WaitingUser) :
  InvOn cu wu -> cu !! k = Some u -> partnerId u = None -> wId w = k ->
  InvOn cu [(k, w)].
Proof.
  intros I Hu Hp Hw. constructor; try apply I.
  - intros j x [[= <- <-]|[]]. eauto.
  - cbn. lia.
Qed.

(** *** [matchUsers] on a queue of any length *)

Lemma links_pair (cu : gmap string ConnectedUser) (ka kb r : string)
      (ua ub : ConnectedUser) :
  LinkInv cu -> ka ≠ kb ->
  cu !! ka = Some ua -> cu !! kb = Some ub ->
  partnerId ua = None -> partnerId ub = None ->
  LinkInv (alter (link (Some (id ua)) (Some r)) kb
                 (alter (link (Some (id ub)) (Some r)) ka cu)).
Proof.
  intros L Hab Ha Hb Hpa Hpb.
  assert (I : InvOn cu []).
  { constructor; [exact L | intros k w [] | cbn; lia]. }
  apply (inv_links _ _ (inv_pair cu [] ka kb r ua ub I Hab Ha Hb Hpa Hpb)).
Qed.

(** Induction on a list taken two elements at a time, as the loop of
    [matchUsers] takes it. *)
Lemma pairs_ind {A : Type} (P : list A -> Prop) :
  P [] -> (forall a, P [a]) -> (forall a b l, P l -> P (a :: b :: l)) ->
  forall l, P l.
Proof.
  intros H0 H1 H2 l.
  enough (P l /\ forall a, P (a :: l)) by tauto.
  induction l as [|x l [IH1 IH2]]; split; auto.
Qed.

Lemma matchLoop_keeps_links (now : Z) (uuid : nat -> string)
      (ws : list WaitingUser) :
  forall (n : nat) (sv : Server),
    LinkInv (connectedUsers sv) ->
    NoDup (List.map wId ws) ->
    (forall w u, In w ws -> connectedUsers sv !! wId w = Some u ->
                 partnerId u = None) ->
    LinkInv (connectedUsers (matchLoop now uuid n ws sv).1).
Proof.
  induction ws as [|a|a b rest IH] using pairs_ind; intros n sv L ND Hun;
    [exact L | exact L |].
  cbn [List.map] in ND.
  apply NoDup_cons in ND as [Hna ND1]. apply NoDup_cons in ND1 as [Hnb NDr].
  assert (Hab : wId a ≠ wId b).
  { intros E. apply Hna. rewrite E. constructor. }
  assert (Hrest : forall w, In w rest -> wId w ≠ wId a /\ wId w ≠ wId b).
  { intros w Hw. split; intros E.
    - apply Hna. apply list_elem_of_In. right. rewrite <- E.
      apply in_map. exact Hw.
    - apply Hnb. apply list_elem_of_In. rewrite <- E.
      apply in_map. exact Hw. }
  cbn [matchLoop].
  destruct (connectedUsers sv !! wId a) as [ua|] eqn:Ha;
    destruct (connectedUsers sv !! wId b) as [ub|] eqn:Hb.
  - match goal with
    | |- context [matchLoop now uuid (S n) rest ?s] => set (sv' := s)
    end.
    pose proof (IH (S n) sv') as IH'.
    destruct (matchLoop now uuid (S n) rest sv') as [sv2 out]. cbn [fst] in *.
    apply IH'; [|exact NDr|].
    + apply links_pair; try assumption.
      * apply (Hun a ua); [left; reflexivity | exact Ha].
      * apply (Hun b ub); [right; left; reflexivity | exact Hb].
    + intros w u Hw. destruct (Hrest w Hw) as [H1 H2].
      unfold sv'. cbn [connectedUsers].
      rewrite !lookup_alter_ne by congruence.
      apply Hun. right. right. exact Hw.
  - apply IH; [exact L | exact NDr |].
    intros w u Hw. apply Hun. right. right. exact Hw.
  - apply IH; [exact L | exact NDr |].
    intros w u Hw. apply Hun. right. right. exact Hw.
  - apply IH; [exact L | exact NDr |].
    intros w u Hw. apply Hun. right. right. exact Hw.
Qed.



(** *** Re-adding a queued session *)

Lemma mapSet_get {V : Type} (k : string) (v : V) (l : list (string * V)) :
  mapGet k (mapSet k v l) = Some v.
Proof.
  induction l as [|[k' v'] l IH]; cbn.
  - rewrite String.eqb_refl. reflexivity.
  - destruct (String.eqb k' k) eqn:E; cbn.
    + rewrite String.eqb_refl. reflexivity.
    + rewrite E. exact IH.
Qed.

(** [Map.set] on a key that is present keeps the keys and their order:
    the queue holds as many entries as before. *)
Lemma mapSet_keys {V : Type} (k : string) (v w : V) (l : list (string * V)) :
  mapGet k l = Some w ->
  List.map fst (mapSet k v l) = List.map fst l.
Proof.
  induction l as [|[k' v'] l IH]; cbn; [discriminate|].
  destruct (String.eqb_spec k' k) as [->|Hne]; cbn; [reflexivity|].
  intros H. rewrite (IH H). reflexivity.
Qed.

Lemma insertSorted_perm (x : WaitingUser) (l : list WaitingUser) :
  Permutation (insertSorted x l) (x :: l).
Proof.
  induction l as [|y l IH]; cbn; [reflexivity|].
  destruct (joinedAt y <? joinedAt x)%Z; [|reflexivity].
  rewrite IH. apply perm_swap.
Qed.

Lemma sortByJoinedAt_perm (l : list WaitingUser) :
  Permutation (sortByJoinedAt l) l.
Proof.
  induction l as [|x l IH]; cbn; [reflexivity|].
  rewrite insertSorted_perm, IH. reflexivity.
Qed.

(** Whatever the length of the queue, a pass of [matchUsers] keeps the
    links of the registry. *)
Lemma matchUsers_keeps_links (now : Z) (uuid : nat -> string) (sv : Server) :
  LinkInv (connectedUsers sv) ->
  queueOfUnpaired (connectedUsers sv) (waitingUsers (storage sv)) ->
  LinkInv (connectedUsers (matchUsers now uuid sv).1).
Proof.
  intros L [ND Hq]. unfold matchUsers, getWaitingUsers.
  assert (Hids : List.map wId (mapValues (waitingUsers (storage sv)))
                 = List.map fst (waitingUsers (storage sv))).
  { unfold mapValues. rewrite List.map_map. apply List.map_ext_in.
    intros [k w] Hin. cbn. apply (Hq k w Hin). }
  apply matchLoop_keeps_links; [exact L | |].
  - rewrite sortByJoinedAt_perm, Hids. exact ND.
  - intros w u Hw Hu.
    apply (Permutation_in _ (sortByJoinedAt_perm _)) in Hw.
    unfold mapValues in Hw. apply in_map_iff in Hw.
    destruct Hw as ([k w0] & E & Hin). cbn in E. subst w0.
    destruct (Hq k w Hin) as [Hk Hnone]. apply (Hnone u).
    rewrite <- Hk. exact Hu.
Qed.

(** *** The invariant under the handlers *)

Lemma inv_partner_truthy (sv : Server) (k : string) (u : ConnectedUser) :
  Inv sv -> connectedUsers sv !! k = Some u ->
  truthy (partnerId u) = false -> partnerId u = None.
Proof.
  intros I Hu Ht. destruct (partnerId u) as [p|] eqn:Hp; [|reflexivity].
  destruct (inv_linked _ _ I k u Hu) as [_ Hl].
  destruct (Hl p Hp) as (v & Hv & _).
  destruct (inv_key _ _ I p v Hv) as (_ & Hne & _).
  cbn in Ht. destruct (String.eqb_spec p EmptyString); [contradiction | discriminate].
Qed.

Lemma frame_removeRoom (now : Z) (room : option string) (sv : Server) :
  connectedUsers (removeRoom now room sv) = connectedUsers sv
  /\ waitingUsers (storage (removeRoom now room sv))
     = waitingUsers (storage sv).
Proof.
  unfold removeRoom. destruct room; [|auto]. destruct (truthy _); auto.
Qed.

(** The registry after [unlinkPartner]. *)
Lemma unlinkPartner_users (sv : Server) (k : string) (u : ConnectedUser) :
  Inv sv -> connectedUsers sv !! k = Some u ->
  connectedUsers (unlinkPartner sv u).1
  = match partnerId u with
    | Some p => alter (link None None) p (connectedUsers sv)
    | None => connectedUsers sv
    end
  /\ storage (unlinkPartner sv u).1 = storage sv.
Proof.
  intros I Hu. unfold unlinkPartner.
  destruct (partnerId u) as [p|] eqn:Hp; [|auto].
  destruct (truthy (Some p)) eqn:T; [auto|].
  rewrite <- Hp in T. rewrite (inv_partner_truthy sv k u I Hu T) in Hp.
  discriminate.
Qed.

Lemma inv_onConnection (now : Z) (userId ip : string) (sv : Server) :
  Inv sv -> userId ≠ EmptyString -> connectedUsers sv !! userId = None ->
  Inv (onConnection now userId ip sv).1.
Proof.
  intros I Hne Hfresh. unfold onConnection.
  destruct (isIpBanned ip (storage sv)); [exact I|].
  destruct (negb (checkRateLimit _ _ _ _ _ _)); [exact I|].
  apply inv_connect; assumption.
Qed.

Lemma inv_handleDisconnect (now : Z) (userId : string) (sv : Server) :
  Inv sv -> Inv (handleDisconnect now userId sv).1.
Proof.
  intros I. unfold handleDisconnect.
  destruct (connectedUsers sv !! userId) as [u|] eqn:Hu; [|exact I].
  destruct (unlinkPartner_users sv userId u I Hu) as [Hcu Hst].
  destruct (unlinkPartner sv u) as [sv1 out]. cbn [fst] in *.
  set (room := match connectedUsers sv1 !! userId with
               | Some x => roomId x
               | None => roomId u
               end).
  destruct (frame_removeRoom now room sv1) as [Rcu Rwu].
  unfold Inv. cbn [fst connectedUsers storage setUsers setStorage].
  unfold removeWaitingUser. cbn [waitingUsers setWaitingUsers].
  rewrite Rcu, Rwu, Hcu, Hst.
  destruct (partnerId u) as [p|] eqn:Hp.
  - rewrite <- (delete_alter_eq _ userId (link None None)).
    eapply inv_delete.
    + apply (inv_unpair _ _ userId p u I Hu Hp).
    + assert (p ≠ userId)
        by (intros ->; apply (inv_noself _ _ I userId u Hu Hp)).
      rewrite lookup_alter_eq, lookup_alter_ne, Hu by done. reflexivity.
    + destruct u; reflexivity.
  - apply (inv_delete _ _ userId u I Hu Hp).
Qed.

Lemma inv_onDisconnectChat (now : Z) (userId : string) (u : ConnectedUser)
      (sv : Server) :
  Inv sv -> connectedUsers sv !! userId = Some u ->
  Inv (onDisconnectChat now userId u sv).1.
Proof.
  intros I Hu. unfold onDisconnectChat.
  destruct (unlinkPartner_users sv userId u I Hu) as [Hcu Hst].
  destruct (unlinkPartner sv u) as [sv1 out]. cbn [fst] in *.
  set (room := match connectedUsers sv1 !! userId with
               | Some x => roomId x
               | None => roomId u
               end).
  destruct (frame_removeRoom now room sv1) as [Rcu Rwu].
  unfold Inv. cbn [fst connectedUsers storage setUsers].
  rewrite Rcu, Rwu, Hcu, Hst.
  destruct (partnerId u) as [p|] eqn:Hp.
  - apply (inv_unpair _ _ userId p u I Hu Hp).
  - rewrite alter_id; [exact I|].
    intros x Hx. rewrite Hu in Hx. injection Hx as <-.
    apply DispatchFacts.link_none; [exact Hp|].
    destruct (inv_linked _ _ I userId u Hu) as [[_ H] _].
    destruct (roomId u); [|reflexivity].
    exfalso. apply H; [discriminate | exact Hp].
Qed.

(** [matchLoop] on two entries of registered sessions. *)
Lemma matchLoop_two (now : Z) (uuid : nat -> string) (n : nat)
      (a b : WaitingUser) (ua ub : ConnectedUser) (sv : Server) :
  connectedUsers sv !! wId a = Some ua ->
  connectedUsers sv !! wId b = Some ub ->
  connectedUsers (matchLoop now uuid n [a; b] sv).1
  = alter (link (Some (id ua)) (Some (uuid n))) (wId b)
          (alter (link (Some (id ub)) (Some (uuid n))) (wId a)
                 (connectedUsers sv))
  /\ waitingUsers (storage (matchLoop now uuid n [a; b] sv).1)
     = mapDelete (wId b) (mapDelete (wId a) (waitingUsers (storage sv))).
Proof.
  intros Ha Hb. cbn [matchLoop]. rewrite Ha, Hb. cbn. auto.
Qed.

(** A join that leaves its session alone in the queue: the queue was empty
    or held this session only. *)
Lemma onJoinQueue_alone (now : Z) (uuid : nat -> string) (userId : string)
      (u : ConnectedUser) (sv : Server) :
  truthy (partnerId u) = false ->
  (waitingUsers (storage sv) = []
   \/ exists w, waitingUsers (storage sv) = [(userId, w)]) ->
  let w' := mkWaitingUser userId "[object Object]" (ip u) now in
  connectedUsers (onJoinQueue now uuid userId u sv).1 = connectedUsers sv
  /\ waitingUsers (storage (onJoinQueue now uuid userId u sv).1)
     = [(userId, w')]
  /\ (onJoinQueue now uuid userId u sv).2 = sendToUser sv userId QUEUE_JOINED.
Proof.
  intros T Hwu w'. unfold onJoinQueue. rewrite T. fold w'.
  unfold matchUsers, getWaitingUsers, addWaitingUser.
  cbn [storage setStorage waitingUsers setUniqueIps setWaitingUsers wId].
  assert (E : mapSet (wId w') w' (waitingUsers (storage sv)) = [(userId, w')]).
  { destruct Hwu as [->|[w ->]]; cbn; [reflexivity|].
    rewrite String.eqb_refl. reflexivity. }
  rewrite E. cbn. rewrite app_nil_r. auto.
Qed.

(** A join that meets another queued session: the two are paired and the
    queue is empty. *)
Lemma onJoinQueue_meets (now : Z) (uuid : nat -> string) (userId j : string)
      (u v : ConnectedUser) (w : WaitingUser) (sv : Server) :
  truthy (partnerId u) = false ->
  connectedUsers sv !! userId = Some u ->
  connectedUsers sv !! j = Some v ->
  j ≠ userId -> wId w = j ->
  waitingUsers (storage sv) = [(j, w)] ->
  waitingUsers (storage (onJoinQueue now uuid userId u sv).1) = []
  /\ (connectedUsers (onJoinQueue now uuid userId u sv).1
      = alter (link (Some (id v)) (Some (uuid 0%nat))) userId
              (alter (link (Some (id u)) (Some (uuid 0%nat))) j
                     (connectedUsers sv))
      \/ connectedUsers (onJoinQueue now uuid userId u sv).1
         = alter (link (Some (id u)) (Some (uuid 0%nat))) j
                 (alter (link (Some (id v)) (Some (uuid 0%nat))) userId
                        (connectedUsers sv))).
Proof.
  intros T Hu Hv Hne Hw Hwu. unfold onJoinQueue. rewrite T.
  set (w' := mkWaitingUser userId "[object Object]" (ip u) now).
  set (sv1 := setStorage (addWaitingUser w' (storage sv)) sv).
  assert (Hq : waitingUsers (storage sv1) = [(j, w); (userId, w')]).
  { unfold sv1, addWaitingUser.
    cbn [storage setStorage waitingUsers setUniqueIps setWaitingUsers wId].
    rewrite Hwu. cbn. apply String.eqb_neq in Hne. rewrite Hne. reflexivity. }
  assert (Ej : String.eqb j userId = false) by (apply String.eqb_neq; exact Hne).
  assert (Ek : String.eqb userId j = false)
    by (apply String.eqb_neq; congruence).
  unfold matchUsers, getWaitingUsers. rewrite Hq.
  cbn [mapValues List.map snd sortByJoinedAt insertSorted].
  destruct (joinedAt w' <? joinedAt w)%Z.
  - destruct (matchLoop_two now uuid 0 w' w u v sv1) as [Mcu Mwu].
    { exact Hu. } { rewrite Hw. exact Hv. }
    destruct (matchLoop now uuid 0 [w'; w] sv1) as [sv2 out].
    cbn [fst] in *. rewrite Mcu, Mwu, Hq, Hw. cbn [wId w'].
    split; [|right; reflexivity].
    cbn. rewrite Ej, String.eqb_refl. cbn. rewrite String.eqb_refl.
    reflexivity.
  - destruct (matchLoop_two now uuid 0 w w' v u sv1) as [Mcu Mwu].
    { rewrite Hw. exact Hv. } { exact Hu. }
    destruct (matchLoop now uuid 0 [w; w'] sv1) as [sv2 out].
    cbn [fst] in *. rewrite Mcu, Mwu, Hq, Hw. cbn [wId w'].
    split; [|left; reflexivity].
    cbn. rewrite String.eqb_refl, Ek. cbn. rewrite String.eqb_refl.
    reflexivity.
Qed.

Lemma inv_onJoinQueue (now : Z) (uuid : nat -> string) (userId : string)
      (u : ConnectedUser) (sv : Server) :
  Inv sv -> connectedUsers sv !! userId = Some u ->
  Inv (onJoinQueue now uuid userId u sv).1.
Proof.
  intros I Hu.
  destruct (truthy (partnerId u)) eqn:T.
  { unfold onJoinQueue. rewrite T. exact I. }
  pose proof (inv_partner_truthy sv userId u I Hu T) as Hp.
  pose proof (inv_queue _ _ I) as Hlen.
  destruct (waitingUsers (storage sv)) as [|[j w] [|e wu]] eqn:Hwu;
    [| |cbn in Hlen; lia].
  - destruct (onJoinQueue_alone now uuid userId u sv T) as (Hcu & Hq & _);
      [left; exact Hwu|].
    unfold Inv. rewrite Hcu, Hq.
    eapply (inv_enqueue _ _ userId u); [exact I | exact Hu | exact Hp | reflexivity].
  - destruct (decide (j = userId)) as [->|Hne].
    + destruct (onJoinQueue_alone now uuid userId u sv T) as (Hcu & Hq & _);
        [right; eauto|].
      unfold Inv. rewrite Hcu, Hq.
      eapply (inv_enqueue _ _ userId u); [exact I | exact Hu | exact Hp | reflexivity].
    + assert (Hin : In (j, w) (waitingUsers (storage sv)))
        by (rewrite Hwu; left; reflexivity).
      destruct (inv_waiting _ _ I j w Hin) as (Hw & v & Hv & Hvp).
      destruct (onJoinQueue_meets now uuid userId j u v w sv T Hu Hv Hne Hw Hwu)
        as (Hq & [Hcu|Hcu]); unfold Inv; rewrite Hcu, Hq.
      * apply (inv_pair _ _ j userId _ v u I Hne Hv Hu Hvp Hp).
      * apply (inv_pair _ _ userId j _ u v I (not_eq_sym Hne) Hu Hv Hp Hvp).
Qed.

Lemma inv_onMessage (now : Z) (uuid : nat -> string) (userId : string)
      (raw : Inbound) (sv : Server) :
  Inv sv -> Inv (onMessage now uuid userId raw sv).1.
Proof.
  intros I. unfold onMessage.
  destruct (connectedUsers sv !! userId) as [u|] eqn:Hu; [|exact I].
  destruct raw as [|type data]; [exact I|].
  destruct (String.eqb type JOIN_QUEUE).
  { apply inv_onJoinQueue; assumption. }
  destruct (String.eqb type LEAVE_QUEUE).
  { unfold Inv. cbn [fst connectedUsers storage setStorage].
    unfold removeWaitingUser. cbn [waitingUsers setWaitingUsers].
    apply (inv_dequeue _ _ _ I).
    - intros [j w] Hin. apply in_mapDelete in Hin. tauto.
    - pose proof (length_mapDelete userId (waitingUsers (storage sv))).
      pose proof (inv_queue _ _ I). lia. }
  destruct (String.eqb type SEND_MESSAGE).
  { destruct (frame_onSendMessage now uuid userId u data sv) as [Hcu Hwu].
    unfold Inv. rewrite Hcu, Hwu. exact I. }
  destruct (String.eqb type TYPING).
  { unfold forwardToPartner. destruct (partnerId u); [|exact I].
    destruct (truthy _); exact I. }
  destruct (String.eqb type STOP_TYPING).
  { unfold forwardToPartner. destruct (partnerId u); [|exact I].
    destruct (truthy _); exact I. }
  destruct (String.eqb type DISCONNECT_CHAT).
  { apply inv_onDisconnectChat; assumption. }
  exact I.
Qed.

(** Every event keeps the invariant. *)
Lemma step_keeps_inv (sv sv' : Server) : Inv sv -> step sv sv' -> Inv sv'.
Proof.
  intros I [now userId ip Hne Hfresh | now uuid userId raw | now userId].
  - apply inv_onConnection; assumption.
  - apply inv_onMessage; assumption.
  - apply inv_handleDisconnect; assumption.
Qed.

Lemma inv_start (now : Z) (d : Db) : Inv (start now d).
Proof.
  constructor; [constructor| |]; cbn;
    try (intros k u H; rewrite lookup_empty in H; discriminate).
  - intros k w [].
  - lia.
Qed.

Lemma reachable_inv (sv : Server) : reachable sv -> Inv sv.
Proof.
  induction 1 as [now d | sv sv' _ IH Hstep].
  - apply inv_start.
  - apply (step_keeps_inv sv sv' IH Hstep).
Qed.

(** C4. In every state the server can reach, for every registered session:
    a partner is set exactly when a room is, and the partner is a
    registered session that points back and has the same room. Every
    event keeps this: pairing by [matchUsers], [disconnect_chat], and the
    close of a socket. *)
Theorem pairing_links_hold (sv : Server) (k : string) (u : ConnectedUser) :
  reachable sv -> connectedUsers sv !! k = Some u ->
  id u = k
  /\ (partnerId u ≠ None <-> roomId u ≠ None)
  /\ (forall p, partnerId u = Some p ->
        exists v, connectedUsers sv !! p = Some v
                  /\ partnerId v = Some k /\ roomId v = roomId u).
Proof.
  intros R Hu. pose proof (reachable_inv sv R) as I.
  destruct (inv_key _ _ I k u Hu) as (Hid & _).
  destruct (inv_linked _ _ I k u Hu) as [H1 H2]. auto.
Qed.

Lemma pairing_links_of_A :
  connectedUsers Scenario.paired !! "A"%string
  = Some (mkUser "A" true "10.0.0.1" (Some "B"%string) (Some "room"%string))
  /\ exists v, connectedUsers Scenario.paired !! "B"%string = Some v
               /\ partnerId v = Some "A"%string
               /\ roomId v = Some "room"%string.
Proof.
  assert (R : reachable Scenario.paired).
  { apply (reachable_step Scenario.s3); [|apply step_message].
    apply (reachable_step Scenario.s2); [|apply step_message].
    apply (reachable_step Scenario.s1);
      [|apply step_connection; [discriminate | reflexivity]].
    apply (reachable_step Scenario.s0);
      [|apply step_connection; [discriminate | reflexivity]].
    apply reachable_start. }
  split; [reflexivity|].
  apply (pairing_links_hold Scenario.paired "A"
           (mkUser "A" true "10.0.0.1" (Some "B"%string)
                   (Some "room"%string)) R eq_refl).
  reflexivity.
Defined.

(** *** The place of an entry that is replaced *)

Lemma insertSorted_youngest (x : WaitingUser) (l : list WaitingUser) :
  (forall y, In y l -> (joinedAt y < joinedAt x)%Z) ->
  insertSorted x l = l ++ [x].
Proof.
  induction l as [|y l IH]; cbn [insertSorted app]; intros H; [reflexivity|].
  assert (Hy : (joinedAt y <? joinedAt x)%Z = true).
  { apply Z.ltb_lt, H. left. reflexivity. }
  rewrite Hy, IH; [reflexivity|]. intros z Hz. apply H. right. exact Hz.
Qed.

Lemma insertSorted_before_youngest (x y : WaitingUser)
      (l : list WaitingUser) :
  (joinedAt y < joinedAt x)%Z ->
  insertSorted y (l ++ [x]) = insertSorted y l ++ [x].
Proof.
  intros H. induction l as [|z l IH]; cbn [insertSorted app].
  - assert (E : (joinedAt x <? joinedAt y)%Z = false)
      by (apply Z.ltb_ge; lia).
    rewrite E. reflexivity.
  - destruct (joinedAt z <? joinedAt y)%Z; [rewrite IH|]; reflexivity.
Qed.

(** Sorting puts an entry younger than all the others last and sorts
    the others as if it were not there. *)
Lemma sortByJoinedAt_youngest (x : WaitingUser) (l1 l2 : list WaitingUser) :
  (forall y, In y (l1 ++ l2) -> (joinedAt y < joinedAt x)%Z) ->
  sortByJoinedAt (l1 ++ x :: l2) = sortByJoinedAt (l1 ++ l2) ++ [x].
Proof.
  induction l1 as [|y l1 IH]; cbn [app sortByJoinedAt]; intros H.
  - apply insertSorted_youngest. intros y Hy. apply H.
    apply (Permutation_in _ (sortByJoinedAt_perm l2)). exact Hy.
  - rewrite IH by (intros z Hz; apply H; right; exact Hz).
    apply insertSorted_before_youngest. apply H. left. reflexivity.
Qed.

Lemma mapGet_absent {V : Type} (k : string) (l : list (string * V)) :
  ~ In k (List.map fst l) -> mapGet k l = None.
Proof.
  induction l as [|[k' v] l IH]; cbn; [reflexivity|]. intros H.
  destruct (String.eqb_spec k' k); [tauto|]. apply IH. tauto.
Qed.

(** [Map.set] on a key of the map writes in place: the values are those
    of the map without the key, with the new value where the old one
    was. *)
Lemma mapSet_in_place {V : Type} (k : string) (v v0 : V)
      (l : list (string * V)) :
  NoDup (List.map fst l) -> In (k, v0) l ->
  exists l1 l2,
    mapValues (mapSet k v l) = l1 ++ v :: l2
    /\ mapValues (mapDelete k l) = l1 ++ l2
    /\ length (mapSet k v l) = length l.
Proof.
  unfold mapValues.
  induction l as [|[k' v'] l IH]; cbn [List.map fst]; intros ND Hin;
    [destruct Hin|].
  apply NoDup_cons in ND as [Hn ND].
  cbn [mapSet mapDelete]. destruct (String.eqb_spec k' k) as [->|Hne].
  - exists [], (List.map snd l). cbn [List.map snd app length].
    split; [reflexivity|]. split; [|reflexivity].
    rewrite DispatchFacts.mapDelete_absent; [reflexivity|].
    apply mapGet_absent. intros H. apply Hn, list_elem_of_In, H.
  - destruct Hin as [E|Hin]; [injection E as -> _; contradiction|].
    destruct (IH ND Hin) as (l1 & l2 & E1 & E2 & E3).
    exists (v' :: l1), l2. cbn [List.map snd app length].
    rewrite E1, E2, E3. auto.
Qed.

(** C10. A session that is in the queue and sends [join_queue] again gets
    no ERROR: the one frame emitted is a second [queue_joined] to it, its
    entry is replaced by one with the new [joinedAt], the queue holds this
    one entry for its id, and no session changes. The new entry goes to
    the back of the order of the queue: whatever other entries a queue
    holds, if they all joined before this instant, [addWaitingUser] keeps
    the number of entries, and [getWaitingUsers] then gives the other
    entries in the order they had, followed by the new entry. *)
Theorem rejoin_while_waiting (now : Z) (uuid : nat -> string)
        (userId : string) (u : ConnectedUser) (w : WaitingUser)
        (data : Payload) (sv : Server) :
  reachable sv ->
  connectedUsers sv !! userId = Some u ->
  In (userId, w) (waitingUsers (storage sv)) ->
  let r := onMessage now uuid userId (Frame JOIN_QUEUE data) sv in
  let w' := mkWaitingUser userId "[object Object]" (ip u) now in
  r.2 = [Send userId QUEUE_JOINED]
  /\ waitingUsers (storage r.1) = [(userId, w')]
  /\ connectedUsers r.1 = connectedUsers sv
  /\ forall (st : Storage.t) (w0 : WaitingUser),
       NoDup (List.map fst (waitingUsers st)) ->
       In (userId, w0) (waitingUsers st) ->
       (forall k v, In (k, v) (waitingUsers st) -> k ≠ userId ->
                    (joinedAt v < now)%Z) ->
       getWaitingUsers (addWaitingUser w' st)
       = getWaitingUsers (removeWaitingUser userId st) ++ [w']
       /\ ~ In userId
            (List.map fst (waitingUsers (removeWaitingUser userId st)))
       /\ length (waitingUsers (addWaitingUser w' st))
          = length (waitingUsers st).
Proof.
  intros R Hu Hin r w'. pose proof (reachable_inv sv R) as I.
  destruct (inv_waiting _ _ I userId w Hin) as (_ & u' & Hu' & Hp).
  rewrite Hu in Hu'. injection Hu' as <-.
  destruct (inv_key _ _ I userId u Hu) as (_ & _ & Hopen).
  assert (T : truthy (partnerId u) = false) by (rewrite Hp; reflexivity).
  assert (Hwu : exists w0, waitingUsers (storage sv) = [(userId, w0)]).
  { pose proof (inv_queue _ _ I) as Hlen.
    destruct (waitingUsers (storage sv)) as [|e [|e' wu]];
      [destruct Hin | | cbn in Hlen; lia].
    destruct Hin as [->|[]]. eauto. }
  destruct (onJoinQueue_alone now uuid userId u sv T (or_intror Hwu))
    as (Hcu & Hq & Hout).
  assert (E : r = onJoinQueue now uuid userId u sv).
  { unfold r, onMessage. rewrite Hu. reflexivity. }
  rewrite E. split; [|split; [exact Hq | split; [exact Hcu|]]].
  { rewrite Hout. unfold sendToUser. rewrite Hu, Hopen. reflexivity. }
  intros st w0 ND Hin0 Hold.
  unfold getWaitingUsers, addWaitingUser, removeWaitingUser.
  cbn [waitingUsers setUniqueIps setWaitingUsers].
  change (wId w') with userId.
  destruct (mapSet_in_place userId w' w0 (waitingUsers st) ND Hin0)
    as (l1 & l2 & E1 & E2 & E3).
  rewrite E1, E2. split; [|split; [|exact E3]].
  - apply sortByJoinedAt_youngest. intros y Hy.
    change (joinedAt w') with now. rewrite <- E2 in Hy.
    unfold mapValues in Hy. apply in_map_iff in Hy.
    destruct Hy as ([k v] & Ev & Hkv). cbn in Ev. subst v.
    apply in_mapDelete in Hkv. destruct Hkv as [Hkv Hk].
    apply (Hold k y Hkv Hk).
  - intros H. apply in_map_iff in H. destruct H as ([k v] & Ek & Hkv).
    cbn in Ek. subst k. apply in_mapDelete in Hkv. tauto.
Qed.

(** A rejoins alone in the queue of a reachable state; and in a queue
    where A (joined at 3) is ahead of Z (joined at 4), the entry A gets at
    7 comes after Z. *)
Lemma rejoin_of_A :
  let w' := mkWaitingUser "A" "[object Object]" "10.0.0.1" 7 in
  let z := mkWaitingUser "Z" "[object Object]" "10.0.0.9" 4 in
  let st := setWaitingUsers
              [("A"%string, mkWaitingUser "A" "[object Object]" "10.0.0.1" 3);
               ("Z"%string, z)]
              (Storage.create 0 emptyDb) in
  (onMessage 7 Scenario.uuid "A" Scenario.join Scenario.s3).2
  = [Send "A" QUEUE_JOINED]
  /\ waitingUsers
       (storage (onMessage 7 Scenario.uuid "A" Scenario.join Scenario.s3).1)
     = [("A"%string, w')]
  /\ getWaitingUsers (storage Scenario.s3)
     = [mkWaitingUser "A" "[object Object]" "10.0.0.1" 3]
  /\ getWaitingUsers st
     = [mkWaitingUser "A" "[object Object]" "10.0.0.1" 3; z]
  /\ getWaitingUsers (addWaitingUser w' st) = [z; w'].
Proof.
  assert (R : reachable Scenario.s3).
  { apply (reachable_step Scenario.s2); [|apply step_message].
    apply (reachable_step Scenario.s1);
      [|apply step_connection; [discriminate | reflexivity]].
    apply (reachable_step Scenario.s0);
      [|apply step_connection; [discriminate | reflexivity]].
    apply reachable_start. }
  destruct (rejoin_while_waiting 7 Scenario.uuid "A"
              (mkUser "A" true "10.0.0.1" None None)
              (mkWaitingUser "A" "[object Object]" "10.0.0.1" 3)
              noData Scenario.s3 R eq_refl (or_introl eq_refl))
    as (Hout & Hq & _ & Horder).
  cbn zeta. split; [exact Hout|]. split; [exact Hq|].
  split; [reflexivity|]. split; [reflexivity|].
  destruct (Horder
              (setWaitingUsers
                 [("A"%string,
                   mkWaitingUser "A" "[object Object]" "10.0.0.1" 3);
                  ("Z"%string,
                   mkWaitingUser "Z" "[object Object]" "10.0.0.9" 4)]
                 (Storage.create 0 emptyDb))
              (mkWaitingUser "A" "[object Object]" "10.0.0.1" 3))
    as (Hord & _ & _).
  - apply (bool_decide_unpack _). vm_compute. reflexivity.
  - left. reflexivity.
  - intros k v [E|[E|[]]] Hk; injection E as <- <-;
      [contradiction | cbn; lia].
  - exact Hord.
Defined.

(** On the same queue, an entry A gets at the very instant Z joined
    stays ahead of Z: the map keeps the place of the key and the sort is
    stable. *)
Example rejoin_at_the_instant_of_another :
  let z := mkWaitingUser "Z" "[object Object]" "10.0.0.9" 4 in
  let w' := mkWaitingUser "A" "[object Object]" "10.0.0.1" 4 in
  getWaitingUsers
    (addWaitingUser w'
       (setWaitingUsers
          [("A"%string, mkWaitingUser "A" "[object Object]" "10.0.0.1" 3);
           ("Z"%string, z)]
          (Storage.create 0 emptyDb)))
  = [w'; z].
Proof. reflexivity. Qed.

(** The branch of [matchUsers] for an entry without registered session,
    on a queue no state of the server holds (see [pass_reads_live_queue]
    below): the surviving entry of the pair popped is written back to the
    storage but not to the array the loop works on. With the queue Z
    (gone), B, C, D, the pass pairs C with D, B stays unpaired and the
    entry of Z stays in the queue. *)
Example survivor_skipped_for_the_pass :
  let r := matchUsers 5 Scenario.uuid Scenario.stale in
  (partnerId <$> connectedUsers r.1 !! "B"%string) = Some None
  /\ (partnerId <$> connectedUsers r.1 !! "C"%string)
     = Some (Some "D"%string)
  /\ (partnerId <$> connectedUsers r.1 !! "D"%string)
     = Some (Some "C"%string)
  /\ List.map fst (waitingUsers (storage r.1)) = ["Z"%string; "B"%string]
  /\ r.2 = [Send "C" (PARTNER_FOUND "room"); Send "D" (PARTNER_FOUND "room")].
Proof. vm_compute. repeat split; reflexivity. Qed.

End PairingFacts.

(** ** The matcher and [replace] *)

Module EngineFacts.
Import JsString RegExp Notions.

Section Bounds.
Variable ic : bool.
Variable s : JsString.t.

Lemma repMin_advances (step : nat -> caps -> cont -> option nat) (n : nat) :
  advances s step -> advances s (repMin step n).
Proof.
  intros Hs. induction n as [|n IH]; intros i c k e Q Hk Hi H; cbn in H.
  - apply (Hk i c); [lia | exact Hi | exact H].
  - apply (Hs i c _ e Q) in H; [exact H | | exact Hi].
    intros j c' Hij Hj H'. apply (IH j c' k e Q) in H'; [exact H' | | exact Hj].
    intros j' c'' Hjj Hj' Hk'. apply (Hk j' c''); [lia | exact Hj' | exact Hk'].
Qed.

Lemma repGreedy_advances (step : nat -> caps -> cont -> option nat)
      (fuel : nat) :
  advances s step -> forall left, advances s (repGreedy step fuel left).
Proof.
  intros Hs. induction fuel as [|fuel IH]; intros left i c k e Q Hk Hi H;
    cbn in H.
  - apply (Hk i c); [lia | exact Hi | exact H].
  - assert (Stop : k i c = Some e -> Q).
    { intros H'. apply (Hk i c); [lia | exact Hi | exact H']. }
    destruct left as [[|l]|]; [exact (Stop H) | |].
    + destruct (step i c _) as [e'|] eqn:E; [|exact (Stop H)].
      injection H as ->.
      apply (Hs i c _ e Q) in E; [exact E | | exact Hi].
      intros j c' Hij Hj H'. destruct (Nat.eqb j i); [discriminate|].
      apply (IH _ j c' k e Q) in H'; [exact H' | | exact Hj].
      intros j' c'' Hjj Hj' Hk'.
      apply (Hk j' c''); [lia | exact Hj' | exact Hk'].
    + destruct (step i c _) as [e'|] eqn:E; [|exact (Stop H)].
      injection H as ->.
      apply (Hs i c _ e Q) in E; [exact E | | exact Hi].
      intros j c' Hij Hj H'. destruct (Nat.eqb j i); [discriminate|].
      apply (IH _ j c' k e Q) in H'; [exact H' | | exact Hj].
      intros j' c'' Hjj Hj' Hk'.
      apply (Hk j' c''); [lia | exact Hj' | exact Hk'].
Qed.

Lemma sameSpan_bound (a i len : nat) :
  (i <= length s)%nat -> sameSpan ic s a i len = true ->
  (i + len <= length s)%nat.
Proof.
  revert a i. induction len as [|len IH]; intros a i Hi H; [lia|].
  cbn in H. destruct (s !! a) as [x|]; [|discriminate].
  destruct (s !! i) as [y|] eqn:Ey; [|discriminate].
  apply andb_true_iff in H. destruct H as [_ H].
  apply lookup_lt_Some in Ey.
  specialize (IH (S a) (S i) ltac:(lia) H). lia.
Qed.

Lemma m_advances (r : regex) : advances s (m ic s r).
Proof.
  induction r as [ch| |neg items| |r1 IH1 r2 IH2|r1 IH1 r2 IH2
                 |mn mx r IH|n r IH|n];
    intros i c k e Q Hk Hi H; cbn [m] in H.
  - destruct (s !! i) as [x|] eqn:Ex; [|discriminate].
    apply lookup_lt_Some in Ex.
    destruct (_ =? _); [|discriminate].
    apply (Hk (S i) c); [lia | lia | exact H].
  - destruct (s !! i) as [x|] eqn:Ex; [|discriminate].
    apply lookup_lt_Some in Ex.
    destruct (isLineTerminator x); [discriminate|].
    apply (Hk (S i) c); [lia | lia | exact H].
  - destruct (s !! i) as [x|] eqn:Ex; [|discriminate].
    apply lookup_lt_Some in Ex.
    destruct (eqb _ _); [discriminate|].
    apply (Hk (S i) c); [lia | lia | exact H].
  - destruct (eqb _ _); [discriminate|].
    apply (Hk i c); [lia | exact Hi | exact H].
  - apply (IH1 i c _ e Q) in H; [exact H | | exact Hi].
    intros j c' Hij Hj H'. apply (IH2 j c' k e Q) in H'; [exact H' | | exact Hj].
    intros j' c'' Hjj Hj' Hk'. apply (Hk j' c''); [lia | exact Hj' | exact Hk'].
  - destruct (m ic s r1 i c k) as [e'|] eqn:E.
    + injection H as ->. apply (IH1 i c k e Q Hk Hi E).
    + apply (IH2 i c k e Q Hk Hi H).
  - apply (repMin_advances (m ic s r) mn IH i c _ e Q) in H;
      [exact H | | exact Hi].
    intros j c' Hij Hj H'.
    apply (repGreedy_advances (m ic s r) _ IH _ j c' k e Q) in H';
      [exact H' | | exact Hj].
    intros j' c'' Hjj Hj' Hk'. apply (Hk j' c''); [lia | exact Hj' | exact Hk'].
  - apply (IH i c _ e Q) in H; [exact H | | exact Hi].
    intros j c' Hij Hj H'. apply (Hk j _ Hij Hj H').
  - destruct (capture n c) as [[a b]|].
    + destruct (sameSpan ic s a i (b - a)) eqn:E; [|discriminate].
      pose proof (sameSpan_bound a i (b - a) Hi E).
      apply (Hk (i + (b - a))%nat c); [lia | lia | exact H].
    + apply (Hk i c); [lia | exact Hi | exact H].
Qed.

(** A match starts no later than it ends, and ends within the input. *)
Lemma matchAt_bounds (r : regex) (i e : nat) :
  (i <= length s)%nat -> matchAt ic s r i = Some e ->
  (i <= e)%nat /\ (e <= length s)%nat.
Proof.
  intros Hi H. unfold matchAt in H.
  apply (m_advances r i [] _ e ((i <= e)%nat /\ (e <= length s)%nat)) in H;
    [exact H | | exact Hi].
  intros j c' Hij Hj [= <-]. auto.
Qed.

Lemma searchFrom_bounds (r : regex) (n i a e : nat) :
  (i + n <= S (length s))%nat ->
  searchFrom ic s r n i = Some (a, e) ->
  (i <= a)%nat /\ (a <= e)%nat /\ (e <= length s)%nat.
Proof.
  revert i. induction n as [|n IH]; intros i Hn H; cbn in H; [discriminate|].
  destruct (matchAt ic s r i) as [e'|] eqn:E.
  - injection H as <- <-.
    destruct (matchAt_bounds r i e' ltac:(lia) E). lia.
  - destruct (IH (S i) ltac:(lia) H) as (?&?&?). lia.
Qed.

Lemma execFrom_bounds (r : regex) (i a e : nat) :
  execFrom ic s r i = Some (a, e) ->
  (i <= a)%nat /\ (a <= e)%nat /\ (e <= length s)%nat.
Proof.
  unfold execFrom. destruct (Nat.ltb_spec (length s) i); [discriminate|].
  apply searchFrom_bounds. lia.
Qed.

Lemma allMatches_bounds (r : regex) (n i : nat) :
  Forall (fun sp => (sp.1 <= sp.2)%nat /\ (sp.2 <= length s)%nat)
         (allMatches ic s r n i).
Proof.
  revert i. induction n as [|n IH]; intros i; cbn; [constructor|].
  destruct (execFrom ic s r i) as [[a e]|] eqn:E; [|constructor].
  destruct (execFrom_bounds r i a e E) as (?&?&?).
  constructor; [cbn; lia | apply IH].
Qed.

(** [replace] with a callback that keeps the length of what it is given
    keeps the length of the text. *)
Lemma substitute_length (f : JsString.t -> JsString.t)
      (ms : list (nat * nat)) :
  (forall t, length (f t) = length t) ->
  Forall (fun sp => (sp.1 <= sp.2)%nat /\ (sp.2 <= length s)%nat) ms ->
  forall next, (next <= length s)%nat ->
    length (substitute s f ms next) = (length s - next)%nat.
Proof.
  intros Hf Hms. induction Hms as [|[a e] ms [H1 H2] _ IH]; intros next Hn;
    cbn [substitute].
  - rewrite length_drop. reflexivity.
  - cbn in H1, H2. destruct (Nat.ltb_spec a next); [apply IH; exact Hn|].
    rewrite !length_app, Hf, !length_take, !length_drop, (IH e H2). lia.
Qed.

(** What holds of every unit of the text and of every replacement holds
    of every unit of the result of [replace]. *)
Lemma substitute_Forall (P : N -> Prop) (f : JsString.t -> JsString.t)
      (ms : list (nat * nat)) (next : nat) :
  Forall P s -> (forall t, Forall P (f t)) ->
  Forall P (substitute s f ms next).
Proof.
  intros Hs Hf. revert next.
  induction ms as [|[a e] ms IH]; intros next; cbn [substitute].
  - apply Forall_drop. exact Hs.
  - destruct (a <? next)%nat; [apply IH|].
    repeat apply Forall_app_2; auto.
    apply Forall_take, Forall_drop. exact Hs.
Qed.

End Bounds.

(** *** [replace] with a one-character pattern *)

Section ReplaceChar.
Variable x : N.
Variable rep : JsString.t.
Variable s : JsString.t.

Lemma exec_hit (i : nat) :
  s !! i = Some x -> execFrom false s (Chr x) i = Some (i, S i).
Proof.
  intros H. pose proof (lookup_lt_Some _ _ _ H) as Hi.
  unfold execFrom. destruct (Nat.ltb_spec (length s) i); [lia|].
  cbn [searchFrom]. unfold matchAt. cbn [m]. rewrite H.
  unfold canonicalize. rewrite N.eqb_refl. reflexivity.
Qed.

Lemma exec_miss (i : nat) (c : N) :
  s !! i = Some c -> c ≠ x ->
  execFrom false s (Chr x) i = execFrom false s (Chr x) (S i).
Proof.
  intros H Hne. pose proof (lookup_lt_Some _ _ _ H) as Hi.
  unfold execFrom.
  destruct (Nat.ltb_spec (length s) i); [lia|].
  destruct (Nat.ltb_spec (length s) (S i)); [lia|].
  cbn [searchFrom]. unfold matchAt at 1. cbn [m]. rewrite H.
  unfold canonicalize.
  destruct (N.eqb_spec x c) as [E|_]; [congruence|].
  replace (length s - i)%nat with (S (length s - S i)) by lia. reflexivity.
Qed.

Lemma exec_end (i : nat) :
  s !! i = None -> execFrom false s (Chr x) i = None.
Proof.
  intros H. pose proof (proj1 (lookup_ge_None s i) H) as Hi. unfold execFrom.
  destruct (Nat.ltb_spec (length s) i); [reflexivity|].
  replace (length s - i)%nat with O by lia.
  cbn [searchFrom]. unfold matchAt. cbn [m].
  rewrite H. reflexivity.
Qed.

Lemma substitute_skip (ms : list (nat * nat)) (i : nat) (c : N) :
  s !! i = Some c ->
  match ms with
  | [] => True
  | (a, _) :: _ => (S i <= a)%nat
  end ->
  substitute s (fun _ => rep) ms i = c :: substitute s (fun _ => rep) ms (S i).
Proof.
  intros H Hms. destruct ms as [|[a e] ms]; cbn [substitute].
  - apply drop_S. exact H.
  - destruct (Nat.ltb_spec a i); [lia|].
    destruct (Nat.ltb_spec a (S i)); [lia|].
    rewrite (drop_S _ _ _ H).
    replace (a - i)%nat with (S (a - S i)) by lia. reflexivity.
Qed.

Lemma replace_char_from (d : nat) :
  forall (i n : nat),
    (length s - i)%nat = d -> (i <= length s)%nat -> (d < n)%nat ->
    substitute s (fun _ => rep) (allMatches false s (Chr x) n i) i
    = flat_map (fun c => if c =? x then rep else [c]) (drop i s).
Proof.
  induction d as [|d IH]; intros i n Hd Hi Hn;
    (destruct n as [|n]; [lia|]); cbn [allMatches].
  - assert (E : s !! i = None) by (apply lookup_ge_None; lia).
    rewrite (exec_end i E). cbn [substitute].
    rewrite drop_ge by lia. reflexivity.
  - destruct (s !! i) as [c|] eqn:E;
      [|apply lookup_ge_None in E; lia].
    rewrite (drop_S _ _ _ E). cbn [flat_map].
    destruct (N.eqb_spec c x) as [->|Hne].
    + rewrite (exec_hit i E).
      replace (Nat.eqb (S i) i) with false
        by (symmetry; apply Nat.eqb_neq; lia).
      cbn [substitute]. destruct (Nat.ltb_spec i i); [lia|].
      replace (i - i)%nat with O by lia. cbn [take app].
      rewrite (IH (S i) n) by lia. reflexivity.
    + rewrite (exec_miss i c E Hne).
      change (match execFrom false s (Chr x) (S i) with
              | Some (a, e) =>
                  (a, e) :: allMatches false s (Chr x) n
                              (if Nat.eqb e a then S e else e)
              | None => []
              end)
        with (allMatches false s (Chr x) (S n) (S i)).
      rewrite (substitute_skip _ i c E).
      * cbn [app]. f_equal. apply (IH (S i) (S n)); lia.
      * cbn [allMatches].
        destruct (execFrom false s (Chr x) (S i)) as [[a e]|] eqn:X; [|exact I].
        destruct (execFrom_bounds false s (Chr x) (S i) a e X). lia.
Qed.

End ReplaceChar.

(** [content.replace(/x/g, by)] replaces every [x] and nothing else. *)
Lemma replaceChar_flat_map (x : N) (by_ : string) (s : JsString.t) :
  Routes.replaceChar x by_ s
  = flat_map (fun c => if c =? x then lit by_ else [c]) s.
Proof.
  unfold Routes.replaceChar, RegExp.replace, RegExp.literal. cbn [fst source
    RegExp.ignoreCase].
  rewrite (replace_char_from x (lit by_) s (length s) 0 (S (length s)));
    [reflexivity | lia | lia | lia].
Qed.

End EngineFacts.

(** ** Sanitization and masking *)

Module SanitizeFacts.
Import JsString RegExp ProfanityFilter Routes Notions EngineFacts.

Lemma flat_map_escape (Q : N -> Prop) (x : N) (rep s : JsString.t) :
  Forall Q s -> Forall Q rep -> Forall (fun c => c ≠ x) rep ->
  Forall (fun c => Q c /\ c ≠ x)
         (flat_map (fun c => if c =? x then rep else [c]) s).
Proof.
  intros Hs Hq Hx. induction Hs as [|c s Hc _ IH]; cbn; [constructor|].
  apply Forall_app_2; [|exact IH].
  destruct (N.eqb_spec c x).
  - apply Forall_forall. intros y Hy.
    split; [apply (proj1 (Forall_forall _ _) Hq y Hy)
           | apply (proj1 (Forall_forall _ _) Hx y Hy)].
  - repeat constructor; assumption.
Qed.

(** A text without [x] is left as it is. *)
Lemma flat_map_no_hit (x : N) (rep s : JsString.t) :
  Forall (fun c => c ≠ x) s ->
  flat_map (fun c => if c =? x then rep else [c]) s = s.
Proof.
  induction 1 as [|c s Hc _ IH]; cbn; [reflexivity|].
  destruct (N.eqb_spec c x); [contradiction|]. cbn. rewrite IH. reflexivity.
Qed.

Lemma dropSpaces_Forall (P : N -> Prop) (s : JsString.t) :
  Forall P s -> Forall P (dropSpaces s).
Proof.
  induction 1 as [|c s Hc Hs IH]; cbn; [constructor|].
  destruct (isSpace c); [exact IH | constructor; assumption].
Qed.

Lemma trim_Forall (P : N -> Prop) (s : JsString.t) :
  Forall P s -> Forall P (trim s).
Proof.
  intros H. unfold trim.
  apply Forall_rev, dropSpaces_Forall, Forall_rev, dropSpaces_Forall, H.
Qed.

(** The four replacements of [sanitizeMessage], before [trim] and
    [slice]: no unit of the result is one of the escaped characters. *)
Lemma escaped_no_markup (content : JsString.t) :
  Forall (fun c => isMarkup c = false)
         (replaceChar 39 "&#x27;"
            (replaceChar 34 "&quot;"
               (replaceChar 62 "&gt;" (replaceChar 60 "&lt;" content)))).
Proof.
  rewrite !replaceChar_flat_map.
  eapply Forall_impl.
  - apply flat_map_escape; [| |].
    + apply flat_map_escape; [| |].
      * apply flat_map_escape; [| |].
        -- apply (flat_map_escape (fun _ => True)); [| |].
           ++ apply Forall_forall. intros; exact I.
           ++ apply Forall_forall. intros; exact I.
           ++ vm_compute. repeat constructor; discriminate.
        -- vm_compute. repeat constructor; discriminate.
        -- vm_compute. repeat constructor; discriminate.
      * vm_compute. repeat constructor; discriminate.
      * vm_compute. repeat constructor; discriminate.
    + vm_compute. repeat constructor; discriminate.
    + vm_compute. repeat constructor; discriminate.
  - cbn. intros c ((((_ & H60) & H62) & H34) & H39). unfold isMarkup.
    destruct (N.eqb_spec c 60), (N.eqb_spec c 62), (N.eqb_spec c 34),
      (N.eqb_spec c 39); try contradiction; reflexivity.
Qed.

Lemma sanitizeMessage_length (content : JsString.t) :
  (length (sanitizeMessage content) <= 2000)%nat.
Proof. unfold sanitizeMessage, slice0. rewrite length_take. lia. Qed.

Lemma sanitizeMessage_no_markup (content : JsString.t) :
  Forall (fun c => isMarkup c = false) (sanitizeMessage content).
Proof.
  unfold sanitizeMessage, slice0.
  apply Forall_take, trim_Forall, escaped_no_markup.
Qed.

(** X1. Whatever the content, [sanitizeMessage] returns at most 2000 code
    units, none of which is one of the characters it escapes: < > and the
    two quotes. *)
Theorem sanitizeMessage_safe (content : JsString.t) :
  (length (sanitizeMessage content) <= 2000)%nat
  /\ Forall (fun c => isMarkup c = false) (sanitizeMessage content).
Proof.
  split; [apply sanitizeMessage_length | apply sanitizeMessage_no_markup].
Qed.

(** *** [trim] *)

Lemma dropSpaces_split (s : JsString.t) :
  exists pre, s = pre ++ dropSpaces s
              /\ match dropSpaces s with
                 | c :: _ => isSpace c = false
                 | [] => True
                 end.
Proof.
  induction s as [|c s (pre & E & H)]; cbn.
  - exists []. auto.
  - destruct (isSpace c) eqn:Ec.
    + exists (c :: pre). split; [cbn; f_equal; exact E | exact H].
    + exists []. auto.
Qed.

Lemma dropSpaces_fixed (s : JsString.t) :
  match s with
  | c :: _ => isSpace c = false
  | [] => True
  end -> dropSpaces s = s.
Proof. destruct s as [|c s]; cbn; [reflexivity|]. intros ->. reflexivity. Qed.

(** A trimmed text is trimmed: [trim] changes it no more. *)
Lemma trim_trim (s : JsString.t) : trim (trim s) = trim s.
Proof.
  unfold trim.
  destruct (dropSpaces_split s) as (p1 & _ & Ha).
  set (a := dropSpaces s) in *.
  destruct (dropSpaces_split (rev a)) as (p2 & E2 & Hb).
  set (b := dropSpaces (rev a)) in *.
  assert (Hrb : dropSpaces (rev b) = rev b).
  { apply dropSpaces_fixed.
    destruct (rev b) as [|c t] eqn:Erb; [exact I|].
    assert (Ea : a = (c :: t) ++ rev p2).
    { rewrite <- Erb, <- rev_app_distr, <- E2, rev_involutive. reflexivity. }
    rewrite Ea in Ha. exact Ha. }
  rewrite Hrb, rev_involutive.
  rewrite (dropSpaces_fixed b Hb). reflexivity.
Qed.

(** X2. When the sanitized text is shorter than 2000 code units (nothing
    was cut off), sanitizing it again returns it unchanged. *)
Theorem sanitizeMessage_twice (content : JsString.t) :
  (length (sanitizeMessage content) < 2000)%nat ->
  sanitizeMessage (sanitizeMessage content) = sanitizeMessage content.
Proof.
  intros Hlen.
  set (e := replaceChar 39 "&#x27;"
              (replaceChar 34 "&quot;"
                 (replaceChar 62 "&gt;" (replaceChar 60 "&lt;" content)))).
  assert (Hs : sanitizeMessage content = trim e).
  { unfold sanitizeMessage, slice0. fold e. apply take_ge.
    unfold sanitizeMessage, slice0 in Hlen. fold e in Hlen.
    rewrite length_take in Hlen. lia. }
  rewrite Hs in *.
  assert (Hm : Forall (fun c => isMarkup c = false) (trim e))
    by apply trim_Forall, escaped_no_markup.
  assert (Hne : forall x, isMarkup x = true ->
                          Forall (fun c => c ≠ x) (trim e)).
  { intros x Hx. eapply Forall_impl; [exact Hm|].
    cbn. intros c Hc ->. congruence. }
  unfold sanitizeMessage, slice0.
  rewrite !replaceChar_flat_map.
  rewrite (flat_map_no_hit 60) by (apply Hne; reflexivity).
  rewrite (flat_map_no_hit 62) by (apply Hne; reflexivity).
  rewrite (flat_map_no_hit 34) by (apply Hne; reflexivity).
  rewrite (flat_map_no_hit 39) by (apply Hne; reflexivity).
  rewrite trim_trim. apply take_ge. lia.
Qed.

Lemma sanitizeMessage_twice_hi :
  sanitizeMessage (sanitizeMessage (lit " <b>hi</b> "))
  = sanitizeMessage (lit " <b>hi</b> ").
Proof.
  apply (sanitizeMessage_twice (lit " <b>hi</b> ")).
  apply Nat.ltb_lt. vm_compute. reflexivity.
Defined.

(** Cut off at 2000 units, the text may end in a blank that a second
    pass trims: sanitizing twice is not sanitizing once. *)
Example sanitizeMessage_twice_differs :
  let content := lit "<" ++ repeat 120 1995 ++ lit " y" in
  length content = 1998%nat
  /\ length (sanitizeMessage content) = 2000%nat
  /\ length (sanitizeMessage (sanitizeMessage content)) = 1999%nat.
Proof. vm_compute. repeat split; reflexivity. Qed.

(** *** [filterContent] *)

Lemma stars_length (t : JsString.t) : length (stars (length t)) = length t.
Proof. unfold stars. apply repeat_length. Qed.

Lemma replace_stars_length (re : RegExp.t) (s : JsString.t) :
  length (RegExp.replace re s (fun mt => stars (length mt))).1 = length s.
Proof.
  unfold RegExp.replace. cbn [fst].
  rewrite (substitute_length s _ _ stars_length
             (allMatches_bounds _ s _ _ _)) by lia.
  lia.
Qed.

Lemma maskAll_length (ps : list RegExp.t) (s : JsString.t) :
  length (maskAll ps s).1 = length s.
Proof.
  revert s. induction ps as [|p ps IH]; intros s; cbn [maskAll];
    [reflexivity|].
  pose proof (replace_stars_length p s) as R.
  destruct (RegExp.replace p s _) as [s' p']. cbn [fst] in R.
  pose proof (IH s') as I.
  destruct (maskAll ps s') as [out ps']. cbn [fst] in *. lia.
Qed.

Lemma filterContent_length (content : JsString.t) (tb : Tables) :
  length (filterContent content tb).1 = length content.
Proof.
  unfold filterContent.
  pose proof (maskAll_length (profane tb) content) as M.
  destruct (maskAll (profane tb) content) as [out ps]. exact M.
Qed.

Lemma substitute_stars_inplace (s : JsString.t) (ms : list (nat * nat)) :
  Forall (fun sp => (sp.1 <= sp.2)%nat /\ (sp.2 <= length s)%nat) ms ->
  forall next i c, (next <= length s)%nat ->
    substitute s (fun mt => stars (length mt)) ms next !! i = Some c ->
    c = 42 \/ s !! (next + i)%nat = Some c.
Proof.
  unfold JsString.t in *.
  induction 1 as [|[a e] ms [H1 H2] _ IH]; intros next i c Hn;
    cbn [substitute].
  - rewrite lookup_drop. auto.
  - cbn in H1, H2. destruct (Nat.ltb_spec a next); [apply IH; exact Hn|].
    assert (L1 : length (take (a - next) (drop next s)) = (a - next)%nat)
      by (rewrite length_take, length_drop; lia).
    assert (L2 : length (stars (length (take (e - a) (drop a s))))
                 = (e - a)%nat)
      by (rewrite stars_length, length_take, length_drop; lia).
    intros Hl. destruct (Nat.lt_ge_cases i (a - next)) as [Hi|Hi].
    + rewrite lookup_app_l in Hl by lia.
      rewrite lookup_take_lt, lookup_drop in Hl by lia. auto.
    + rewrite lookup_app_r in Hl by lia. rewrite L1 in Hl.
      destruct (Nat.lt_ge_cases (i - (a - next)) (e - a)) as [Hj|Hj].
      * rewrite lookup_app_l in Hl by lia. left.
        apply list_elem_of_lookup_2, list_elem_of_In in Hl.
        unfold stars in Hl. apply repeat_spec in Hl. exact Hl.
      * rewrite lookup_app_r in Hl by lia. rewrite L2 in Hl.
        apply IH in Hl; [|exact H2]. destruct Hl as [->|Hl]; [auto|].
        right. rewrite <- Hl. f_equal. lia.
Qed.

Lemma maskAll_inplace (ps : list RegExp.t) :
  forall (s : JsString.t) (i : nat) (c : N),
    (maskAll ps s).1 !! i = Some c -> c = 42 \/ s !! i = Some c.
Proof.
  induction ps as [|p ps IH]; intros s i c; cbn [maskAll]; [auto|].
  assert (R : forall j d,
             (RegExp.replace p s (fun mt => stars (length mt))).1 !! j
             = Some d -> d = 42 \/ s !! j = Some d).
  { intros j d Hd. unfold RegExp.replace in Hd. cbn [fst] in Hd.
    apply (substitute_stars_inplace s _ (allMatches_bounds _ s _ _ _) 0 j d)
      in Hd; [exact Hd | lia]. }
  destruct (RegExp.replace p s _) as [s' p']. cbn [fst] in R.
  pose proof (IH s' i c) as I.
  destruct (maskAll ps s') as [out ps']. cbn [fst] in *.
  intros H. destruct (I H) as [->|H']; [auto | apply R, H'].
Qed.

(** X3. Masking keeps the length of the text, whatever the text and the
    state of the pattern objects, and each code unit of the masked text
    is an asterisk or the unit the text has at that place. *)
Theorem filterContent_keeps_length (content : JsString.t) (tb : Tables) :
  length (filterContent content tb).1 = length content
  /\ forall i c, (filterContent content tb).1 !! i = Some c ->
                 c = 42 \/ content !! i = Some c.
Proof.
  split; [apply filterContent_length|].
  unfold filterContent. intros i c.
  pose proof (maskAll_inplace (profane tb) content i c) as M.
  destruct (maskAll (profane tb) content) as [out ps]. exact M.
Qed.

Lemma replace_stars_Forall (P : N -> Prop) (re : RegExp.t)
      (s : JsString.t) :
  P 42 -> Forall P s ->
  Forall P (RegExp.replace re s (fun mt => stars (length mt))).1.
Proof.
  intros H42 Hs. unfold RegExp.replace. cbn [fst].
  apply substitute_Forall; [exact Hs|].
  intros t. unfold stars. apply Forall_forall. intros y Hy.
  apply list_elem_of_In, repeat_spec in Hy. subst y. exact H42.
Qed.

(** Masking writes asterisks only: what holds of the asterisk and of
    every unit of the text holds of every unit of the masked text. *)
Lemma filterContent_Forall (P : N -> Prop) (content : JsString.t)
      (tb : Tables) :
  P 42 -> Forall P content -> Forall P (filterContent content tb).1.
Proof.
  intros H42 Hc. unfold filterContent.
  assert (M : forall ps s, Forall P s -> Forall P (maskAll ps s).1).
  { induction ps as [|p ps IH]; intros s Hs; cbn [maskAll]; [exact Hs|].
    pose proof (replace_stars_Forall P p s H42 Hs) as R.
    destruct (RegExp.replace p s _) as [s' p']. cbn [fst] in R.
    pose proof (IH s' R) as I.
    destruct (maskAll ps s') as [out ps']. exact I. }
  pose proof (M (profane tb) content Hc) as R.
  destruct (maskAll (profane tb) content) as [out ps]. exact R.
Qed.

(** *** The state a verdict leaves behind *)

Lemma testFirst_miss (ps : list RegExp.t) (s : JsString.t) :
  Forall (fun p => global p = true) ps ->
  (testFirst ps s).1 = false ->
  (testFirst ps s).2 = List.map (setLastIndex 0) ps.
Proof.
  induction 1 as [|p ps Hg _ IH]; cbn [testFirst List.map]; [reflexivity|].
  unfold test. rewrite Hg.
  destruct (execFrom _ s (source p) (lastIndex p)) as [[a e]|];
    cbn [fst snd]; [discriminate|].
  destruct (testFirst ps s) as [found ps'] eqn:T. cbn [fst snd] in *.
  intros ->. rewrite (IH eq_refl). reflexivity.
Qed.

(** X4. A verdict of clean leaves every pattern object at [lastIndex] 0,
    whatever state the objects were in: the call that follows classifies
    as on the freshly loaded module. *)
Theorem checkProfanity_clean_resets (content : JsString.t) (tb : Tables) :
  Forall (fun p => global p = true) (profane tb) ->
  Forall (fun p => global p = true) (warning tb) ->
  severity (checkProfanity content tb).1 = clean ->
  (checkProfanity content tb).2 = resetTables tb.
Proof.
  intros Gp Gw. unfold checkProfanity, resetTables.
  pose proof (testFirst_miss (profane tb) content Gp) as Mp.
  destruct (testFirst (profane tb) content) as [[|] ps];
    cbn [fst snd severity] in *; [discriminate|].
  pose proof (testFirst_miss (warning tb) content Gw) as Mw.
  destruct (testFirst (warning tb) content) as [[|] ws];
    cbn [fst snd severity] in *; [discriminate|].
  intros _. rewrite (Mp eq_refl), (Mw eq_refl). reflexivity.
Qed.

Lemma checkProfanity_clean_resets_after_damn :
  (checkProfanity (lit "damn")
                  (checkProfanity (lit "damn") initialTables).2).2
  = initialTables.
Proof.
  rewrite (checkProfanity_clean_resets (lit "damn")
             (checkProfanity (lit "damn") initialTables).2).
  - vm_compute. reflexivity.
  - vm_compute. repeat constructor.
  - vm_compute. repeat constructor.
  - vm_compute. reflexivity.
Defined.

End SanitizeFacts.

(** ** The storage *)

Module StorageFacts.
Import Schema Storage Notions Props.

(** *** The waiting queue *)

Lemma insertSorted_sorted (x : WaitingUser) (l : list WaitingUser) :
  StronglySorted (fun a b => (joinedAt a <= joinedAt b)%Z) l ->
  StronglySorted (fun a b => (joinedAt a <= joinedAt b)%Z) (insertSorted x l).
Proof.
  induction 1 as [|y l Hs IH Hy]; cbn [insertSorted].
  - repeat constructor.
  - destruct (Z.ltb_spec (joinedAt y) (joinedAt x)).
    + constructor; [exact IH|].
      rewrite (PairingFacts.insertSorted_perm x l).
      constructor; [lia | exact Hy].
    + constructor; [constructor; assumption|].
      constructor; [exact H|].
      eapply Forall_impl; [exact Hy|]. cbn. intros; lia.
Qed.

Lemma insertSorted_stable (t : Z) (x : WaitingUser) (l : list WaitingUser) :
  joinedAtInstant t (insertSorted x l) = joinedAtInstant t (x :: l).
Proof.
  unfold joinedAtInstant.
  induction l as [|y l IH]; cbn [insertSorted]; [reflexivity|].
  destruct (Z.ltb_spec (joinedAt y) (joinedAt x)); [|reflexivity].
  cbn [List.filter] in *. rewrite IH.
  destruct (Z.eqb_spec (joinedAt y) t), (Z.eqb_spec (joinedAt x) t);
    try reflexivity. lia.
Qed.

Lemma sortByJoinedAt_spec (l : list WaitingUser) :
  StronglySorted (fun a b => (joinedAt a <= joinedAt b)%Z) (sortByJoinedAt l)
  /\ Permutation (sortByJoinedAt l) l
  /\ forall t, joinedAtInstant t (sortByJoinedAt l) = joinedAtInstant t l.
Proof.
  repeat split.
  - induction l as [|x l IH]; cbn; [constructor|].
    apply insertSorted_sorted, IH.
  - apply PairingFacts.sortByJoinedAt_perm.
  - intros t. induction l as [|x l IH]; cbn [sortByJoinedAt]; [reflexivity|].
    rewrite insertSorted_stable. unfold joinedAtInstant in *.
    cbn [List.filter]. rewrite IH. reflexivity.
Qed.

(** X5. [getWaitingUsers] returns the entries of the queue, each once,
    oldest first, and leaves entries that joined at the same instant in
    the order the queue holds them. *)
Theorem getWaitingUsers_sorted (st : Storage.t) :
  StronglySorted (fun a b => (joinedAt a <= joinedAt b)%Z)
                 (getWaitingUsers st)
  /\ Permutation (getWaitingUsers st) (mapValues (waitingUsers st))
  /\ forall t, joinedAtInstant t (getWaitingUsers st)
               = joinedAtInstant t (mapValues (waitingUsers st)).
Proof. apply sortByJoinedAt_spec. Qed.

(** X6. [getFirstWaitingUser] answers nothing exactly when the queue is
    empty; otherwise it answers an entry of the queue, and no entry of the
    queue joined before it. *)
Theorem getFirstWaitingUser_oldest (st : Storage.t) :
  (getFirstWaitingUser st = None <-> waitingUsers st = [])
  /\ forall w, getFirstWaitingUser st = Some w ->
       In w (mapValues (waitingUsers st))
       /\ forall k v, In (k, v) (waitingUsers st) ->
                      (joinedAt w <= joinedAt v)%Z.
Proof.
  destruct (sortByJoinedAt_spec (mapValues (waitingUsers st))) as (Hs & Hp & _).
  fold (getWaitingUsers st) in Hs, Hp.
  unfold getFirstWaitingUser. split.
  - destruct (getWaitingUsers st) as [|w l] eqn:E; cbn.
    + split; [intros _|reflexivity].
      apply Permutation_nil in Hp. unfold mapValues in Hp.
      destruct (waitingUsers st); [reflexivity | discriminate].
    + split; [discriminate|]. intros H. rewrite H in Hp.
      apply Permutation_sym, Permutation_nil in Hp. discriminate.
  - intros w Hw. destruct (getWaitingUsers st) as [|w0 l] eqn:E;
      [discriminate|]. injection Hw as ->. split.
    + apply (Permutation_in _ Hp). left. reflexivity.
    + intros k v Hin.
      assert (Hv : In v (w :: l)).
      { apply (Permutation_in _ (Permutation_sym Hp)).
        unfold mapValues. apply (in_map snd) in Hin. exact Hin. }
      apply StronglySorted_inv in Hs. destruct Hs as [_ Hall].
      destruct Hv as [->|Hv]; [lia|].
      apply (proj1 (Forall_forall _ _) Hall v). apply list_elem_of_In, Hv.
Qed.

Lemma entriesOf_absent {V : Type} (k : string) (l : list (string * V)) :
  ~ In k (List.map fst l) -> entriesOf k l = [].
Proof.
  unfold entriesOf. induction l as [|[k' v] l IH]; cbn; [reflexivity|].
  intros H. destruct (String.eqb_spec k' k) as [->|_]; [tauto|].
  apply IH. tauto.
Qed.

Lemma mapSet_entries {V : Type} (k : string) (v : V)
      (l : list (string * V)) :
  NoDup (List.map fst l) -> entriesOf k (mapSet k v l) = [(k, v)].
Proof.
  unfold entriesOf. induction l as [|[k' v'] l IH]; cbn; intros ND.
  - rewrite String.eqb_refl. reflexivity.
  - apply NoDup_cons in ND as [Hn ND].
    destruct (String.eqb_spec k' k) as [->|Hne]; cbn.
    + rewrite String.eqb_refl. f_equal.
      apply (entriesOf_absent k l). intros H. apply Hn, list_elem_of_In, H.
    + destruct (String.eqb_spec k' k); [contradiction|]. apply IH, ND.
Qed.

Lemma mapSet_other {V : Type} (k j : string) (v : V)
      (l : list (string * V)) :
  j ≠ k -> entriesOf j (mapSet k v l) = entriesOf j l.
Proof.
  unfold entriesOf. intros Hne.
  induction l as [|[k' v'] l IH]; cbn.
  - destruct (String.eqb_spec k j); [congruence | reflexivity].
  - destruct (String.eqb_spec k' k) as [->|Hk]; cbn.
    + destruct (String.eqb_spec k j); [congruence | reflexivity].
    + rewrite IH. reflexivity.
Qed.

Lemma mapDelete_entries {V : Type} (k : string) (l : list (string * V)) :
  entriesOf k (mapDelete k l) = [].
Proof.
  unfold entriesOf. induction l as [|[k' v'] l IH]; cbn; [reflexivity|].
  destruct (String.eqb_spec k' k) as [->|Hk]; [exact IH|]. cbn.
  destruct (String.eqb_spec k' k); [contradiction | exact IH].
Qed.

Lemma mapDelete_other {V : Type} (k j : string) (l : list (string * V)) :
  j ≠ k -> entriesOf j (mapDelete k l) = entriesOf j l.
Proof.
  unfold entriesOf. intros Hne.
  induction l as [|[k' v'] l IH]; cbn; [reflexivity|].
  destruct (String.eqb_spec k' k) as [->|Hk]; cbn.
  - destruct (String.eqb_spec k j); [congruence | exact IH].
  - rewrite IH. reflexivity.
Qed.

Lemma mapSet_NoDup {V : Type} (k : string) (v : V) (l : list (string * V)) :
  NoDup (List.map fst l) -> NoDup (List.map fst (mapSet k v l)).
Proof.
  induction l as [|[k' v'] l IH]; cbn; intros ND.
  - repeat constructor. intros H. inversion H.
  - apply NoDup_cons in ND as [Hn ND].
    destruct (String.eqb_spec k' k) as [->|Hk]; cbn.
    + apply NoDup_cons. auto.
    + apply NoDup_cons. split; [|apply IH, ND].
      intros H. apply list_elem_of_In, in_map_iff in H.
      destruct H as ([k2 v2] & E & Hin). cbn in E. subst k2.
      assert (Hor : (k', v2) = (k, v) \/ In (k', v2) l).
      { clear -Hin. induction l as [|[k3 v3] l IH]; cbn in *.
        - destruct Hin as [H|[]]. left. congruence.
        - destruct (String.eqb k3 k); cbn in Hin.
          + destruct Hin as [H|H]; [left; congruence | right; right; exact H].
          + destruct Hin as [H|H]; [right; left; exact H|].
            destruct (IH H); [left | right; right]; assumption. }
      destruct Hor as [E|Hin']; [congruence|].
      apply Hn, list_elem_of_In, in_map_iff. exists (k', v2). auto.
Qed.

Lemma mapDelete_NoDup {V : Type} (k : string) (l : list (string * V)) :
  NoDup (List.map fst l) -> NoDup (List.map fst (mapDelete k l)).
Proof.
  induction l as [|[k' v'] l IH]; cbn; intros ND; [exact ND|].
  apply NoDup_cons in ND as [Hn ND].
  destruct (String.eqb k' k); [apply IH, ND|]. cbn.
  apply NoDup_cons. split; [|apply IH, ND].
  intros H. apply Hn. apply list_elem_of_In, in_map_iff in H.
  destruct H as ([k2 v2] & E & Hin). cbn in E. subst k2.
  apply PairingFacts.in_mapDelete in Hin.
  apply list_elem_of_In, in_map_iff. exists (k', v2). tauto.
Qed.

(** X7. The queue holds one entry per id. On a queue with distinct ids,
    [addWaitingUser] leaves exactly one entry for the user's id, the one
    given, and [removeWaitingUser] leaves none for the id removed; both
    leave the entries of every other id as they were and keep the ids
    distinct. *)
Theorem waiting_queue_one_entry_per_id (user : WaitingUser) (k : string)
        (st : Storage.t) :
  NoDup (List.map fst (waitingUsers st)) ->
  entriesOf (wId user) (waitingUsers (addWaitingUser user st))
  = [(wId user, user)]
  /\ entriesOf k (waitingUsers (removeWaitingUser k st)) = []
  /\ (forall j, j ≠ wId user ->
        entriesOf j (waitingUsers (addWaitingUser user st))
        = entriesOf j (waitingUsers st))
  /\ (forall j, j ≠ k ->
        entriesOf j (waitingUsers (removeWaitingUser k st))
        = entriesOf j (waitingUsers st))
  /\ NoDup (List.map fst (waitingUsers (addWaitingUser user st)))
  /\ NoDup (List.map fst (waitingUsers (removeWaitingUser k st))).
Proof.
  intros ND. unfold addWaitingUser, removeWaitingUser.
  cbn [waitingUsers setUniqueIps setWaitingUsers]. repeat split.
  - apply mapSet_entries, ND.
  - apply mapDelete_entries.
  - intros j Hj. apply mapSet_other, Hj.
  - intros j Hj. apply mapDelete_other, Hj.
  - apply mapSet_NoDup, ND.
  - apply mapDelete_NoDup, ND.
Qed.

Lemma waiting_queue_one_entry_when_replaced :
  let a1 := mkWaitingUser "A" "s" "10.0.0.1" 1 in
  let b2 := mkWaitingUser "B" "s" "10.0.0.2" 2 in
  let a3 := mkWaitingUser "A" "s" "10.0.0.1" 3 in
  let st := setWaitingUsers [("A"%string, a1); ("B"%string, b2)]
                            (Storage.create 0 emptyDb) in
  entriesOf "A" (waitingUsers (addWaitingUser a3 st)) = [("A"%string, a3)]
  /\ entriesOf "B" (waitingUsers (removeWaitingUser "B" st)) = []
  /\ entriesOf "B" (waitingUsers (addWaitingUser a3 st))
     = [("B"%string, b2)]
  /\ entriesOf "A" (waitingUsers (removeWaitingUser "B" st))
     = [("A"%string, a1)]
  /\ NoDup (List.map fst (waitingUsers (addWaitingUser a3 st)))
  /\ NoDup (List.map fst (waitingUsers (removeWaitingUser "B" st))).
Proof.
  pose proof (waiting_queue_one_entry_per_id
                (mkWaitingUser "A" "s" "10.0.0.1" 3) "B"
                (setWaitingUsers
                   [("A"%string, mkWaitingUser "A" "s" "10.0.0.1" 1);
                    ("B"%string, mkWaitingUser "B" "s" "10.0.0.2" 2)]
                   (Storage.create 0 emptyDb))) as H.
  destruct H as (H1 & H2 & H3 & H4 & H5 & H6).
  { apply (bool_decide_unpack _). vm_compute. reflexivity. }
  cbn zeta. split; [exact H1|]. split; [exact H2|].
  split; [exact (H3 "B"%string ltac:(discriminate))|].
  split; [exact (H4 "A"%string ltac:(discriminate))|].
  split; [exact H5 | exact H6].
Defined.

(** *** Active chats *)

(** X8. [removeActiveChat] forgets the chat before it ends the session in
    the database: the row of the session is closed with [message_count] 0,
    whatever the count of the chat was, and the chat is gone from the
    map. *)
Theorem removeActiveChat_ends_with_zero (now : Z) (id : string)
        (st : Storage.t) :
  activeChats (removeActiveChat now id st) !! id = None
  /\ forall row, In row (chatSessions (db (removeActiveChat now id st))) ->
       rSessionId row = id ->
       rMessageCount row = 0%nat /\ rIsActive row = false
       /\ rEndedAt row = Some (now / 1000)%Z.
Proof.
  unfold removeActiveChat, endChatSession.
  cbn [activeChats setActiveChats setDb db chatSessions].
  rewrite lookup_delete_eq. split; [reflexivity|].
  intros row Hin Hid. apply in_map_iff in Hin.
  destruct Hin as (r0 & E & _). unfold endRow in E.
  destruct (String.eqb_spec (rSessionId r0) id) as [Hr|Hr].
  - subst row. cbn. auto.
  - subst row. contradiction.
Qed.

(** *** The rate limiter *)

Lemma find_map_same (f : RateLimitRow -> bool)
      (g : RateLimitRow -> RateLimitRow) (l : list RateLimitRow) :
  (forall r, g r = r \/ (f r = false /\ f (g r) = false)) ->
  List.find f (List.map g l) = List.find f l.
Proof.
  intros H. induction l as [|r l IH]; cbn; [reflexivity|].
  destruct (H r) as [->|[-> ->]]; rewrite IH; reflexivity.
Qed.

Lemma inWindow_other (ip ip' a a' : string) (ws : Z) (r : RateLimitRow) :
  ip ≠ ip' \/ a ≠ a' ->
  rlIp r = ip -> rlActionType r = a -> inWindow ip' a' ws r = false.
Proof.
  intros Hne Hi Ha. unfold inWindow.
  destruct (String.eqb_spec (rlIp r) ip'); [|reflexivity].
  destruct (String.eqb_spec (rlActionType r) a'); [|reflexivity].
  exfalso. destruct Hne; congruence.
Qed.

(** X9. Counting a request of one source and action changes the answer of
    no check for another source or another action. *)
Theorem rate_limit_isolated (now t : Z) (ip ip' a a' : string) (L W : Z)
        (st : Storage.t) :
  ip ≠ ip' \/ a ≠ a' ->
  checkRateLimit t ip' a' L W (incrementRateLimit now ip a st)
  = checkRateLimit t ip' a' L W st.
Proof.
  intros Hne. unfold checkRateLimit, incrementRateLimit.
  cbn [db setDb rateLimits]. unfold incrementRows.
  destruct (existsb _ _).
  - rewrite find_map_same; [reflexivity|].
    intros r. unfold bumpRate.
    destruct (inWindow ip a _ r) eqn:E; [right | left; reflexivity].
    unfold inWindow in E. apply andb_true_iff in E. destruct E as [E _].
    apply andb_true_iff in E. destruct E as [E1 E2].
    apply String.eqb_eq in E1, E2.
    split; apply (inWindow_other ip ip' a a'); auto.
  - induction (rateLimits (db st)) as [|r l IH]; cbn.
    + rewrite (inWindow_other ip ip' a a'); auto.
    + destruct (inWindow ip' a' _ r); [reflexivity | exact IH].
Qed.

Lemma rate_limit_isolated_two_sources :
  checkRateLimit 2000 "10.0.0.2" "message" 20 60
    (incrementRateLimit 1000 "10.0.0.1" "message" (Storage.create 0 emptyDb))
  = checkRateLimit 2000 "10.0.0.2" "message" 20 60 (Storage.create 0 emptyDb).
Proof.
  apply (rate_limit_isolated 1000 2000 "10.0.0.1" "10.0.0.2"
           "message" "message" 20 60 (Storage.create 0 emptyDb)).
  left. discriminate.
Defined.

Lemma incrementRows_window (now t0 : Z) (ip a : string)
      (rows : list RateLimitRow) :
  (now <= t0)%Z ->
  Forall (fun r => rlIp r = ip -> rlActionType r = a ->
                   (rlWindowStart r <= toSeconds t0)%Z) rows ->
  Forall (fun r => rlIp r = ip -> rlActionType r = a ->
                   (rlWindowStart r <= toSeconds t0)%Z)
         (incrementRows now ip a rows).
Proof.
  intros Hn H. unfold incrementRows. destruct (existsb _ _).
  - apply Forall_forall. intros r Hr.
    apply list_elem_of_In, in_map_iff in Hr. destruct Hr as (r0 & <- & Hin).
    pose proof (proj1 (Forall_forall _ _) H r0
                      (proj2 (list_elem_of_In _ _) Hin)) as H0.
    unfold bumpRate. destruct (inWindow _ _ _ r0); exact H0.
  - apply Forall_app_2; [exact H|]. repeat constructor. cbn. intros _ _.
    apply RateLimitFacts.toSeconds_mono, Hn.
Qed.

(** X10. The count of a source expires: however many requests were
    counted up to the instant [t0], a check made once the window has
    passed since [t0] is allowed. *)
Theorem rate_limit_expires (ip a : string) (L W : Z) (times : list Z)
        (t0 t : Z) (st : Storage.t) :
  (forall r, In r (rateLimits (db st)) -> rlIp r = ip ->
             rlActionType r = a -> (rlWindowStart r <= toSeconds t0)%Z) ->
  Forall (fun ti => ti <= t0)%Z times ->
  (toSeconds t0 < toSeconds (t - W * 1000))%Z ->
  checkRateLimit t ip a L W
    (fold_left (fun s ti => incrementRateLimit ti ip a s) times st) = true.
Proof.
  intros H0 Ht Hw.
  assert (R : Forall (fun r => rlIp r = ip -> rlActionType r = a ->
                               (rlWindowStart r <= toSeconds t0)%Z)
                (rateLimits
                   (db (fold_left
                          (fun s ti => incrementRateLimit ti ip a s)
                          times st)))).
  { assert (S0 : Forall (fun r => rlIp r = ip -> rlActionType r = a ->
                                  (rlWindowStart r <= toSeconds t0)%Z)
                   (rateLimits (db st))).
    { apply Forall_forall. intros r Hr. apply H0, list_elem_of_In, Hr. }
    clear H0. revert st S0.
    induction Ht as [|ti times Hti _ IH]; intros st S0; [exact S0|].
    cbn [fold_left]. apply IH. unfold incrementRateLimit.
    cbn [db setDb rateLimits]. apply incrementRows_window; assumption. }
  unfold checkRateLimit.
  destruct (List.find _ _) as [r|] eqn:F; [|reflexivity].
  apply find_some in F. destruct F as [Hin Hr].
  unfold inWindow in Hr. apply andb_true_iff in Hr. destruct Hr as [Hr Hws].
  apply andb_true_iff in Hr. destruct Hr as [E1 E2].
  apply String.eqb_eq in E1, E2. apply Z.leb_le in Hws.
  pose proof (proj1 (Forall_forall _ _) R r
                    (proj2 (list_elem_of_In _ _) Hin) E1 E2). lia.
Qed.

Lemma rate_limit_expires_after_a_minute :
  checkRateLimit 62000 "10.0.0.1" "connection" 5 60
    (fold_left (fun s ti => incrementRateLimit ti "10.0.0.1" "connection" s)
               [100; 200; 300; 400; 500; 600]%Z
               (Storage.create 0 emptyDb)) = true.
Proof.
  apply (rate_limit_expires "10.0.0.1" "connection" 5 60
           [100; 200; 300; 400; 500; 600]%Z 1000 62000
           (Storage.create 0 emptyDb)).
  - intros r [].
  - repeat constructor; lia.
  - vm_compute. reflexivity.
Defined.

End StorageFacts.

(** ** What one handler does *)

Module HandlerFacts.
Import JsString Schema ProfanityFilter Storage Routes Run Notions.

(** *** The message log *)

Lemma logged_app (a b : list Effect) : logged (a ++ b) = logged a ++ logged b.
Proof. unfold logged. apply flat_map_app. Qed.

Lemma logged_sendToUser (sv : Server) (k : string) (f : ServerFrame) :
  logged (sendToUser sv k f) = [].
Proof.
  unfold sendToUser. destruct (connectedUsers sv !! k) as [u|]; [|reflexivity].
  destruct (socketOpen u); reflexivity.
Qed.

Lemma log_matchLoop (now : Z) (uuid : nat -> string)
      (ws : list WaitingUser) :
  forall (n : nat) (sv : Server),
    messageLog (matchLoop now uuid n ws sv).1 = messageLog sv
    /\ logged (matchLoop now uuid n ws sv).2 = [].
Proof.
  induction ws as [|a|a b rest IH] using PairingFacts.pairs_ind;
    intros n sv; [auto | auto |].
  cbn [matchLoop].
  destruct (connectedUsers sv !! wId a) as [ua|];
    destruct (connectedUsers sv !! wId b) as [ub|];
    try (match goal with
         | |- context [matchLoop _ _ n rest ?s] =>
             destruct (IH n s) as [H1 H2];
             split; [rewrite H1; reflexivity | exact H2]
         end).
  match goal with
  | |- context [matchLoop now uuid (S n) rest ?s] => set (sv' := s)
  end.
  destruct (IH (S n) sv') as [H1 H2].
  destruct (matchLoop now uuid (S n) rest sv') as [sv2 out].
  cbn [fst snd] in *. split; [rewrite H1; reflexivity|].
  rewrite !logged_app, !logged_sendToUser, H2. reflexivity.
Qed.

Lemma log_logFlagged (now : Z) (user : ConnectedUser) (c : JsString.t)
      (why : string) (sv : Server) :
  messageLog (logFlagged now user c why sv).1
  = messageLog sv ++ logged (logFlagged now user c why sv).2.
Proof.
  unfold logFlagged, messageLog.
  destruct (roomId user) as [r|]; [|cbn; rewrite app_nil_r; reflexivity].
  destruct (truthy (Some r)); [reflexivity|].
  cbn. rewrite app_nil_r. reflexivity.
Qed.

Lemma log_countAndLog (now : Z) (user : ConnectedUser) (c : JsString.t)
      (res : FilterResult) (sv : Server) :
  messageLog (countAndLog now user c res sv).1
  = messageLog sv ++ logged (countAndLog now user c res sv).2.
Proof.
  unfold countAndLog, messageLog.
  destruct (roomId user) as [r|]; [|cbn; rewrite app_nil_r; reflexivity].
  destruct (truthy (Some r)); [|cbn; rewrite app_nil_r; reflexivity].
  cbn [fst snd storage setStorage logged flat_map app].
  unfold logMessage, incrementTodayMessages, checkDailyReset.
  destruct (_ =? _)%Z; reflexivity.
Qed.

Lemma log_moderateAndRelay (now : Z) (uuid : nat -> string)
      (userId : string) (user : ConnectedUser) (data : Payload)
      (sv : Server) :
  messageLog (moderateAndRelay now uuid userId user data sv).1
  = messageLog sv ++ logged (moderateAndRelay now uuid userId user data sv).2.
Proof.
  unfold moderateAndRelay.
  destruct (messageSchema_parse data) as [content|].
  2:{ cbn [fst snd]. rewrite logged_sendToUser, app_nil_r. reflexivity. }
  destruct (isSpam _).
  { pose proof (log_logFlagged now user (sanitizeMessage content) "spam" sv).
    destruct (logFlagged _ _ _ _ _) as [sv' out']. cbn [fst snd] in *.
    rewrite logged_app, logged_sendToUser. assumption. }
  destruct (checkProfanity _ _) as [res tb1].
  destruct (severity res).
  - pose proof (log_countAndLog now user (sanitizeMessage content) res
                                (setFilter tb1 (setFilter tb1 sv))) as H.
    destruct (countAndLog _ _ _ _ _) as [sv' out']. cbn [fst snd] in *.
    rewrite logged_app. rewrite H.
    destruct (partnerId user); [rewrite logged_sendToUser|]; reflexivity.
  - destruct (filterContent _ _) as [c' tb2].
    pose proof (log_countAndLog now user c' res
                                (setFilter tb2 (setFilter tb1 sv))) as H.
    destruct (countAndLog _ _ _ _ _) as [sv' out']. cbn [fst snd] in *.
    rewrite logged_app. rewrite H.
    destruct (partnerId user); [rewrite logged_sendToUser|]; reflexivity.
  - pose proof (log_logFlagged now user (sanitizeMessage content) "profanity"
                               (setFilter tb1 sv)) as H.
    destruct (logFlagged _ _ _ _ _) as [sv' out']. cbn [fst snd] in *.
    rewrite logged_app, logged_sendToUser. exact H.
Qed.

Lemma log_unlinkPartner (sv : Server) (u : ConnectedUser) :
  messageLog (unlinkPartner sv u).1 = messageLog sv
  /\ logged (unlinkPartner sv u).2 = [].
Proof.
  unfold unlinkPartner. destruct (partnerId u) as [p|]; [|auto].
  destruct (truthy _); [|auto]. cbn [fst snd].
  split; [reflexivity | apply logged_sendToUser].
Qed.

Lemma log_removeRoom (now : Z) (room : option string) (sv : Server) :
  messageLog (removeRoom now room sv) = messageLog sv.
Proof.
  unfold removeRoom. destruct room; [|reflexivity].
  destruct (truthy _); reflexivity.
Qed.

Lemma log_onMessage (now : Z) (uuid : nat -> string) (userId : string)
      (raw : Inbound) (sv : Server) :
  messageLog (onMessage now uuid userId raw sv).1
  = messageLog sv ++ logged (onMessage now uuid userId raw sv).2.
Proof.
  unfold onMessage.
  destruct (connectedUsers sv !! userId) as [u|];
    [|cbn; rewrite app_nil_r; reflexivity].
  destruct raw as [|type data]; [cbn; rewrite app_nil_r; reflexivity|].
  destruct (String.eqb type JOIN_QUEUE).
  { unfold onJoinQueue. destruct (truthy _).
    - cbn [fst snd]. rewrite logged_sendToUser, app_nil_r. reflexivity.
    - unfold matchUsers.
      match goal with
      | |- context [matchLoop now uuid 0 ?l ?s] =>
          destruct (log_matchLoop now uuid l 0 s) as [H1 H2];
          destruct (matchLoop now uuid 0 l s) as [sv2 out]
      end.
      cbn [fst snd] in *.
      rewrite logged_app, logged_sendToUser, H1, H2, app_nil_r. reflexivity. }
  destruct (String.eqb type LEAVE_QUEUE);
    [cbn; rewrite app_nil_r; reflexivity|].
  destruct (String.eqb type SEND_MESSAGE).
  { unfold onSendMessage. destruct (negb (truthy _)).
    - cbn [fst snd]. rewrite logged_sendToUser, app_nil_r. reflexivity.
    - destruct (negb (checkRateLimit _ _ _ _ _ _)).
      + cbn [fst snd logged flat_map app].
        fold (logged (sendToUser sv userId
                (RATE_LIMITED "Slow down! You are sending messages too fast."))).
        rewrite logged_sendToUser, app_nil_r. reflexivity.
      + set (sv1 := setStorage _ sv).
        pose proof (log_moderateAndRelay now uuid userId u data sv1) as H.
        destruct (moderateAndRelay _ _ _ _ _ _) as [sv' out].
        cbn [fst snd] in *. rewrite H. reflexivity. }
  assert (F : forall f, messageLog (forwardToPartner u f sv).1
                        = messageLog sv ++ logged (forwardToPartner u f sv).2).
  { intros f. unfold forwardToPartner.
    destruct (partnerId u); [|cbn; rewrite app_nil_r; reflexivity].
    destruct (truthy _); cbn [fst snd];
      [rewrite logged_sendToUser|]; rewrite app_nil_r; reflexivity. }
  destruct (String.eqb type TYPING); [apply F|].
  destruct (String.eqb type STOP_TYPING); [apply F|].
  destruct (String.eqb type DISCONNECT_CHAT);
    [|cbn; rewrite app_nil_r; reflexivity].
  unfold onDisconnectChat.
  destruct (log_unlinkPartner sv u) as [H1 H2].
  destruct (unlinkPartner sv u) as [sv1 out]. cbn [fst snd] in *.
  rewrite H2, app_nil_r.
  unfold messageLog at 1. cbn [storage setUsers].
  fold (messageLog (removeRoom now
          match connectedUsers sv1 !! userId with
          | Some x => roomId x
          | None => roomId u
          end sv1)).
  rewrite log_removeRoom. exact H1.
Qed.

(** X11. The message log is append-only. A frame appends to
    [chat_messages] exactly the rows its handler reports as logged, and
    rewrites or removes no earlier row; accepting a socket and closing one
    leave the log as it is. *)
Theorem message_log_append_only :
  (forall now uuid userId raw sv,
      messageLog (onMessage now uuid userId raw sv).1
      = messageLog sv ++ logged (onMessage now uuid userId raw sv).2)
  /\ (forall now userId ip sv,
         messageLog (onConnection now userId ip sv).1 = messageLog sv)
  /\ (forall now userId sv,
         messageLog (handleDisconnect now userId sv).1 = messageLog sv).
Proof.
  split; [exact log_onMessage|]. split.
  - intros now userId ip sv. unfold onConnection.
    destruct (isIpBanned _ _); [reflexivity|].
    destruct (negb _); reflexivity.
  - intros now userId sv. unfold handleDisconnect.
    destruct (connectedUsers sv !! userId) as [u|]; [|reflexivity].
    destruct (log_unlinkPartner sv u) as [H1 _].
    destruct (unlinkPartner sv u) as [sv1 out]. cbn [fst] in *.
    unfold messageLog at 1. cbn [storage setUsers setStorage].
    unfold removeWaitingUser. cbn [db setWaitingUsers].
    fold (messageLog (removeRoom now
            match connectedUsers sv1 !! userId with
            | Some x => roomId x
            | None => roomId u
            end sv1)).
    rewrite log_removeRoom. exact H1.
Qed.

(** *** Closing twice *)

(** X12. Closing a socket a second time does nothing: after
    [handleDisconnect] the session is gone from the registry and from the
    queue, and a second [handleDisconnect] for the same id returns the
    state unchanged and emits no frame. *)
Theorem handleDisconnect_twice (now now' : Z) (userId : string)
        (sv : Server) :
  let sv' := (handleDisconnect now userId sv).1 in
  connectedUsers sv' !! userId = None
  /\ (is_Some (connectedUsers sv !! userId) ->
      entriesOf userId (waitingUsers (storage sv')) = [])
  /\ handleDisconnect now' userId sv' = (sv', []).
Proof.
  assert (G : connectedUsers (handleDisconnect now userId sv).1 !! userId
              = None).
  { unfold handleDisconnect.
    destruct (connectedUsers sv !! userId) as [u|] eqn:Hu; [|exact Hu].
    destruct (unlinkPartner sv u) as [sv1 out].
    cbn [fst connectedUsers setUsers]. apply lookup_delete_eq. }
  cbn zeta. split; [exact G|]. split.
  - intros [u Hu]. unfold handleDisconnect. rewrite Hu.
    destruct (unlinkPartner sv u) as [sv1 out].
    cbn [fst storage setUsers setStorage].
    unfold removeWaitingUser. cbn [waitingUsers setWaitingUsers].
    apply StorageFacts.mapDelete_entries.
  - unfold handleDisconnect at 1. rewrite G. reflexivity.
Qed.

(** *** Who gets what *)

Lemma sends_sendToUser (sv : Server) (k to_ : string) (f g : ServerFrame) :
  In (Send to_ g) (sendToUser sv k f) -> to_ = k /\ g = f.
Proof.
  intros H. apply MessageFacts.in_sendToUser in H. injection H as -> ->. auto.
Qed.

(** The frames of the moderated part of [send_message]: a refusal to the
    sender, or the message to the partner, carrying the sanitized content
    or its masked form. *)
Lemma moderateAndRelay_sends (now : Z) (uuid : nat -> string)
      (userId : string) (user : ConnectedUser) (data : Payload)
      (sv : Server) (to_ : string) (f : ServerFrame) :
  In (Send to_ f) (moderateAndRelay now uuid userId user data sv).2 ->
  (to_ = userId /\ isRefusal f = true)
  \/ (partnerId user = Some to_
      /\ exists c, f = MESSAGE_RECEIVED
                         (mkChatMessage (uuid 0%nat) c userId now
                                        None None None None)
                   /\ exists raw, dContent data = Some raw
                      /\ (c = sanitizeMessage raw
                          \/ exists tb,
                               c = (filterContent (sanitizeMessage raw) tb).1)).
Proof.
  unfold moderateAndRelay, messageSchema_parse.
  destruct (dContent data) as [raw|] eqn:Hd.
  2:{ intros H. apply sends_sendToUser in H. destruct H as [-> ->]. auto. }
  destruct (_ && _).
  2:{ intros H. apply sends_sendToUser in H. destruct H as [-> ->]. auto. }
  destruct (isSpam _).
  { pose proof (MessageFacts.in_logFlagged now user (sanitizeMessage raw)
                  "spam" sv (Send to_ f)) as L.
    destruct (logFlagged _ _ _ _ _) as [sv' out']. cbn [snd] in *.
    intros H. apply in_app_or in H. destruct H as [H|H].
    - apply sends_sendToUser in H. destruct H as [-> ->]. auto.
    - destruct (L H) as [r Hr]. discriminate. }
  destruct (checkProfanity _ _) as [res tb1].
  assert (C : forall c sv0, ~ In (Send to_ f) (countAndLog now user c res sv0).2).
  { intros c sv0. unfold countAndLog. destruct (roomId user); [|intros []].
    destruct (truthy _); [|intros []]. cbn.
    intros [H|[H|[H|[]]]]; discriminate. }
  destruct (severity res).
  - pose proof (C (sanitizeMessage raw) (setFilter tb1 (setFilter tb1 sv))) as C'.
    destruct (countAndLog _ _ _ _ _) as [sv' out']. cbn [snd] in *.
    intros H. apply in_app_or in H. destruct H as [H|H]; [|contradiction].
    destruct (partnerId user) as [p|]; [|destruct H].
    apply sends_sendToUser in H. destruct H as [-> ->]. right.
    split; [reflexivity|]. eexists. split; [reflexivity|].
    exists raw. auto.
  - destruct (filterContent (sanitizeMessage raw) tb1) as [c' tb2] eqn:Fc.
    pose proof (C c' (setFilter tb2 (setFilter tb1 sv))) as C'.
    destruct (countAndLog _ _ _ _ _) as [sv' out']. cbn [snd] in *.
    intros H. apply in_app_or in H. destruct H as [H|H]; [|contradiction].
    destruct (partnerId user) as [p|]; [|destruct H].
    apply sends_sendToUser in H. destruct H as [-> ->]. right.
    split; [reflexivity|]. eexists. split; [reflexivity|].
    exists raw. split; [reflexivity|]. right. exists tb1. rewrite Fc.
    reflexivity.
  - pose proof (MessageFacts.in_logFlagged now user (sanitizeMessage raw)
                  "profanity" (setFilter tb1 sv) (Send to_ f)) as L.
    destruct (logFlagged _ _ _ _ _) as [sv' out']. cbn [snd] in *.
    intros H. apply in_app_or in H. destruct H as [H|H].
    + apply sends_sendToUser in H. destruct H as [-> ->]. auto.
    + destruct (L H) as [r Hr]. discriminate.
Qed.

Lemma onSendMessage_sends (now : Z) (uuid : nat -> string)
      (userId : string) (user : ConnectedUser) (data : Payload)
      (sv : Server) (to_ : string) (f : ServerFrame) :
  In (Send to_ f) (onSendMessage now uuid userId user data sv).2 ->
  (to_ = userId /\ isRefusal f = true)
  \/ (partnerId user = Some to_
      /\ exists c, f = MESSAGE_RECEIVED
                         (mkChatMessage (uuid 0%nat) c userId now
                                        None None None None)
                   /\ exists raw, dContent data = Some raw
                      /\ (c = sanitizeMessage raw
                          \/ exists tb,
                               c = (filterContent (sanitizeMessage raw) tb).1)).
Proof.
  unfold onSendMessage. destruct (negb (truthy _)).
  { intros H. apply sends_sendToUser in H. destruct H as [-> ->]. auto. }
  destruct (negb (checkRateLimit _ _ _ _ _ _)).
  { intros [H|H]; [discriminate|].
    apply sends_sendToUser in H. destruct H as [-> ->]. auto. }
  set (sv1 := setStorage _ sv).
  pose proof (moderateAndRelay_sends now uuid userId user data sv1 to_ f) as M.
  destruct (moderateAndRelay _ _ _ _ _ _) as [sv' out]. cbn [snd] in *.
  intros [H|[H|H]]; try discriminate. exact (M H).
Qed.

(** X13. A [send_message] reaches the sender and its partner only: every
    frame the handler emits is a refusal (error, rate-limited or flagged)
    to the sender, or a [message_received] to the session the sender has
    as partner, naming the sender and the instant of the step. *)
Theorem send_message_recipients (now : Z) (uuid : nat -> string)
        (userId : string) (user : ConnectedUser) (data : Payload)
        (sv : Server) (to_ : string) (f : ServerFrame) :
  connectedUsers sv !! userId = Some user ->
  In (Send to_ f)
     (onMessage now uuid userId (Frame SEND_MESSAGE data) sv).2 ->
  (to_ = userId /\ isRefusal f = true)
  \/ (partnerId user = Some to_
      /\ exists m, f = MESSAGE_RECEIVED m
                   /\ senderId m = userId /\ timestamp m = now).
Proof.
  intros Hu. rewrite (MessageFacts.onMessage_send_message _ _ _ _ _ _ Hu).
  intros H. apply onSendMessage_sends in H.
  destruct H as [H|(Hp & c & -> & _)]; [auto|].
  right. split; [exact Hp|]. eexists. split; [reflexivity|]. auto.
Qed.

Lemma send_message_recipients_hello :
  let f := MESSAGE_RECEIVED (mkChatMessage "room" (lit "hello") "A" 5
                                           None None None None) in
  ("B"%string = "A"%string /\ isRefusal f = true)
  \/ (Some "B"%string = Some "B"%string
      /\ exists m, f = MESSAGE_RECEIVED m
                   /\ senderId m = "A"%string /\ timestamp m = 5%Z).
Proof.
  apply (send_message_recipients 5 Scenario.uuid "A"
           (mkUser "A" true "10.0.0.1" (Some "B"%string)
                   (Some "room"%string))
           (contentData (lit "hello")) Scenario.paired "B").
  - reflexivity.
  - vm_compute. tauto.
Defined.

(** X14. What is relayed is sanitized: the content of every
    [message_received] frame a [send_message] emits has at most 2000 code
    units and none of the characters < > and the two quotes. *)
Theorem relayed_content_safe (now : Z) (uuid : nat -> string)
        (userId : string) (data : Payload) (sv : Server) (to_ : string)
        (m : ChatMessage) :
  In (Send to_ (MESSAGE_RECEIVED m))
     (onMessage now uuid userId (Frame SEND_MESSAGE data) sv).2 ->
  (length (content m) <= 2000)%nat
  /\ Forall (fun c => isMarkup c = false) (content m).
Proof.
  destruct (connectedUsers sv !! userId) as [user|] eqn:Hu.
  2:{ unfold onMessage. rewrite Hu. intros []. }
  rewrite (MessageFacts.onMessage_send_message _ _ _ _ _ _ Hu).
  intros H. apply onSendMessage_sends in H.
  destruct H as [[_ H]|(_ & c & E & raw & _ & Hc)]; [discriminate|].
  injection E as ->. cbn [content].
  destruct Hc as [->|[tb ->]].
  - split; [apply SanitizeFacts.sanitizeMessage_length
           | apply SanitizeFacts.sanitizeMessage_no_markup].
  - split.
    + rewrite SanitizeFacts.filterContent_length.
      apply SanitizeFacts.sanitizeMessage_length.
    + apply SanitizeFacts.filterContent_Forall; [reflexivity|].
      apply SanitizeFacts.sanitizeMessage_no_markup.
Qed.

Lemma relayed_content_safe_markup :
  let m := mkChatMessage "room" (lit "&lt;b&gt;hi&lt;/b&gt;") "A" 5
                         None None None None in
  (length (content m) <= 2000)%nat
  /\ Forall (fun c => isMarkup c = false) (content m).
Proof.
  apply (relayed_content_safe 5 Scenario.uuid "A"
           (contentData (lit "<b>hi</b>")) Scenario.paired "B").
  vm_compute. tauto.
Defined.

End HandlerFacts.

(** ** Sessions in the states the server reaches *)

Module SessionFacts.
Import JsString Schema ProfanityFilter Storage Routes Run Notions.

(** What the links give of the partner of a paired session. *)
Lemma partner_facts (sv : Server) (k p : string) (u : ConnectedUser) :
  Inv sv -> connectedUsers sv !! k = Some u -> partnerId u = Some p ->
  exists v, connectedUsers sv !! p = Some v
            /\ partnerId v = Some k /\ roomId v = roomId u
            /\ socketOpen v = true /\ p ≠ k /\ truthy (Some p) = true.
Proof.
  intros I Hu Hp.
  destruct (PairingFacts.inv_linked _ _ I k u Hu) as [_ Hl].
  destruct (Hl p Hp) as (v & Hv & Hvp & Hvr).
  destruct (PairingFacts.inv_key _ _ I p v Hv) as (_ & Hne & Hopen).
  exists v. repeat split; try assumption.
  - intros ->. apply (PairingFacts.inv_noself _ _ I k u Hu Hp).
  - cbn. destruct (String.eqb_spec p EmptyString); [contradiction|reflexivity].
Qed.

Lemma unlinkPartner_paired (sv : Server) (k p : string)
      (u : ConnectedUser) :
  Inv sv -> connectedUsers sv !! k = Some u -> partnerId u = Some p ->
  unlinkPartner sv u
  = (setUsers (alter (link None None) p (connectedUsers sv)) sv,
     [Send p PARTNER_DISCONNECTED]).
Proof.
  intros I Hu Hp.
  destruct (partner_facts sv k p u I Hu Hp) as (v & Hv & _ & _ & Ho & _ & T).
  unfold unlinkPartner. rewrite Hp, T. unfold sendToUser. rewrite Hv, Ho.
  reflexivity.
Qed.

Lemma removeRoom_chats (now : Z) (room : string) (sv : Server) :
  room ≠ EmptyString ->
  activeChats (storage (removeRoom now (Some room) sv)) !! room = None.
Proof.
  intros Hne. unfold removeRoom. cbn [truthy].
  destruct (String.eqb_spec room EmptyString); [contradiction|].
  cbn. apply lookup_delete_eq.
Qed.

Lemma truthy_nonempty (p : string) :
  p ≠ EmptyString -> truthy (Some p) = true.
Proof.
  intros H. cbn. destruct (String.eqb_spec p EmptyString);
    [contradiction | reflexivity].
Qed.

(** [unlinkPartner] for a session whose partner is registered, whatever
    the state of the partner's socket. *)
Lemma unlinkPartner_registered (sv : Server) (p : string)
      (u v : ConnectedUser) :
  partnerId u = Some p -> p ≠ EmptyString ->
  connectedUsers sv !! p = Some v ->
  unlinkPartner sv u
  = (setUsers (alter (link None None) p (connectedUsers sv)) sv,
     sentIfOpen v p PARTNER_DISCONNECTED).
Proof.
  intros Hp Hne Hv. unfold unlinkPartner.
  rewrite Hp, (truthy_nonempty p Hne). unfold sendToUser, sentIfOpen.
  rewrite Hv. reflexivity.
Qed.

(** X15. The close of the socket of a session whose partner is another
    registered session, whatever the state of the partner's socket: the
    partner is sent [partner_disconnected] if its socket is open and
    nothing otherwise, and nobody else is sent a frame; the session leaves
    the registry; the partner stays, without partner and room; no other
    session changes; the room, if its id is not empty, leaves the active
    chats. *)
Theorem close_of_paired_session (now : Z) (k p : string)
        (u v : ConnectedUser) (sv : Server) :
  connectedUsers sv !! k = Some u ->
  partnerId u = Some p ->
  p ≠ EmptyString ->
  p ≠ k ->
  connectedUsers sv !! p = Some v ->
  let r := handleDisconnect now k sv in
  r.2 = (if socketOpen v then [Send p PARTNER_DISCONNECTED] else [])
  /\ connectedUsers r.1 !! k = None
  /\ connectedUsers r.1 !! p = Some (link None None v)
  /\ (forall j, j ≠ k -> j ≠ p ->
                connectedUsers r.1 !! j = connectedUsers sv !! j)
  /\ (forall room, roomId u = Some room -> room ≠ EmptyString ->
                   activeChats (storage r.1) !! room = None).
Proof.
  intros Hu Hp Hpe Hne Hv. cbn zeta. unfold handleDisconnect.
  rewrite Hu, (unlinkPartner_registered sv p u v Hp Hpe Hv).
  cbn [connectedUsers setUsers].
  rewrite lookup_alter_ne, Hu by exact Hne.
  set (sv1 := setUsers _ sv).
  destruct (PairingFacts.frame_removeRoom now (roomId u) sv1) as [Rcu _].
  cbn [fst snd connectedUsers setUsers setStorage]. rewrite Rcu.
  unfold sv1. cbn [connectedUsers setUsers].
  split; [reflexivity|]. split; [apply lookup_delete_eq|]. split; [|split].
  - rewrite lookup_delete_ne, lookup_alter_eq, Hv by congruence. reflexivity.
  - intros j Hj Hjp.
    rewrite lookup_delete_ne, lookup_alter_ne by congruence. reflexivity.
  - intros room Hr Hroom. rewrite Hr.
    cbn [storage setUsers setStorage].
    unfold removeWaitingUser. cbn [activeChats setWaitingUsers].
    apply removeRoom_chats, Hroom.
Qed.

(** The partner's socket is closing when the socket of A closes. *)
Lemma close_of_paired_session_A :
  let sv := socketGone "B" Scenario.paired in
  let v := mkUser "B" false "10.0.0.2" (Some "A"%string)
                  (Some "room"%string) in
  let r := handleDisconnect 5 "A" sv in
  r.2 = (if socketOpen v then [Send "B" PARTNER_DISCONNECTED] else [])
  /\ connectedUsers r.1 !! "A"%string = None
  /\ connectedUsers r.1 !! "B"%string = Some (link None None v)
  /\ (forall j, j ≠ "A"%string -> j ≠ "B"%string ->
                connectedUsers r.1 !! j = connectedUsers sv !! j)
  /\ (forall room, Some "room"%string = Some room -> room ≠ EmptyString ->
                   activeChats (storage r.1) !! room = None).
Proof.
  apply (close_of_paired_session 5 "A" "B"
           (mkUser "A" true "10.0.0.1" (Some "B"%string)
                   (Some "room"%string))
           (mkUser "B" false "10.0.0.2" (Some "A"%string)
                   (Some "room"%string))
           (socketGone "B" Scenario.paired)).
  - reflexivity.
  - reflexivity.
  - discriminate.
  - discriminate.
  - reflexivity.
Defined.

(** X16. [disconnect_chat] from a session whose partner is another
    registered session, whatever the state of the partner's socket: the
    partner is sent [partner_disconnected] if its socket is open and
    nothing otherwise, and nobody else is sent a frame; both sessions stay
    registered, without partner and room; no other session changes;
    neither of the two is put in the queue; the room, if its id is not
    empty, leaves the active chats. *)
Theorem disconnect_chat_of_paired_session (now : Z) (uuid : nat -> string)
        (k p : string) (u v : ConnectedUser) (data : Payload) (sv : Server) :
  connectedUsers sv !! k = Some u ->
  partnerId u = Some p ->
  p ≠ EmptyString ->
  p ≠ k ->
  connectedUsers sv !! p = Some v ->
  let r := onMessage now uuid k (Frame DISCONNECT_CHAT data) sv in
  r.2 = (if socketOpen v then [Send p PARTNER_DISCONNECTED] else [])
  /\ connectedUsers r.1 !! k = Some (link None None u)
  /\ connectedUsers r.1 !! p = Some (link None None v)
  /\ (forall j, j ≠ k -> j ≠ p ->
                connectedUsers r.1 !! j = connectedUsers sv !! j)
  /\ waitingUsers (storage r.1) = waitingUsers (storage sv)
  /\ (forall room, roomId u = Some room -> room ≠ EmptyString ->
                   activeChats (storage r.1) !! room = None).
Proof.
  intros Hu Hp Hpe Hne Hv. cbn zeta.
  assert (E : onMessage now uuid k (Frame DISCONNECT_CHAT data) sv
              = onDisconnectChat now k u sv).
  { unfold onMessage. rewrite Hu. reflexivity. }
  rewrite E. unfold onDisconnectChat.
  rewrite (unlinkPartner_registered sv p u v Hp Hpe Hv).
  cbn [connectedUsers setUsers].
  rewrite lookup_alter_ne, Hu by exact Hne.
  set (sv1 := setUsers _ sv).
  destruct (PairingFacts.frame_removeRoom now (roomId u) sv1) as [Rcu Rwu].
  cbn [fst snd connectedUsers storage setUsers]. rewrite Rcu, Rwu.
  unfold sv1. cbn [connectedUsers storage setUsers].
  split; [reflexivity|]. split; [|split; [|split; [|split]]].
  - rewrite lookup_alter_eq, lookup_alter_ne, Hu by exact Hne. reflexivity.
  - rewrite lookup_alter_ne, lookup_alter_eq, Hv by congruence. reflexivity.
  - intros j Hj Hjp. rewrite !lookup_alter_ne by congruence. reflexivity.
  - reflexivity.
  - intros room Hr Hroom. rewrite Hr. apply removeRoom_chats, Hroom.
Qed.

Lemma disconnect_chat_of_paired_session_A :
  let u := mkUser "A" true "10.0.0.1" (Some "B"%string)
                  (Some "room"%string) in
  let v := mkUser "B" true "10.0.0.2" (Some "A"%string)
                  (Some "room"%string) in
  let r := onMessage 5 Scenario.uuid "A" (Frame DISCONNECT_CHAT noData)
                     Scenario.paired in
  r.2 = (if socketOpen v then [Send "B" PARTNER_DISCONNECTED] else [])
  /\ connectedUsers r.1 !! "A"%string = Some (link None None u)
  /\ connectedUsers r.1 !! "B"%string = Some (link None None v)
  /\ (forall j, j ≠ "A"%string -> j ≠ "B"%string ->
                connectedUsers r.1 !! j = connectedUsers Scenario.paired !! j)
  /\ waitingUsers (storage r.1) = waitingUsers (storage Scenario.paired)
  /\ (forall room, Some "room"%string = Some room -> room ≠ EmptyString ->
                   activeChats (storage r.1) !! room = None).
Proof.
  apply (disconnect_chat_of_paired_session 5 Scenario.uuid "A" "B"
           (mkUser "A" true "10.0.0.1" (Some "B"%string)
                   (Some "room"%string))
           (mkUser "B" true "10.0.0.2" (Some "A"%string)
                   (Some "room"%string))
           noData Scenario.paired).
  - reflexivity.
  - reflexivity.
  - discriminate.
  - discriminate.
  - reflexivity.
Defined.

(** X17. The typing indicators of a session with a partner: [typing]
    and [stop_typing] change nothing and send at most one frame. The frame
    goes to the partner, and it is sent exactly when the partner is
    registered and its socket is open; a partner whose socket is not open
    any more, or who is gone, is sent nothing. *)
Theorem typing_goes_to_partner_only (now : Z) (uuid : nat -> string)
        (k p : string) (u : ConnectedUser) (data : Payload) (sv : Server) :
  connectedUsers sv !! k = Some u ->
  partnerId u = Some p ->
  p ≠ EmptyString ->
  let sent (f : ServerFrame) :=
    match connectedUsers sv !! p with
    | Some v => if socketOpen v then [Send p f] else []
    | None => []
    end in
  onMessage now uuid k (Frame TYPING data) sv = (sv, sent PARTNER_TYPING)
  /\ onMessage now uuid k (Frame STOP_TYPING data) sv
     = (sv, sent PARTNER_STOPPED_TYPING).
Proof.
  intros Hu Hp Hpe. cbn zeta.
  assert (F : forall f, forwardToPartner u f sv = (sv, sendToUser sv p f)).
  { intros f. unfold forwardToPartner.
    rewrite Hp, (truthy_nonempty p Hpe). reflexivity. }
  unfold onMessage. rewrite Hu.
  split; apply F.
Qed.

(** The partner's socket is closing while A types. *)
Lemma typing_goes_to_partner_only_A :
  let sv := socketGone "B" Scenario.paired in
  onMessage 5 Scenario.uuid "A" (Frame TYPING noData) sv = (sv, [])
  /\ onMessage 5 Scenario.uuid "A" (Frame STOP_TYPING noData) sv = (sv, []).
Proof.
  apply (typing_goes_to_partner_only 5 Scenario.uuid "A" "B"
           (mkUser "A" true "10.0.0.1" (Some "B"%string)
                   (Some "room"%string))
           noData (socketGone "B" Scenario.paired)).
  - reflexivity.
  - reflexivity.
  - discriminate.
Defined.

(** X18. A session without partner, in a state the server reaches:
    [typing], [stop_typing] and [disconnect_chat] from it emit nothing and
    leave the state as it is, and [send_message] is answered with one
    ERROR frame and leaves the state as it is. *)
Theorem frames_without_partner (now : Z) (uuid : nat -> string)
        (k : string) (u : ConnectedUser) (data : Payload) (sv : Server) :
  reachable sv ->
  connectedUsers sv !! k = Some u ->
  partnerId u = None ->
  onMessage now uuid k (Frame TYPING data) sv = (sv, [])
  /\ onMessage now uuid k (Frame STOP_TYPING data) sv = (sv, [])
  /\ onMessage now uuid k (Frame DISCONNECT_CHAT data) sv = (sv, [])
  /\ onMessage now uuid k (Frame SEND_MESSAGE data) sv
     = (sv, [Send k (ERROR "Not connected to a partner")]).
Proof.
  intros R Hu Hp. pose proof (PairingFacts.reachable_inv sv R) as I.
  destruct (PairingFacts.inv_key _ _ I k u Hu) as (_ & _ & Ho).
  assert (Hr : roomId u = None).
  { destruct (PairingFacts.inv_linked _ _ I k u Hu) as [[_ H] _].
    destruct (roomId u); [|reflexivity].
    exfalso. apply H; [discriminate | exact Hp]. }
  unfold onMessage. rewrite Hu.
  cbv beta iota delta [String.eqb Ascii.eqb Bool.eqb
                       TYPING STOP_TYPING DISCONNECT_CHAT SEND_MESSAGE
                       JOIN_QUEUE LEAVE_QUEUE].
  unfold forwardToPartner, onDisconnectChat, unlinkPartner, onSendMessage.
  rewrite Hp. cbn [truthy negb fst snd]. rewrite Hu, Hr.
  cbn [removeRoom connectedUsers setUsers].
  repeat split.
  - rewrite alter_id.
    + rewrite DispatchFacts.setUsers_same. reflexivity.
    + intros x Hx. rewrite Hu in Hx. injection Hx as <-.
      apply DispatchFacts.link_none; assumption.
  - unfold sendToUser. rewrite Hu, Ho. reflexivity.
Qed.

Lemma frames_without_partner_A :
  onMessage 3 Scenario.uuid "A" (Frame TYPING noData) Scenario.s2
  = (Scenario.s2, [])
  /\ onMessage 3 Scenario.uuid "A" (Frame STOP_TYPING noData) Scenario.s2
     = (Scenario.s2, [])
  /\ onMessage 3 Scenario.uuid "A" (Frame DISCONNECT_CHAT noData) Scenario.s2
     = (Scenario.s2, [])
  /\ onMessage 3 Scenario.uuid "A" (Frame SEND_MESSAGE noData) Scenario.s2
     = (Scenario.s2, [Send "A" (ERROR "Not connected to a partner")]).
Proof.
  apply (frames_without_partner 3 Scenario.uuid "A"
           (mkUser "A" true "10.0.0.1" None None) noData Scenario.s2).
  - apply (reachable_step Scenario.s1);
      [|apply step_connection; [discriminate | reflexivity]].
    apply (reachable_step Scenario.s0);
      [|apply step_connection; [discriminate | reflexivity]].
    apply reachable_start.
  - reflexivity.
  - reflexivity.
Defined.

Lemma alter2_first {A : Type} (f g : A -> A) (i j : string) (x : A)
      (m : gmap string A) :
  i ≠ j -> m !! i = Some x -> alter f j (alter g i m) !! i = Some (g x).
Proof.
  intros Hne H. rewrite lookup_alter_ne, lookup_alter_eq, H by congruence.
  reflexivity.
Qed.

Lemma alter2_second {A : Type} (f g : A -> A) (i j : string) (y : A)
      (m : gmap string A) :
  i ≠ j -> m !! j = Some y -> alter f j (alter g i m) !! j = Some (f y).
Proof.
  intros Hne H. rewrite lookup_alter_eq, lookup_alter_ne, H by congruence.
  reflexivity.
Qed.

(** X19. [join_queue] from a session without partner while one other
    session waits, whatever the state of the sockets: the two become each
    other's partner in one room with a fresh id; no other session
    changes; the queue is empty and the room is among the active chats.
    The frames are [queue_joined] to the sender, then [partner_found]
    with the room id to the two, the one who joined first being served
    first; each frame is sent if the socket of its session is open and
    dropped otherwise. *)
Theorem join_queue_pairs_with_waiting (now : Z) (uuid : nat -> string)
        (k j : string) (u v : ConnectedUser) (w : WaitingUser)
        (data : Payload) (sv : Server) :
  connectedUsers sv !! k = Some u -> id u = k ->
  partnerId u = None ->
  waitingUsers (storage sv) = [(j, w)] -> wId w = j ->
  connectedUsers sv !! j = Some v -> id v = j ->
  j ≠ k ->
  let r := onMessage now uuid k (Frame JOIN_QUEUE data) sv in
  let room := uuid 0%nat in
  r.2 = sentIfOpen u k QUEUE_JOINED
        ++ (if (now <? joinedAt w)%Z
            then sentIfOpen u k (PARTNER_FOUND room)
                 ++ sentIfOpen v j (PARTNER_FOUND room)
            else sentIfOpen v j (PARTNER_FOUND room)
                 ++ sentIfOpen u k (PARTNER_FOUND room))
  /\ connectedUsers r.1 !! k = Some (link (Some j) (Some room) u)
  /\ connectedUsers r.1 !! j = Some (link (Some k) (Some room) v)
  /\ (forall i, i ≠ k -> i ≠ j ->
                connectedUsers r.1 !! i = connectedUsers sv !! i)
  /\ waitingUsers (storage r.1) = []
  /\ is_Some (activeChats (storage r.1) !! room).
Proof.
  intros Hu Hidu Hp Hwu Hw Hv Hidv Hne.
  assert (Ej : String.eqb j k = false) by (apply String.eqb_neq; exact Hne).
  assert (Ek : String.eqb k j = false) by (apply String.eqb_neq; congruence).
  cbn zeta. unfold onMessage. rewrite Hu.
  change (String.eqb JOIN_QUEUE JOIN_QUEUE) with true. cbv iota.
  unfold onJoinQueue. rewrite Hp. cbn [truthy].
  unfold matchUsers, getWaitingUsers, addWaitingUser.
  cbn [storage setStorage waitingUsers setUniqueIps setWaitingUsers wId].
  rewrite Hwu. cbn [mapSet]. rewrite Ej.
  cbn [mapSet mapValues List.map snd sortByJoinedAt insertSorted joinedAt].
  destruct (now <? joinedAt w)%Z.
  - cbn [matchLoop wId connectedUsers setStorage]. rewrite Hu, Hw, Hv.
    rewrite Hidu, Hidv. unfold sendToUser, sentIfOpen.
    cbn [fst snd connectedUsers setStorage].
    rewrite Hu.
    rewrite (alter2_first _ _ k j u _ (not_eq_sym Hne) Hu).
    rewrite (alter2_second _ _ k j v _ (not_eq_sym Hne) Hv).
    cbn [link socketOpen]. rewrite app_nil_r.
    split; [reflexivity|]. split; [reflexivity|]. split; [reflexivity|].
    split; [intros i Hi Hij; rewrite !lookup_alter_ne by congruence;
            reflexivity|].
    split.
    + unfold addActiveChat, removeWaitingUser.
      cbn [waitingUsers logChatSession setDb setWaitingUsers storage
           setStorage setUniqueIps mapDelete].
      rewrite Ej, String.eqb_refl. cbn [mapDelete]. rewrite String.eqb_refl.
      reflexivity.
    + unfold addActiveChat, logChatSession, setDb.
      cbn [storage activeChats csId].
      rewrite lookup_insert_eq. eexists. reflexivity.
  - cbn [matchLoop wId connectedUsers setStorage]. rewrite Hu, Hw, Hv.
    rewrite Hidu, Hidv. unfold sendToUser, sentIfOpen.
    cbn [fst snd connectedUsers setStorage].
    rewrite Hu.
    rewrite (alter2_first _ _ j k v _ Hne Hv).
    rewrite (alter2_second _ _ j k u _ Hne Hu).
    cbn [link socketOpen]. rewrite app_nil_r.
    split; [reflexivity|]. split; [reflexivity|]. split; [reflexivity|].
    split; [intros i Hi Hij; rewrite !lookup_alter_ne by congruence;
            reflexivity|].
    split.
    + unfold addActiveChat, removeWaitingUser.
      cbn [waitingUsers logChatSession setDb setWaitingUsers storage
           setStorage setUniqueIps mapDelete].
      rewrite String.eqb_refl. cbn [mapDelete]. rewrite Ek.
      cbn [mapDelete]. rewrite String.eqb_refl. reflexivity.
    + unfold addActiveChat, logChatSession, setDb.
      cbn [storage activeChats csId].
      rewrite lookup_insert_eq. eexists. reflexivity.
Qed.

(** B joins while A waits and the socket of A is closing: the two are
    paired, and A is sent nothing. *)
Lemma join_queue_pairs_with_waiting_B :
  let sv := socketGone "A" Scenario.s3 in
  let u := mkUser "B" true "10.0.0.2" None None in
  let v := mkUser "A" false "10.0.0.1" None None in
  let r := onMessage 4 Scenario.uuid "B" Scenario.join sv in
  let room := Scenario.uuid 0%nat in
  r.2 = [Send "B" QUEUE_JOINED; Send "B" (PARTNER_FOUND room)]
  /\ connectedUsers r.1 !! "B"%string
     = Some (link (Some "A"%string) (Some room) u)
  /\ connectedUsers r.1 !! "A"%string
     = Some (link (Some "B"%string) (Some room) v)
  /\ (forall i, i ≠ "B"%string -> i ≠ "A"%string ->
                connectedUsers r.1 !! i = connectedUsers sv !! i)
  /\ waitingUsers (storage r.1) = []
  /\ is_Some (activeChats (storage r.1) !! room).
Proof.
  apply (join_queue_pairs_with_waiting 4 Scenario.uuid "B" "A"
           (mkUser "B" true "10.0.0.2" None None)
           (mkUser "A" false "10.0.0.1" None None)
           (mkWaitingUser "A" "[object Object]" "10.0.0.1" 3)
           noData (socketGone "A" Scenario.s3)); try reflexivity.
  discriminate.
Defined.

(** X20. In every state the server reaches the queue holds at most one
    entry, and an entry of the queue belongs to a registered session that
    has neither partner nor room: two sessions never wait side by side,
    and nobody waits while in a chat. *)
Theorem queue_of_reachable_state (sv : Server) :
  reachable sv ->
  (length (getWaitingUsers (storage sv)) <= 1)%nat
  /\ forall w, In w (getWaitingUsers (storage sv)) ->
       exists u, connectedUsers sv !! wId w = Some u
                 /\ partnerId u = None /\ roomId u = None.
Proof.
  intros R. pose proof (PairingFacts.reachable_inv sv R) as I.
  pose proof (PairingFacts.sortByJoinedAt_perm
                (mapValues (waitingUsers (storage sv)))) as P.
  fold (getWaitingUsers (storage sv)) in P. split.
  - rewrite (Permutation_length P). unfold mapValues.
    rewrite length_map. apply (inv_queue _ _ I).
  - intros w Hw. apply (Permutation_in _ P) in Hw.
    unfold mapValues in Hw. apply in_map_iff in Hw.
    destruct Hw as ([k w'] & E & Hin). cbn in E. subst w'.
    destruct (inv_waiting _ _ I k w Hin) as (Hk & u & Hu & Hp).
    exists u. rewrite Hk. split; [exact Hu|]. split; [exact Hp|].
    destruct (PairingFacts.inv_linked _ _ I k u Hu) as [[_ H] _].
    destruct (roomId u); [|reflexivity].
    exfalso. apply H; [discriminate | exact Hp].
Qed.

Lemma queue_of_reachable_state_s3 :
  (length (getWaitingUsers (storage Scenario.s3)) <= 1)%nat
  /\ forall w, In w (getWaitingUsers (storage Scenario.s3)) ->
       exists u, connectedUsers Scenario.s3 !! wId w = Some u
                 /\ partnerId u = None /\ roomId u = None.
Proof.
  apply (queue_of_reachable_state Scenario.s3).
  apply (reachable_step Scenario.s2); [|apply step_message].
  apply (reachable_step Scenario.s1);
    [|apply step_connection; [discriminate | reflexivity]].
  apply (reachable_step Scenario.s0);
    [|apply step_connection; [discriminate | reflexivity]].
  apply reachable_start.
Defined.

End SessionFacts.

(** ** The limit on messages, from the socket *)

Module ThrottleFacts.
Import JsString Schema ProfanityFilter Storage Routes Run Notions Props.

Lemma checkRateLimit_rows (t : Z) (ip a : string) (L W : Z)
      (st st' : Storage.t) :
  rateLimits (db st) = rateLimits (db st') ->
  checkRateLimit t ip a L W st = checkRateLimit t ip a L W st'.
Proof. intros E. unfold checkRateLimit. rewrite E. reflexivity. Qed.

Lemma rates_fold (ip a : string) (times : list Z) (st : Storage.t) :
  rateLimits (db (fold_left (fun s ti => incrementRateLimit ti ip a s)
                            times st))
  = incrementAll ip a times (rateLimits (db st)).
Proof.
  revert st. induction times as [|ti times IH]; intros st; [reflexivity|].
  cbn [fold_left incrementAll]. rewrite IH. reflexivity.
Qed.

Lemma noneInWindow_later (ip a : string) (t0 t1 : Z)
      (rows : list RateLimitRow) :
  (t0 <= t1)%Z -> noneInWindow ip a t0 rows -> noneInWindow ip a t1 rows.
Proof.
  intros Hle H r Hin Hi Ha. specialize (H r Hin Hi Ha).
  pose proof (RateLimitFacts.toSeconds_mono (t0 - 60 * 1000) (t1 - 60 * 1000)).
  lia.
Qed.

Lemma sorted_snoc (l : list Z) (x : Z) :
  StronglySorted Z.le (l ++ [x]) ->
  StronglySorted Z.le l /\ Forall (fun y => (y <= x)%Z) l.
Proof.
  induction l as [|y l IH]; cbn; intros H; [split; constructor|].
  apply StronglySorted_inv in H. destruct H as [Hs Hy].
  destruct (IH Hs) as [Hl Hx]. split.
  - constructor; [exact Hl|].
    apply Forall_app in Hy. tauto.
  - constructor; [|exact Hx].
    apply Forall_app in Hy. destruct Hy as [_ Hy].
    apply Forall_inv in Hy. exact Hy.
Qed.

(** The check that follows [times] counted requests of one minute. *)
Lemma check_counted (ip : string) (t0 t : Z) (times : list Z)
      (rows0 : list RateLimitRow) (st : Storage.t) :
  noneInWindow ip "message" t0 rows0 ->
  StronglySorted Z.le (t0 :: times ++ [t]) ->
  (t - t0 <= 60 * 1000)%Z ->
  rateLimits (db st) = incrementAll ip "message" times rows0 ->
  checkRateLimit t ip "message" 20 60 st = false
  <-> (20 < Z.of_nat (length times) + 1)%Z.
Proof.
  intros H0 Hs Hw Hrows.
  apply StronglySorted_inv in Hs. destruct Hs as [Hs Hlo].
  apply sorted_snoc in Hs. destruct Hs as [Hs Hhi].
  apply Forall_app in Hlo. destruct Hlo as [Hlo Ht].
  apply Forall_inv in Ht.
  set (st0 := Storage.create 0 (mkDb [] [] [] rows0)).
  rewrite (checkRateLimit_rows t ip "message" 20 60 st
             (fold_left (fun s ti => incrementRateLimit ti ip "message" s)
                        times st0))
    by (rewrite rates_fold; exact Hrows).
  assert (Hhd : (t0 <= hd t times <= t)%Z).
  { destruct times as [|t1 times']; cbn [hd]; [lia|].
    apply Forall_inv in Hlo. apply Forall_inv in Hhi. lia. }
  apply RateLimitFacts.check_after_increments; try lia.
  - apply (noneInWindow_later ip "message" t0); [lia | exact H0].
  - destruct times as [|t1 times']; [constructor|]. cbn [hd].
    apply StronglySorted_inv in Hs. destruct Hs as [_ H1].
    apply Forall_inv in Hhi as Hh1. apply Forall_inv_tail in Hhi.
    constructor; [lia|].
    apply Forall_forall. intros x Hx.
    rewrite Forall_forall in H1, Hhi. specialize (H1 x Hx).
    specialize (Hhi x Hx). lia.
Qed.

Lemma rates_logFlagged now user c why sv :
  rateLimits (db (storage (logFlagged now user c why sv).1))
  = rateLimits (db (storage sv)).
Proof.
  unfold logFlagged. destruct (roomId user); [|reflexivity].
  destruct (truthy _); reflexivity.
Qed.

Lemma rates_countAndLog now user c res sv :
  rateLimits (db (storage (countAndLog now user c res sv).1))
  = rateLimits (db (storage sv)).
Proof.
  unfold countAndLog. destruct (roomId user); [|reflexivity].
  destruct (truthy _); [|reflexivity].
  cbn [fst storage setStorage].
  unfold logMessage, incrementTodayMessages, checkDailyReset.
  destruct (_ =? _)%Z; reflexivity.
Qed.

Lemma rates_moderateAndRelay now uuid userId user data sv :
  rateLimits (db (storage (moderateAndRelay now uuid userId user data sv).1))
  = rateLimits (db (storage sv)).
Proof.
  unfold moderateAndRelay.
  destruct (messageSchema_parse data) as [content|]; [|reflexivity].
  destruct (isSpam _).
  { pose proof (rates_logFlagged now user (sanitizeMessage content) "spam" sv).
    destruct (logFlagged _ _ _ _ _); assumption. }
  destruct (checkProfanity _ _) as [res tb1].
  destruct (severity res).
  - pose proof (rates_countAndLog now user (sanitizeMessage content) res
                  (setFilter tb1 (setFilter tb1 sv))).
    destruct (countAndLog _ _ _ _ _); assumption.
  - destruct (filterContent _ _) as [c' tb2].
    pose proof (rates_countAndLog now user c' res
                  (setFilter tb2 (setFilter tb1 sv))).
    destruct (countAndLog _ _ _ _ _); assumption.
  - pose proof (rates_logFlagged now user (sanitizeMessage content)
                  "profanity" (setFilter tb1 sv)).
    destruct (logFlagged _ _ _ _ _); assumption.
Qed.

(** A [send_message] that passes the check counts once. *)
Lemma onSendMessage_counts now uuid k u data sv :
  truthy (partnerId u) = true ->
  checkRateLimit now (ip u) "message" 20 60 (storage sv) = true ->
  rateLimits (db (storage (onSendMessage now uuid k u data sv).1))
  = incrementRows now (ip u) "message" (rateLimits (db (storage sv)))
  /\ exists out, (onSendMessage now uuid k u data sv).2
                 = RateCheck (ip u) message true
                   :: RateIncrement (ip u) message :: out.
Proof.
  intros T C. unfold onSendMessage. rewrite T. cbn [negb actionType limit
                                                    windowSeconds].
  rewrite C. cbn [negb].
  set (sv1 := setStorage _ sv).
  pose proof (rates_moderateAndRelay now uuid k u data sv1) as H.
  destruct (moderateAndRelay _ _ _ _ _ _) as [sv' out]. cbn [fst snd] in *.
  split; [rewrite H; reflexivity | eauto].
Qed.

Section Burst.
Variables (uuid : nat -> string) (k : string) (u : ConnectedUser)
          (sv : Server) (t0 : Z).
Hypothesis Hu : connectedUsers sv !! k = Some u.
Hypothesis T : truthy (partnerId u) = true.
Hypothesis H0 :
  noneInWindow (ip u) "message" t0 (rateLimits (db (storage sv))).

(** Up to twenty messages of one minute all pass and are all counted. *)
Lemma sendAll_counted (msgs : list (Z * Payload)) :
  (length msgs <= 20)%nat ->
  StronglySorted Z.le (t0 :: List.map fst msgs) ->
  Forall (fun m => (m.1 - t0 <= 60 * 1000)%Z) msgs ->
  connectedUsers (sendAll uuid k msgs sv) = connectedUsers sv
  /\ rateLimits (db (storage (sendAll uuid k msgs sv)))
     = incrementAll (ip u) "message" (List.map fst msgs)
                    (rateLimits (db (storage sv))).
Proof using All.
  induction msgs as [|m msgs IH] using rev_ind; intros Hlen Hs Hw;
    [split; reflexivity|].
  rewrite length_app in Hlen. cbn [length] in Hlen.
  rewrite map_app in Hs. cbn [List.map] in Hs.
  apply Forall_app in Hw. destruct Hw as [Hw Hm]. apply Forall_inv in Hm.
  destruct IH as [Icu Irows]; [lia | | exact Hw |].
  { change (t0 :: List.map fst msgs ++ [m.1])
      with ((t0 :: List.map fst msgs) ++ [m.1]) in Hs.
    apply sorted_snoc in Hs. tauto. }
  unfold sendAll in *. rewrite fold_left_app. cbn [fold_left].
  set (sv' := fold_left _ msgs sv) in *.
  assert (Hu' : connectedUsers sv' !! k = Some u) by (rewrite Icu; exact Hu).
  rewrite (MessageFacts.onMessage_send_message _ _ _ _ _ _ Hu').
  assert (C : checkRateLimit m.1 (ip u) "message" 20 60 (storage sv') = true).
  { destruct (checkRateLimit m.1 (ip u) "message" 20 60 (storage sv'))
      eqn:E; [reflexivity|].
    apply (check_counted (ip u) t0 m.1 (List.map fst msgs)
             (rateLimits (db (storage sv)))) in E;
      [|exact H0 | exact Hs | exact Hm | exact Irows].
    rewrite length_map in E. lia. }
  destruct (onSendMessage_counts m.1 uuid k u m.2 sv' T C) as [Hr _].
  split.
  - rewrite (proj1 (PairingFacts.frame_onSendMessage _ _ _ _ _ _)).
    exact Icu.
  - rewrite Hr, Irows, map_app. unfold incrementAll.
    rewrite fold_left_app. reflexivity.
Qed.

End Burst.

(** X21. Twenty messages a minute, seen from the socket. A paired session
    whose source has no count in the window sends up to twenty
    [send_message] frames within one minute: each passes the check and is
    counted. After twenty, the next frame of that minute is refused: the
    sender is sent [rate_limited], nothing is relayed, counted or logged,
    and the state is unchanged. Before twenty, the next frame passes. *)
Theorem twenty_messages_a_minute (now t0 : Z) (uuid : nat -> string)
        (k : string) (u : ConnectedUser) (msgs : list (Z * Payload))
        (data : Payload) (sv : Server) :
  connectedUsers sv !! k = Some u ->
  truthy (partnerId u) = true ->
  socketOpen u = true ->
  noneInWindow (ip u) "message" t0 (rateLimits (db (storage sv))) ->
  StronglySorted Z.le (t0 :: List.map fst msgs ++ [now]) ->
  (now - t0 <= 60 * 1000)%Z ->
  (length msgs <= 20)%nat ->
  let sv' := sendAll uuid k msgs sv in
  let r := onMessage now uuid k (Frame SEND_MESSAGE data) sv' in
  (length msgs = 20%nat ->
   r = (sv', [RateCheck (ip u) message false;
              Send k (RATE_LIMITED
                        "Slow down! You are sending messages too fast.")]))
  /\ ((length msgs < 20)%nat ->
      exists out, r.2 = RateCheck (ip u) message true
                        :: RateIncrement (ip u) message :: out).
Proof.
  intros Hu T Ho H0 Hs Hw Hlen. cbn zeta.
  assert (Hs' : StronglySorted Z.le (t0 :: List.map fst msgs)
                /\ Forall (fun y => (y <= now)%Z) (t0 :: List.map fst msgs)).
  { change (t0 :: List.map fst msgs ++ [now])
      with ((t0 :: List.map fst msgs) ++ [now]) in Hs.
    apply sorted_snoc in Hs. exact Hs. }
  destruct Hs' as [Hs1 Hle].
  destruct (sendAll_counted uuid k u sv t0 Hu T H0 msgs Hlen Hs1)
    as [Icu Irows].
  { apply Forall_inv_tail in Hle. rewrite Forall_forall in Hle.
    apply Forall_forall. intros m Hm.
    assert ((m.1 <= now)%Z).
    { apply Hle. apply list_elem_of_In. apply in_map.
      apply list_elem_of_In. exact Hm. }
    lia. }
  set (sv' := sendAll uuid k msgs sv) in *.
  assert (Hu' : connectedUsers sv' !! k = Some u) by (rewrite Icu; exact Hu).
  rewrite (MessageFacts.onMessage_send_message _ _ _ _ _ _ Hu').
  pose proof (check_counted (ip u) t0 now (List.map fst msgs)
                (rateLimits (db (storage sv))) (storage sv')
                H0 Hs Hw Irows) as C.
  rewrite length_map in C. split.
  - intros E.
    assert (C' : checkRateLimit now (ip u) "message" 20 60 (storage sv')
                 = false) by (apply C; lia).
    unfold onSendMessage. rewrite T.
    cbn [negb actionType limit windowSeconds]. rewrite C'. cbn [negb].
    unfold sendToUser. rewrite Hu', Ho. reflexivity.
  - intros E.
    assert (C' : checkRateLimit now (ip u) "message" 20 60 (storage sv')
                 = true).
    { destruct (checkRateLimit now (ip u) "message" 20 60 (storage sv'));
        [reflexivity|].
      assert (20 < Z.of_nat (length msgs) + 1)%Z by (apply C; reflexivity).
      lia. }
    apply (onSendMessage_counts now uuid k u data sv' T C').
Qed.

Lemma twenty_messages_a_minute_paired :
  let sv' := sendAll Scenario.uuid "A" (burst 20 5 "hi") Scenario.paired in
  let r := onMessage 25 Scenario.uuid "A" (Scenario.say "hi") sv' in
  (length (burst 20 5 "hi") = 20%nat ->
   r = (sv', [RateCheck "10.0.0.1" message false;
              Send "A" (RATE_LIMITED
                          "Slow down! You are sending messages too fast.")]))
  /\ ((length (burst 20 5 "hi") < 20)%nat ->
      exists out, r.2 = RateCheck "10.0.0.1" message true
                        :: RateIncrement "10.0.0.1" message :: out).
Proof.
  apply (twenty_messages_a_minute 25 5 Scenario.uuid "A"
           (mkUser "A" true "10.0.0.1" (Some "B"%string)
                   (Some "room"%string))
           (burst 20 5 "hi") (contentData (lit "hi")) Scenario.paired).
  - reflexivity.
  - reflexivity.
  - reflexivity.
  - intros r Hin Hip Ha. vm_compute in Hin.
    destruct Hin as [<-|[<-|[]]]; discriminate.
  - cbn. repeat (constructor; [|repeat (constructor; [lia|]); constructor]).
    constructor.
  - lia.
  - cbn. lia.
Defined.

End ThrottleFacts.

(** ** The moderation desk *)

Module AdminFacts.
Import Schema Storage Routes Admin.

Lemma find_existsb {A : Type} (p : A -> bool) (l : list A) :
  List.find p l = None <-> existsb p l = false.
Proof.
  induction l as [|x l IH]; cbn; [tauto|].
  destruct (p x); cbn; [split; discriminate | exact IH].
Qed.

Lemma find_none_all {A : Type} (p : A -> bool) (l : list A) :
  List.find p l = None -> forall x, In x l -> p x = false.
Proof.
  induction l as [|y l IH]; cbn; intros H x Hx; [destruct Hx|].
  destruct (p y) eqn:E; [discriminate|].
  destruct Hx as [->|Hx]; [exact E | apply IH; assumption].
Qed.

Lemma NoDup_map_filter {A B : Type} (f : A -> B) (p : A -> bool)
      (l : list A) :
  List.NoDup (List.map f l) -> List.NoDup (List.map f (List.filter p l)).
Proof.
  induction l as [|x l IH]; cbn; intros H; [constructor|].
  apply List.NoDup_cons_iff in H. destruct H as [Hx Hl].
  destruct (p x); cbn; [|apply IH, Hl].
  apply List.NoDup_cons_iff. split; [|apply IH, Hl].
  intros Hin. apply Hx. apply in_map_iff in Hin.
  destruct Hin as (y & E & Hy). apply filter_In in Hy.
  apply in_map_iff. exists y. tauto.
Qed.

Lemma NoDup_map_snoc {A B : Type} (f : A -> B) (l : list A) (x : A) :
  List.NoDup (List.map f l) -> ~ In (f x) (List.map f l) ->
  List.NoDup (List.map f (l ++ [x])).
Proof.
  induction l as [|y l IH]; cbn; intros H Hx.
  - constructor; [intros []|constructor].
  - apply List.NoDup_cons_iff in H. destruct H as [Hy Hl].
    apply List.NoDup_cons_iff. split.
    + rewrite map_app, in_app_iff. cbn. intros [H|[H|[]]]; [tauto|].
      apply Hx. left. symmetry. exact H.
    + apply IH; [exact Hl | tauto].
Qed.

Lemma reviewed_ids (now : Z) (id : option Z) (st by_ : string)
      (notes : option string) (l : list BanAppealRow) :
  List.map appealId
    (List.map (fun a => if hasId id (appealId a)
                        then review now st by_ notes a else a) l)
  = List.map appealId l.
Proof.
  rewrite List.map_map. apply List.map_ext. intros a.
  destruct (hasId id (appealId a)); reflexivity.
Qed.

(** The insert of [POST /api/admin/bans] is never refused: the route
    looked the address up before. *)
Lemma postBan_no_server_error (now : Z) (ip reason : option string)
      (tb : Tables) :
  isServerError (postBan now ip reason tb).2 = false.
Proof.
  unfold postBan. destruct (banIpSchema_parse ip reason) as [[i r]|];
    [|reflexivity].
  unfold getBannedIpByIp, addBannedIp.
  destruct (List.find (hasIp i) (bannedIpsTable tb)) eqn:F; [reflexivity|].
  apply find_existsb in F. rewrite F. reflexivity.
Qed.

Lemma sound_postBan (now : Z) (ip reason : option string) (tb : Tables) :
  Sound tb -> Sound (postBan now ip reason tb).1.
Proof.
  intros S. unfold postBan.
  destruct (banIpSchema_parse ip reason) as [[i r]|]; [|exact S].
  unfold getBannedIpByIp, addBannedIp.
  destruct (List.find (hasIp i) (bannedIpsTable tb)) eqn:F; [exact S|].
  pose proof (find_none_all _ _ F) as Hall.
  apply find_existsb in F. rewrite F. cbn [fst].
  destruct S as [S1 S2 S3 S4 S5]. constructor; cbn; try assumption.
  - apply NoDup_map_snoc; [exact S1|]. cbn. intros Hin.
    apply in_map_iff in Hin. destruct Hin as (b & E & Hb).
    specialize (Hall b Hb). unfold hasIp in Hall.
    apply String.eqb_neq in Hall. contradiction.
  - apply NoDup_map_snoc; [exact S2|]. cbn. intros Hin.
    apply in_map_iff in Hin. destruct Hin as (b & E & Hb).
    rewrite Forall_forall in S3. apply list_elem_of_In in Hb.
    specialize (S3 b Hb). cbn in S3. lia.
  - apply Forall_app. split.
    + eapply Forall_impl; [exact S3|]. cbn. intros; lia.
    + constructor; [cbn; lia | constructor].
Qed.

Lemma sound_deleteBan (id : option Z) (tb : Tables) :
  Sound tb -> Sound (deleteBan id tb).1.
Proof.
  intros [S1 S2 S3 S4 S5]. unfold deleteBan, removeBannedIp.
  destruct (_ <? _)%nat; cbn [fst]; constructor; cbn; try assumption;
    try (apply NoDup_map_filter; assumption);
    rewrite Forall_forall in *; intros b Hb; apply S3;
    apply list_elem_of_In; apply list_elem_of_In in Hb;
    apply filter_In in Hb; tauto.
Qed.

Lemma sound_postAppeal (isEmail : string -> bool) (now : Z)
      (ip email reason : option string) (tb : Tables) :
  Sound tb -> Sound (postAppeal isEmail now ip email reason tb).1.
Proof.
  intros S. unfold postAppeal.
  destruct (banAppealFormSchema_parse isEmail ip email reason)
    as [[[i e] r]|]; [|exact S].
  destruct (negb (isIpBanned i tb)); [exact S|].
  destruct (getAppealByIp i tb); [exact S|].
  destruct S as [S1 S2 S3 S4 S5]. cbn. constructor; cbn; try assumption.
  - apply NoDup_map_snoc; [exact S4|]. cbn. intros Hin.
    apply in_map_iff in Hin. destruct Hin as (a & E & Ha).
    rewrite Forall_forall in S5. apply list_elem_of_In in Ha.
    specialize (S5 a Ha). cbn in S5. lia.
  - apply Forall_app. split.
    + eapply Forall_impl; [exact S5|]. cbn. intros; lia.
    + constructor; [cbn; lia | constructor].
Qed.

Lemma sound_patchAppeal (now : Z) (id : option Z)
      (status notes : option string) (tb : Tables) :
  Sound tb -> Sound (patchAppeal now id status notes tb).1.
Proof.
  intros S. unfold patchAppeal. destruct status as [st|]; [|exact S].
  destruct (_ || _); [|exact S].
  unfold updateBanAppealStatus.
  set (appeals' := List.map _ (banAppealsTable tb)).
  assert (S4' : List.NoDup (List.map appealId appeals')).
  { unfold appeals'. rewrite reviewed_ids. apply (sound_appealIds _ S). }
  assert (S5' : Forall (fun a => (appealId a <= banAppealsSeq tb)%Z) appeals').
  { pose proof (sound_appealSeq _ S) as S5.
    rewrite Forall_forall in *. intros a Ha. apply list_elem_of_In in Ha.
    unfold appeals' in Ha. apply in_map_iff in Ha.
    destruct Ha as (a0 & E & Ha0). apply list_elem_of_In in Ha0.
    specialize (S5 a0 Ha0). cbn in S5.
    destruct (hasId id (appealId a0)); subst a; cbn; exact S5. }
  destruct S as [S1 S2 S3 S4 S5].
  destruct (List.find _ appeals') as [updated|]; cbn [fst];
    [|constructor; assumption].
  destruct (String.eqb st approvedStatus); constructor; cbn;
    try assumption; try (apply NoDup_map_filter; assumption).
  rewrite Forall_forall in *. intros b Hb. apply S3.
  apply list_elem_of_In. apply list_elem_of_In in Hb.
  apply filter_In in Hb. tauto.
Qed.

Lemma sound_handle (isEmail : string -> bool) (now : Z) (req : Request)
      (tb : Tables) :
  Sound tb ->
  Sound (handle isEmail now req tb).1
  /\ isServerError (handle isEmail now req tb).2 = false.
Proof.
  intros S. destruct req as [ip reason|id|ip email reason|id status notes|ip];
    cbn [handle].
  - split; [apply sound_postBan, S | apply postBan_no_server_error].
  - split; [apply sound_deleteBan, S|].
    unfold deleteBan, removeBannedIp. destruct (_ <? _)%nat; reflexivity.
  - split; [apply sound_postAppeal, S|]. unfold postAppeal.
    destruct (banAppealFormSchema_parse isEmail ip email reason)
      as [[[i e] r]|]; [|reflexivity].
    destruct (negb (isIpBanned i tb)); [reflexivity|].
    destruct (getAppealByIp i tb); reflexivity.
  - split; [apply sound_patchAppeal, S|]. unfold patchAppeal.
    destruct status as [st|]; [|reflexivity].
    destruct (_ || _); [|reflexivity].
    destruct (updateBanAppealStatus _ _ _ _ _ _) as [tb' [a|]]; reflexivity.
  - split; [exact S | reflexivity].
Qed.

(** X22. Whatever requests the desk serves, the constraints of the two
    tables hold after them if they held before: an address is banned at
    most once and the ids of a table are distinct and not above its
    sequence. No reply is a 500: the insert of a ban is never refused by
    the UNIQUE constraint on the address. *)
Theorem desk_keeps_tables_sound (isEmail : string -> bool)
        (reqs : list (Z * Request)) (tb : Tables) :
  Sound tb ->
  Sound (serve isEmail reqs tb).1
  /\ Forall (fun r => isServerError r = false) (serve isEmail reqs tb).2.
Proof.
  revert tb. induction reqs as [|[now req] reqs IH]; intros tb S;
    [split; [exact S | constructor]|].
  cbn [serve].
  destruct (sound_handle isEmail now req tb S) as [S1 E1].
  destruct (handle isEmail now req tb) as [tb1 reply]. cbn [fst snd] in *.
  destruct (IH tb1 S1) as [S2 E2].
  destruct (serve isEmail reqs tb1) as [tb2 replies]. cbn [fst snd] in *.
  split; [exact S2 | constructor; assumption].
Qed.

Lemma desk_keeps_tables_sound_twice :
  let reqs := [(3000%Z, PostBan (Some "10.0.0.7"%string) (Some "again"%string));
               (4000%Z, PostBan (Some "10.0.0.8"%string) (Some "spam"%string));
               (5000%Z, DeleteBan (Some 1%Z))] in
  Sound (serve anyEmail reqs noTables).1
  /\ Forall (fun r => isServerError r = false) (serve anyEmail reqs noTables).2.
Proof.
  apply (desk_keeps_tables_sound anyEmail).
  constructor; cbn; constructor.
Defined.

(** *** Appeals *)

Lemma find_none_filter {A : Type} (p : A -> bool) (l : list A) :
  List.find p l = None -> List.filter p l = [].
Proof.
  induction l as [|x l IH]; cbn; [reflexivity|].
  destruct (p x); [discriminate | exact IH].
Qed.

Lemma all_false_find {A : Type} (p : A -> bool) (l : list A) :
  (forall x, In x l -> p x = false) -> List.find p l = None.
Proof.
  induction l as [|x l IH]; cbn; intros H; [reflexivity|].
  rewrite (H x) by (left; reflexivity). apply IH. intros y Hy.
  apply H. right. exact Hy.
Qed.

Lemma filter_map_shrinks {A : Type} (p : A -> bool) (g : A -> A)
      (l : list A) :
  (forall a, p (g a) = true -> p a = true) ->
  (length (List.filter p (List.map g l)) <= length (List.filter p l))%nat.
Proof.
  intros H. induction l as [|x l IH]; cbn; [lia|].
  destruct (p (g x)) eqn:E.
  - rewrite (H x E). cbn. lia.
  - destruct (p x); cbn; lia.
Qed.

Lemma filter_filter_and {A : Type} (p q : A -> bool) (l : list A) :
  List.filter p (List.filter q l) = List.filter (fun a => q a && p a) l.
Proof.
  induction l as [|x l IH]; cbn; [reflexivity|].
  destruct (q x); cbn; [|exact IH].
  destruct (p x); cbn; rewrite IH; reflexivity.
Qed.

Lemma reviewed_not_pending (now : Z) (st by_ : string)
      (notes : option string) (ip : string) (a : BanAppealRow) :
  String.eqb st approvedStatus || String.eqb st rejectedStatus = true ->
  isPendingFor ip (review now st by_ notes a) = false.
Proof.
  intros H. unfold isPendingFor. cbn [appealStatus review].
  apply orb_true_iff in H.
  destruct H as [H|H]; apply String.eqb_eq in H; subst st;
    rewrite andb_false_r; reflexivity.
Qed.

Lemma appeals_postBan (now : Z) (ip reason : option string) (tb : Tables) :
  banAppealsTable (postBan now ip reason tb).1 = banAppealsTable tb.
Proof.
  unfold postBan. destruct (banIpSchema_parse ip reason) as [[i r]|];
    [|reflexivity].
  destruct (getBannedIpByIp i tb); [reflexivity|].
  unfold addBannedIp. destruct (existsb _ _); reflexivity.
Qed.

Lemma appeals_deleteBan (id : option Z) (tb : Tables) :
  banAppealsTable (deleteBan id tb).1 = banAppealsTable tb.
Proof.
  unfold deleteBan, removeBannedIp. destruct (_ <? _)%nat; reflexivity.
Qed.

Lemma pending_handle (isEmail : string -> bool) (now : Z) (req : Request)
      (tb : Tables) :
  onePendingEach tb -> onePendingEach (handle isEmail now req tb).1.
Proof.
  intros P ip'. specialize (P ip'). unfold pendingFor in *.
  destruct req as [ip reason|id|ip email reason|id status notes|ip];
    cbn [handle].
  - rewrite appeals_postBan. exact P.
  - rewrite appeals_deleteBan. exact P.
  - unfold postAppeal.
    destruct (banAppealFormSchema_parse isEmail ip email reason)
      as [[[i e] r]|]; [|exact P].
    destruct (negb (isIpBanned i tb)); [exact P|].
    unfold getAppealByIp.
    destruct (List.find (isPendingFor i) (banAppealsTable tb)) eqn:F;
      [exact P|].
    cbn [createBanAppeal fst banAppealsTable].
    rewrite List.filter_app, length_app. cbn [List.filter].
    unfold isPendingFor at 2. cbn [appealIp appealStatus].
    destruct (String.eqb_spec i ip') as [->|Hne]; cbn.
    + rewrite (find_none_filter _ _ F). cbn. lia.
    + lia.
  - unfold patchAppeal. destruct status as [st|]; [|exact P].
    destruct (String.eqb st approvedStatus || String.eqb st rejectedStatus)
      eqn:Hst; [|exact P].
    unfold updateBanAppealStatus.
    set (g := fun a => if hasId id (appealId a)
                       then review now st "Admin" notes a else a).
    assert (L : (length (List.filter (isPendingFor ip')
                           (List.map g (banAppealsTable tb))) <= 1)%nat).
    { etransitivity; [|exact P]. apply filter_map_shrinks.
      intros a. unfold g. destruct (hasId id (appealId a)); [|tauto].
      rewrite reviewed_not_pending by exact Hst. discriminate. }
    destruct (List.find _ (List.map g (banAppealsTable tb)));
      cbn [fst banAppealsTable]; exact L.
  - exact P.
Qed.

Lemma pending_serve (isEmail : string -> bool) (reqs : list (Z * Request)) :
  forall tb, onePendingEach tb -> onePendingEach (serve isEmail reqs tb).1.
Proof.
  induction reqs as [|[now req] reqs IH]; intros tb P; [exact P|].
  cbn [serve].
  pose proof (pending_handle isEmail now req tb P) as P1.
  destruct (handle isEmail now req tb) as [tb1 reply]. cbn [fst] in P1.
  specialize (IH tb1 P1).
  destruct (serve isEmail reqs tb1) as [tb2 replies]. exact IH.
Qed.

(** X23. An address has at most one pending appeal. If this holds of
    the table, it holds after whatever requests the desk serves, and the
    list of pending appeals ([getBanAppeals('pending')]) names an address
    at most once. *)
Theorem one_pending_appeal_per_address (isEmail : string -> bool)
        (reqs : list (Z * Request)) (tb : Tables) (ip : string) :
  onePendingEach tb ->
  (length (List.filter (fun a => String.eqb (appealIp a) ip)
             (getBanAppeals (Some pendingStatus) (serve isEmail reqs tb).1))
   <= 1)%nat.
Proof.
  intros P. pose proof (pending_serve isEmail reqs tb P ip) as H.
  unfold getBanAppeals. cbn [truthy pendingStatus String.eqb Ascii.eqb
                             Bool.eqb negb].
  rewrite filter_filter_and. unfold pendingFor in H.
  erewrite List.filter_ext; [exact H|].
  intros a. unfold isPendingFor. apply andb_comm.
Qed.

Lemma one_pending_appeal_per_address_desk :
  (length (List.filter (fun a => String.eqb (appealIp a) "10.0.0.7")
             (getBanAppeals (Some pendingStatus)
                (serve anyEmail
                   [(3000%Z, PostAppeal (Some "10.0.0.7"%string)
                                        (Some "a@b.example"%string)
                                        (Some "let me in, please"%string))]
                   desk).1))
   <= 1)%nat.
Proof.
  apply (one_pending_appeal_per_address anyEmail).
  intros ip. unfold pendingFor. vm_compute banAppealsTable.
  cbn [List.filter]. destruct (isPendingFor ip _); cbn; lia.
Defined.

(** *** Bans *)

Lemma isIpBanned_withBans (ip : string) (tb : Tables) (sv : Server) :
  Storage.isIpBanned ip (storage (withBans tb sv)) = Admin.isIpBanned ip tb.
Proof.
  unfold Storage.isIpBanned, Admin.isIpBanned, withBans.
  cbn [storage setStorage db setDb Storage.bannedIps].
  induction (bannedIpsTable tb) as [|b l IH]; cbn; [reflexivity|].
  unfold hasIp at 1. rewrite (String.eqb_sym ip (banIp b)).
  destruct (String.eqb (banIp b) ip); [reflexivity | exact IH].
Qed.

Lemma find_reviewed (now : Z) (id : option Z) (st by_ : string)
      (notes : option string) (l : list BanAppealRow) :
  List.find (fun a => hasId id (appealId a))
    (List.map (fun a => if hasId id (appealId a)
                        then review now st by_ notes a else a) l)
  = option_map (review now st by_ notes)
               (List.find (fun a => hasId id (appealId a)) l).
Proof.
  induction l as [|a l IH]; cbn; [reflexivity|].
  destruct (hasId id (appealId a)) eqn:E; cbn; rewrite E;
    [reflexivity | exact IH].
Qed.

Lemma find_lifted (ip : string) (l : list BannedIpRow) :
  List.find (hasIp ip) (List.filter (fun b => negb (hasIp ip b)) l) = None.
Proof.
  apply all_false_find. intros b Hb. apply filter_In in Hb.
  destruct Hb as [_ Hb]. apply negb_true_iff in Hb. exact Hb.
Qed.

Lemma find_other_kept (ip ip' : string) (l : list BannedIpRow) :
  ip' ≠ ip ->
  List.find (hasIp ip') (List.filter (fun b => negb (hasIp ip b)) l)
  = List.find (hasIp ip') l.
Proof.
  intros Hne. induction l as [|b l IH]; [reflexivity|].
  cbn [List.filter List.find].
  destruct (hasIp ip b) eqn:E1; destruct (hasIp ip' b) eqn:E2;
    cbn [negb List.find]; rewrite ?E2; try reflexivity; try exact IH.
  unfold hasIp in E1, E2.
  apply String.eqb_eq in E1. apply String.eqb_eq in E2. congruence.
Qed.

(** X24. Approving an appeal lifts the ban of its address, whatever the
    status of the appeal was: also an appeal that was rejected or approved
    before, and also when the ban is a later one. The reply carries the
    reviewed row, the address is no longer banned for the desk nor for a
    new connection, and no other address changes. *)
Theorem approval_lifts_the_ban (now : Z) (id : Z) (notes : option string)
        (a : BanAppealRow) (tb : Tables) :
  List.find (fun a => hasId (Some id) (appealId a)) (banAppealsTable tb)
  = Some a ->
  let r := patchAppeal now (Some id) (Some approvedStatus) notes tb in
  r.2 = AppealUpdated (review now approvedStatus "Admin" notes a)
  /\ Admin.isIpBanned (appealIp a) r.1 = false
  /\ (forall sv, Storage.isIpBanned (appealIp a) (storage (withBans r.1 sv))
                 = false)
  /\ (forall ip, ip ≠ appealIp a ->
                 Admin.isIpBanned ip r.1 = Admin.isIpBanned ip tb).
Proof.
  intros F. cbn zeta. unfold patchAppeal.
  change (String.eqb approvedStatus approvedStatus
          || String.eqb approvedStatus rejectedStatus) with true.
  cbv iota. unfold updateBanAppealStatus.
  rewrite find_reviewed, F. cbn [option_map].
  change (String.eqb approvedStatus approvedStatus) with true. cbv iota.
  cbn [fst snd review appealIp].
  assert (B : forall tb', bannedIpsTable tb'
                = List.filter (fun b => negb (hasIp (appealIp a) b))
                              (bannedIpsTable tb) ->
              Admin.isIpBanned (appealIp a) tb' = false).
  { intros tb' E. unfold Admin.isIpBanned. rewrite E, find_lifted.
    reflexivity. }
  split; [reflexivity|]. split; [apply B; reflexivity|]. split.
  - intros sv. rewrite isIpBanned_withBans. apply B. reflexivity.
  - intros ip Hne. unfold Admin.isIpBanned. cbn [bannedIpsTable].
    rewrite find_other_kept by exact Hne. reflexivity.
Qed.

Lemma approval_lifts_the_ban_desk :
  let a := mkBanAppeal 1 "10.0.0.7" "a@b.example" "please let me in"
                       pendingStatus 2 None None None in
  let r := patchAppeal 3000 (Some 1%Z) (Some approvedStatus) None desk in
  r.2 = AppealUpdated (review 3000 approvedStatus "Admin" None a)
  /\ Admin.isIpBanned (appealIp a) r.1 = false
  /\ (forall sv, Storage.isIpBanned (appealIp a) (storage (withBans r.1 sv))
                 = false)
  /\ (forall ip, ip ≠ appealIp a ->
                 Admin.isIpBanned ip r.1 = Admin.isIpBanned ip desk).
Proof.
  apply (approval_lifts_the_ban 3000 1 None
           (mkBanAppeal 1 "10.0.0.7" "a@b.example" "please let me in"
                        pendingStatus 2 None None None) desk).
  reflexivity.
Defined.

Lemma find_snoc_hit {A : Type} (p : A -> bool) (l : list A) (x : A) :
  p x = true -> exists y, List.find p (l ++ [x]) = Some y.
Proof.
  intros H. induction l as [|z l IH]; cbn.
  - rewrite H. eauto.
  - destruct (p z); eauto.
Qed.

(** X25. A ban takes effect at the next connection. A well-formed
    [POST /api/admin/bans] for an address that is not banned answers 201
    with the new row, by Admin. From then on a socket of that address is
    sent [banned] and closed, and nothing of the state changes for it;
    and a second ban of the address leaves the tables as they are. *)
Theorem ban_refuses_connections (now : Z) (ip reason : string)
        (tb : Tables) :
  between 7 45 ip = true ->
  between 1 500 reason = true ->
  Admin.isIpBanned ip tb = false ->
  let r := postBan now (Some ip) (Some reason) tb in
  r.2 = BanCreated (mkBannedIp (bannedIpsSeq tb + 1) ip reason
                               (toSeconds now) "Admin")
  /\ (forall now' userId sv,
         onConnection now' userId ip (withBans r.1 sv)
         = (withBans r.1 sv, [Send userId BANNED; CloseSocket userId]))
  /\ (forall now' reason', (postBan now' (Some ip) reason' r.1).1 = r.1).
Proof.
  intros Hi Hr Hb. cbn zeta.
  assert (E : postBan now (Some ip) (Some reason) tb
              = (mkTables (bannedIpsTable tb
                           ++ [mkBannedIp (bannedIpsSeq tb + 1) ip reason
                                          (toSeconds now) "Admin"])
                          (bannedIpsSeq tb + 1) (banAppealsTable tb)
                          (banAppealsSeq tb),
                 BanCreated (mkBannedIp (bannedIpsSeq tb + 1) ip reason
                                        (toSeconds now) "Admin"))).
  { unfold postBan, banIpSchema_parse. rewrite Hi, Hr. cbn [andb].
    unfold Admin.isIpBanned in Hb. unfold getBannedIpByIp, addBannedIp.
    destruct (List.find (hasIp ip) (bannedIpsTable tb)) eqn:F;
      [discriminate|].
    apply find_existsb in F. rewrite F. reflexivity. }
  rewrite E. cbn [fst snd]. set (tb' := mkTables _ _ _ _).
  assert (Hb' : Admin.isIpBanned ip tb' = true).
  { unfold Admin.isIpBanned, tb'. cbn [bannedIpsTable].
    destruct (find_snoc_hit (hasIp ip) (bannedIpsTable tb)
                (mkBannedIp (bannedIpsSeq tb + 1) ip reason
                            (toSeconds now) "Admin")) as [y ->];
      [|reflexivity].
    unfold hasIp. cbn. apply String.eqb_refl. }
  split; [reflexivity|]. split.
  - intros now' userId sv. unfold onConnection.
    rewrite isIpBanned_withBans, Hb'. reflexivity.
  - intros now' reason'. unfold postBan.
    destruct (banIpSchema_parse (Some ip) reason') as [[i r]|] eqn:P;
      [|reflexivity].
    assert (i = ip).
    { unfold banIpSchema_parse in P. destruct reason'; [|discriminate].
      destruct (_ && _); [|discriminate]. injection P as <- _. reflexivity. }
    subst i. unfold getBannedIpByIp. unfold Admin.isIpBanned in Hb'.
    destruct (List.find (hasIp ip) (bannedIpsTable tb')); [reflexivity|].
    discriminate.
Qed.

Lemma ban_refuses_connections_desk :
  let r := postBan 3000 (Some "10.0.0.8"%string) (Some "flooding"%string)
                   desk in
  r.2 = BanCreated (mkBannedIp (bannedIpsSeq desk + 1) "10.0.0.8" "flooding"
                               (toSeconds 3000) "Admin")
  /\ (forall now' userId sv,
         onConnection now' userId "10.0.0.8" (withBans r.1 sv)
         = (withBans r.1 sv, [Send userId BANNED; CloseSocket userId]))
  /\ (forall now' reason',
         (postBan now' (Some "10.0.0.8"%string) reason' r.1).1 = r.1).
Proof.
  apply (ban_refuses_connections 3000 "10.0.0.8" "flooding" desk);
    reflexivity.
Defined.

Lemma at_most_one_same {A : Type} (l : list A) (x y : A) :
  (length l <= 1)%nat -> In x l -> In y l -> x = y.
Proof.
  destruct l as [|z [|z' l]]; cbn; intros H Hx Hy; [tauto | | lia].
  destruct Hx as [<-|[]], Hy as [<-|[]]. reflexivity.
Qed.

(** X26. A rejected appellant may appeal again at once. When the one
    pending appeal of a banned address is rejected, the ban stays, no
    appeal of the address is pending any more, and a new well-formed
    appeal for the address is accepted and filed as pending. *)
Theorem rejected_may_appeal_again (isEmail : string -> bool) (now now' : Z)
        (id : Z) (notes : option string) (a : BanAppealRow)
        (email reason : string) (tb : Tables) :
  onePendingEach tb ->
  List.find (fun a => hasId (Some id) (appealId a)) (banAppealsTable tb)
  = Some a ->
  appealStatus a = pendingStatus ->
  Admin.isIpBanned (appealIp a) tb = true ->
  between 7 45 (appealIp a) = true ->
  isEmail email = true ->
  between 10 1000 reason = true ->
  let tb1 := (patchAppeal now (Some id) (Some rejectedStatus) notes tb).1 in
  Admin.isIpBanned (appealIp a) tb1 = true
  /\ getAppealByIp (appealIp a) tb1 = None
  /\ (postAppeal isEmail now' (Some (appealIp a)) (Some email) (Some reason)
                 tb1).2
     = AppealCreated (mkBanAppeal (banAppealsSeq tb + 1) (appealIp a) email
                                  reason pendingStatus (toSeconds now')
                                  None None None).
Proof.
  intros P F Hst Hb Hi He Hr. cbn zeta.
  pose proof (find_some _ _ F) as [Hin Hid].
  unfold patchAppeal.
  change (String.eqb rejectedStatus approvedStatus
          || String.eqb rejectedStatus rejectedStatus) with true.
  cbv iota. unfold updateBanAppealStatus.
  rewrite find_reviewed, F. cbn [option_map].
  change (String.eqb rejectedStatus approvedStatus) with false. cbv iota.
  cbn [fst]. set (tb1 := mkTables _ _ _ _).
  assert (B : Admin.isIpBanned (appealIp a) tb1 = true) by exact Hb.
  assert (G : getAppealByIp (appealIp a) tb1 = None).
  { unfold getAppealByIp, tb1. cbn [banAppealsTable].
    apply all_false_find. intros a' Ha'. apply in_map_iff in Ha'.
    destruct Ha' as (a0 & E & Ha0).
    destruct (hasId (Some id) (appealId a0)) eqn:H0; subst a'.
    - apply reviewed_not_pending. reflexivity.
    - destruct (isPendingFor (appealIp a) a0) eqn:Pa; [|reflexivity].
      assert (a0 = a).
      { apply (at_most_one_same (pendingFor (appealIp a) tb));
          [apply P | |]; unfold pendingFor; apply filter_In.
        - tauto.
        - split; [exact Hin|]. unfold isPendingFor.
          rewrite Hst, !String.eqb_refl. reflexivity. }
      subst a0. rewrite Hid in H0. discriminate. }
  split; [exact B|]. split; [exact G|].
  unfold postAppeal, banAppealFormSchema_parse.
  rewrite Hi, He, Hr. cbn [andb]. rewrite B, G. reflexivity.
Qed.

Lemma rejected_may_appeal_again_desk :
  let tb1 := (patchAppeal 3000 (Some 1%Z) (Some rejectedStatus) None desk).1 in
  Admin.isIpBanned "10.0.0.7" tb1 = true
  /\ getAppealByIp "10.0.0.7" tb1 = None
  /\ (postAppeal anyEmail 4000 (Some "10.0.0.7"%string)
                 (Some "a@b.example"%string)
                 (Some "once more, please"%string) tb1).2
     = AppealCreated (mkBanAppeal (banAppealsSeq desk + 1) "10.0.0.7"
                                  "a@b.example" "once more, please"
                                  pendingStatus (toSeconds 4000)
                                  None None None).
Proof.
  apply (rejected_may_appeal_again anyEmail 3000 4000 1 None
           (mkBanAppeal 1 "10.0.0.7" "a@b.example" "please let me in"
                        pendingStatus 2 None None None)
           "a@b.example" "once more, please" desk); try reflexivity.
  intros ip. unfold pendingFor. vm_compute banAppealsTable.
  cbn [List.filter]. destruct (isPendingFor ip _); cbn; lia.
Defined.

End AdminFacts.

(** ** The address of a client *)

Module ClientAddressFacts.
Import JsString ClientAddress.

Lemma beforeComma_no_comma (s : JsString.t) :
  Forall (fun c => c ≠ 44) (beforeComma s).
Proof.
  induction s as [|c s IH]; cbn; [constructor|].
  destruct (N.eqb_spec c 44); constructor; assumption.
Qed.

Lemma beforeComma_rest (s rest : JsString.t) :
  beforeComma (beforeComma s ++ 44 :: rest) = beforeComma s.
Proof.
  induction s as [|c s IH]; cbn; [reflexivity|].
  destruct (N.eqb_spec c 44) as [E|E]; cbn; [reflexivity|].
  destruct (N.eqb_spec c 44); [contradiction|]. rewrite IH. reflexivity.
Qed.

Lemma trim_trimmed (s : JsString.t) : trimmed (trim s).
Proof.
  unfold trimmed, trim.
  destruct (SanitizeFacts.dropSpaces_split s) as (p1 & _ & Ha).
  set (a := dropSpaces s) in *.
  destruct (SanitizeFacts.dropSpaces_split (rev a)) as (p2 & E2 & Hb).
  set (b := dropSpaces (rev a)) in *.
  rewrite rev_involutive. split; [|exact Hb].
  destruct (rev b) as [|c t] eqn:Erb; [exact I|].
  assert (Ea : a = (c :: t) ++ rev p2).
  { rewrite <- Erb, <- rev_app_distr, <- E2, rev_involutive. reflexivity. }
  rewrite Ea in Ha. exact Ha.
Qed.

(** X27. With an [X-Forwarded-For] header that is a string, the address
    of the client is read from the header alone: it is the same whatever
    the address of the socket and whatever follows the first comma, it
    holds no comma, and it neither starts nor ends with white space.
    Without such a header (absent, or an array) it is the address of the
    socket when the socket has a non-empty one, and 0.0.0.0 when the
    socket has none or an empty one. *)
Theorem client_address_from_header (value rest : JsString.t)
        (remote remote' : option JsString.t) :
  let ip := getClientIp (Single value) remote in
  getClientIp (Single value) remote' = ip
  /\ getClientIp (Single (beforeComma value ++ 44 :: rest)) remote = ip
  /\ Forall (fun c => c ≠ 44) ip
  /\ trimmed ip
  /\ (forall values, getClientIp (Several values) remote
                     = getClientIp Absent remote)
  /\ (forall c a, remote = Some (c :: a) ->
                  getClientIp Absent remote = c :: a)
  /\ (remote = None \/ remote = Some [] ->
      getClientIp Absent remote = lit "0.0.0.0").
Proof.
  cbn zeta. cbn [getClientIp]. repeat split.
  - rewrite beforeComma_rest. reflexivity.
  - apply SanitizeFacts.trim_Forall, beforeComma_no_comma.
  - apply (trim_trimmed (beforeComma value)).
  - apply (trim_trimmed (beforeComma value)).
  - intros c a ->. reflexivity.
  - intros [-> | ->]; reflexivity.
Qed.

End ClientAddressFacts.

(** ** Rooms and active chats *)

Module RoomFacts.
Import JsString Schema ProfanityFilter Storage Routes Run Notions.

Lemma fresh_is_reachable (sv : Server) : reachableFresh sv -> reachable sv.
Proof.
  induction 1 as [now d | sv sv' _ IH Hstep]; [apply reachable_start|].
  apply (reachable_step sv sv' IH).
  destruct Hstep as [now userId ip Hne Hf | now uuid userId raw _ _
                    | now userId].
  - apply step_connection; assumption.
  - apply step_message.
  - apply step_close.
Qed.

Lemma roomless (sv : Server) (k : string) (u : ConnectedUser) :
  Inv sv -> connectedUsers sv !! k = Some u -> partnerId u = None ->
  roomId u = None.
Proof.
  intros I Hu Hp.
  destruct (PairingFacts.inv_linked _ _ I k u Hu) as [[_ H] _].
  destruct (roomId u); [|reflexivity].
  exfalso. apply H; [discriminate | exact Hp].
Qed.

(** A chat that changed in its counters only. *)
Lemma rooms_same_ids (cu : gmap string ConnectedUser)
      (chats chats' : gmap string ChatSession) :
  (forall r, chatIds <$> chats' !! r = chatIds <$> chats !! r) ->
  RoomInv cu chats -> RoomInv cu chats'.
Proof.
  intros E [R1 R2]. constructor.
  - intros k u r Hu Hr. destruct (R1 k u r Hu Hr) as (chat & Hc & Hof).
    specialize (E r). rewrite Hc in E.
    destruct (chats' !! r) as [chat'|]; [|discriminate].
    cbn in E. injection E as _ E1 E2. exists chat'. split; [reflexivity|].
    unfold chatOf in *. rewrite E1, E2. exact Hof.
  - intros r chat' Hc. specialize (E r). rewrite Hc in E.
    destruct (chats !! r) as [chat|] eqn:Hc0; [|discriminate].
    cbn in E. injection E as E0 E1 E2.
    destruct (R2 r chat Hc0) as (Hne & Hid & u1 & u2 & H1 & H1r & H2 & H2r).
    split; [exact Hne|]. split; [congruence|].
    exists u1, u2. rewrite E1, E2. auto.
Qed.

(** A session without room joins or leaves the registry. *)
Lemma rooms_roomless (cu cu' : gmap string ConnectedUser)
      (chats : gmap string ChatSession) (k : string) :
  (forall i, i ≠ k -> cu' !! i = cu !! i) ->
  (forall u, cu !! k = Some u -> roomId u = None) ->
  (forall u, cu' !! k = Some u -> roomId u = None) ->
  RoomInv cu chats -> RoomInv cu' chats.
Proof.
  intros Ho Hk Hk' [R1 R2]. constructor.
  - intros i u r Hu Hr. destruct (decide (i = k)) as [->|Hi].
    + rewrite (Hk' u Hu) in Hr. discriminate.
    + rewrite Ho in Hu by exact Hi. apply (R1 i u r Hu Hr).
  - intros r chat Hc.
    destruct (R2 r chat Hc) as (Hne & Hid & u1 & u2 & H1 & H1r & H2 & H2r).
    split; [exact Hne|]. split; [exact Hid|]. exists u1, u2.
    assert (N1 : user1Id chat ≠ k).
    { intros E. rewrite E in H1. rewrite (Hk u1 H1) in H1r. discriminate. }
    assert (N2 : user2Id chat ≠ k).
    { intros E. rewrite E in H2. rewrite (Hk u2 H2) in H2r. discriminate. }
    rewrite !Ho by assumption. auto.
Qed.

(** The two sessions of a room lose it, and the room goes. *)
Lemma rooms_unpair (cu cu' : gmap string ConnectedUser)
      (chats : gmap string ChatSession) (k p r : string)
      (u v : ConnectedUser) :
  cu !! k = Some u -> partnerId u = Some p -> roomId u = Some r ->
  cu !! p = Some v -> roomId v = Some r ->
  (forall i, i ≠ k -> i ≠ p -> cu' !! i = cu !! i) ->
  (forall u', cu' !! k = Some u' -> roomId u' = None) ->
  (forall v', cu' !! p = Some v' -> roomId v' = None) ->
  RoomInv cu chats -> RoomInv cu' (delete r chats).
Proof.
  intros Hu Hp Hr Hv Hvr Ho Hk' Hp' [R1 R2].
  destruct (R1 k u r Hu Hr) as (chat0 & Hc0 & Hof0). rewrite Hp in Hof0.
  constructor.
  - intros i u' r' Hu' Hr'.
    destruct (decide (i = k)) as [->|Hik];
      [rewrite (Hk' u' Hu') in Hr'; discriminate|].
    destruct (decide (i = p)) as [->|Hip];
      [rewrite (Hp' u' Hu') in Hr'; discriminate|].
    rewrite Ho in Hu' by assumption.
    destruct (R1 i u' r' Hu' Hr') as (chat & Hc & Hof).
    exists chat. split; [|exact Hof].
    rewrite lookup_delete_ne; [exact Hc|].
    intros ->. rewrite Hc0 in Hc. injection Hc as <-.
    unfold chatOf in Hof0, Hof.
    destruct Hof0 as [[A B]|[A B]], Hof as [[C _]|[C _]]; congruence.
  - intros r' chat Hc. apply lookup_delete_Some in Hc.
    destruct Hc as [Hrr Hc].
    destruct (R2 r' chat Hc) as (Hne & Hid & u1 & u2 & H1 & H1r & H2 & H2r).
    split; [exact Hne|]. split; [exact Hid|]. exists u1, u2.
    assert (N : forall i w, cu !! i = Some w -> roomId w = Some r' ->
                            i ≠ k /\ i ≠ p).
    { intros i w Hw Hwr. split; intros ->.
      - rewrite Hu in Hw. injection Hw as <-. congruence.
      - rewrite Hv in Hw. injection Hw as <-. congruence. }
    destruct (N _ _ H1 H1r), (N _ _ H2 H2r).
    rewrite !Ho by assumption. auto.
Qed.

(** Two sessions without room get a new room. *)
Lemma rooms_pair (cu cu' : gmap string ConnectedUser)
      (chats : gmap string ChatSession) (k j room : string)
      (u v : ConnectedUser) (chat : ChatSession) :
  cu !! k = Some u -> roomId u = None ->
  cu !! j = Some v -> roomId v = None ->
  room ≠ EmptyString -> chats !! room = None ->
  cu' !! k = Some (link (Some j) (Some room) u) ->
  cu' !! j = Some (link (Some k) (Some room) v) ->
  (forall i, i ≠ k -> i ≠ j -> cu' !! i = cu !! i) ->
  csId chat = room ->
  (user1Id chat = k /\ user2Id chat = j)
  \/ (user1Id chat = j /\ user2Id chat = k) ->
  RoomInv cu chats -> RoomInv cu' (<[room := chat]> chats).
Proof.
  intros Hu Hur Hv Hvr Hne Hfresh Hk' Hj' Ho Hid Hids [R1 R2].
  constructor.
  - intros i u' r' Hu' Hr'.
    destruct (decide (i = k)) as [->|Hik].
    { rewrite Hk' in Hu'. injection Hu' as <-. cbn in Hr'.
      injection Hr' as <-. exists chat. rewrite lookup_insert_eq.
      split; [reflexivity|]. unfold chatOf. cbn [partnerId link].
      destruct Hids as [[A B]|[A B]]; rewrite A, B; auto. }
    destruct (decide (i = j)) as [->|Hij].
    { rewrite Hj' in Hu'. injection Hu' as <-. cbn in Hr'.
      injection Hr' as <-. exists chat. rewrite lookup_insert_eq.
      split; [reflexivity|]. unfold chatOf. cbn [partnerId link].
      destruct Hids as [[A B]|[A B]]; rewrite A, B; auto. }
    rewrite Ho in Hu' by assumption.
    destruct (R1 i u' r' Hu' Hr') as (chat1 & Hc & Hof).
    exists chat1. split; [|exact Hof].
    rewrite lookup_insert_ne; [exact Hc|]. intros <-.
    rewrite Hfresh in Hc. discriminate.
  - intros r' chat1 Hc. apply lookup_insert_Some in Hc.
    destruct Hc as [[<- <-]|[Hrr Hc]].
    + split; [exact Hne|]. split; [exact Hid|].
      destruct Hids as [[A B]|[A B]]; rewrite A, B;
        eexists; eexists; (split; [eassumption|]); cbn [roomId link];
        (split; [reflexivity|]); (split; [eassumption | reflexivity]).
    + destruct (R2 r' chat1 Hc)
        as (Hne' & Hid' & u1 & u2 & H1 & H1r & H2 & H2r).
      split; [exact Hne'|]. split; [exact Hid'|]. exists u1, u2.
      assert (N : forall i w, cu !! i = Some w -> roomId w = Some r' ->
                              i ≠ k /\ i ≠ j).
      { intros i w Hw Hwr. split; intros ->.
        - rewrite Hu in Hw. injection Hw as <-. congruence.
        - rewrite Hv in Hw. injection Hw as <-. congruence. }
      destruct (N _ _ H1 H1r), (N _ _ H2 H2r).
      rewrite !Ho by assumption. auto.
Qed.

(** *** The handlers *)

Lemma chats_removeRoom (now : Z) (r : string) (sv : Server) :
  r ≠ EmptyString ->
  activeChats (storage (removeRoom now (Some r) sv))
  = delete r (activeChats (storage sv)).
Proof.
  intros Hne. unfold removeRoom. cbn [truthy].
  destruct (String.eqb_spec r EmptyString); [contradiction|]. reflexivity.
Qed.

(** The room of a paired session, in a state with its links and rooms. *)
Lemma room_of_paired (sv : Server) (k p : string) (u : ConnectedUser) :
  Inv sv -> RoomInv (connectedUsers sv) (activeChats (storage sv)) ->
  connectedUsers sv !! k = Some u -> partnerId u = Some p ->
  exists r v, roomId u = Some r /\ r ≠ EmptyString
              /\ connectedUsers sv !! p = Some v /\ roomId v = Some r
              /\ p ≠ k.
Proof.
  intros I Rm Hu Hp.
  destruct (SessionFacts.partner_facts sv k p u I Hu Hp)
    as (v & Hv & _ & Hvr & _ & Hne & _).
  destruct (PairingFacts.inv_linked _ _ I k u Hu) as [[H _] _].
  destruct (roomId u) as [r|] eqn:Hr;
    [|exfalso; apply H; [congruence | reflexivity]].
  destruct (room_of_session _ _ Rm k u r Hu Hr) as (chat & Hc & _).
  destruct (sessions_of_room _ _ Rm r chat Hc) as (Hrne & _).
  exists r, v. auto.
Qed.

Lemma rooms_onConnection (now : Z) (userId ip : string) (sv : Server) :
  connectedUsers sv !! userId = None ->
  RoomInv (connectedUsers sv) (activeChats (storage sv)) ->
  RoomInv (connectedUsers (onConnection now userId ip sv).1)
          (activeChats (storage (onConnection now userId ip sv).1)).
Proof.
  intros Hf Rm. unfold onConnection.
  destruct (Storage.isIpBanned _ _); [exact Rm|].
  destruct (negb _); [exact Rm|]. cbn [fst connectedUsers storage].
  apply (rooms_roomless (connectedUsers sv) _ _ userId).
  - intros i Hi. rewrite lookup_insert_ne by congruence. reflexivity.
  - intros u Hu. rewrite Hf in Hu. discriminate.
  - intros u. rewrite lookup_insert_eq. intros [= <-]. reflexivity.
  - exact Rm.
Qed.

Lemma rooms_handleDisconnect (now : Z) (k : string) (sv : Server) :
  Inv sv ->
  RoomInv (connectedUsers sv) (activeChats (storage sv)) ->
  RoomInv (connectedUsers (handleDisconnect now k sv).1)
          (activeChats (storage (handleDisconnect now k sv).1)).
Proof.
  intros I Rm. unfold handleDisconnect.
  destruct (connectedUsers sv !! k) as [u|] eqn:Hu; [|exact Rm].
  destruct (partnerId u) as [p|] eqn:Hp.
  - destruct (room_of_paired sv k p u I Rm Hu Hp)
      as (r & v & Hr & Hrne & Hv & Hvr & Hne).
    rewrite (SessionFacts.unlinkPartner_paired sv k p u I Hu Hp).
    cbn [connectedUsers setUsers].
    rewrite lookup_alter_ne, Hu, Hr by exact Hne.
    set (sv1 := setUsers _ sv).
    destruct (PairingFacts.frame_removeRoom now (Some r) sv1) as [Rcu _].
    cbn [fst connectedUsers storage setUsers setStorage]. rewrite Rcu.
    unfold removeWaitingUser. cbn [activeChats setWaitingUsers].
    rewrite (chats_removeRoom now r sv1 Hrne).
    unfold sv1. cbn [connectedUsers storage setUsers].
    apply (rooms_unpair (connectedUsers sv) _ _ k p r u v); try assumption.
    + intros i Hi Hip.
      rewrite lookup_delete_ne, lookup_alter_ne by congruence. reflexivity.
    + intros u'. rewrite lookup_delete_eq. discriminate.
    + intros v'. rewrite lookup_delete_ne, lookup_alter_eq, Hv by congruence.
      intros [= <-]. reflexivity.
  - pose proof (roomless sv k u I Hu Hp) as Hr.
    unfold unlinkPartner. rewrite Hp. rewrite Hu, Hr.
    cbn [removeRoom fst connectedUsers storage setUsers setStorage].
    unfold removeWaitingUser. cbn [activeChats setWaitingUsers].
    apply (rooms_roomless (connectedUsers sv) _ _ k).
    + intros i Hi. rewrite lookup_delete_ne by congruence. reflexivity.
    + intros u' Hu'. rewrite Hu in Hu'. injection Hu' as <-. exact Hr.
    + intros u'. rewrite lookup_delete_eq. discriminate.
    + exact Rm.
Qed.

Lemma rooms_onDisconnectChat (now : Z) (k : string) (u : ConnectedUser)
      (sv : Server) :
  Inv sv ->
  RoomInv (connectedUsers sv) (activeChats (storage sv)) ->
  connectedUsers sv !! k = Some u ->
  RoomInv (connectedUsers (onDisconnectChat now k u sv).1)
          (activeChats (storage (onDisconnectChat now k u sv).1)).
Proof.
  intros I Rm Hu. unfold onDisconnectChat.
  destruct (partnerId u) as [p|] eqn:Hp.
  - destruct (room_of_paired sv k p u I Rm Hu Hp)
      as (r & v & Hr & Hrne & Hv & Hvr & Hne).
    rewrite (SessionFacts.unlinkPartner_paired sv k p u I Hu Hp).
    cbn [connectedUsers setUsers].
    rewrite lookup_alter_ne, Hu, Hr by exact Hne.
    set (sv1 := setUsers _ sv).
    destruct (PairingFacts.frame_removeRoom now (Some r) sv1) as [Rcu _].
    cbn [fst connectedUsers storage setUsers]. rewrite Rcu.
    rewrite (chats_removeRoom now r sv1 Hrne).
    unfold sv1. cbn [connectedUsers storage setUsers].
    apply (rooms_unpair (connectedUsers sv) _ _ k p r u v); try assumption.
    + intros i Hi Hip. rewrite !lookup_alter_ne by congruence. reflexivity.
    + intros u'. rewrite lookup_alter_eq, lookup_alter_ne, Hu by exact Hne.
      intros [= <-]. reflexivity.
    + intros v'. rewrite lookup_alter_ne, lookup_alter_eq, Hv by congruence.
      intros [= <-]. reflexivity.
  - pose proof (roomless sv k u I Hu Hp) as Hr.
    unfold unlinkPartner. rewrite Hp. rewrite Hu, Hr.
    cbn [removeRoom fst connectedUsers storage setUsers].
    apply (rooms_roomless (connectedUsers sv) _ _ k).
    + intros i Hi. rewrite lookup_alter_ne by congruence. reflexivity.
    + intros u' Hu'. rewrite Hu in Hu'. injection Hu' as <-. exact Hr.
    + intros u'. rewrite lookup_alter_eq, Hu. intros [= <-]. reflexivity.
    + exact Rm.
Qed.

Lemma ids_logFlagged now user c why sv (r : string) :
  chatIds <$> activeChats (storage (logFlagged now user c why sv).1) !! r
  = chatIds <$> activeChats (storage sv) !! r.
Proof.
  unfold logFlagged. destruct (roomId user); [|reflexivity].
  destruct (truthy _); reflexivity.
Qed.

Lemma ids_countAndLog now user c res sv (r : string) :
  chatIds <$> activeChats (storage (countAndLog now user c res sv).1) !! r
  = chatIds <$> activeChats (storage sv) !! r.
Proof.
  unfold countAndLog. destruct (roomId user) as [r0|]; [|reflexivity].
  destruct (truthy _); [|reflexivity].
  cbn [fst storage setStorage].
  assert (E : activeChats
                (logMessage now r0 (ip user) c (flagged res) (reason res)
                   (incrementTodayMessages now
                      (incrementMessageCount now r0 (storage sv))))
              = alter (bumpChat now) r0 (activeChats (storage sv))).
  { unfold logMessage, incrementTodayMessages, checkDailyReset.
    destruct (_ =? _)%Z; reflexivity. }
  rewrite E. destruct (decide (r0 = r)) as [->|Hne].
  - rewrite lookup_alter_eq.
    destruct (activeChats (storage sv) !! r); reflexivity.
  - rewrite lookup_alter_ne by exact Hne. reflexivity.
Qed.

Lemma ids_moderateAndRelay now uuid userId user data sv (r : string) :
  chatIds <$> activeChats
                (storage (moderateAndRelay now uuid userId user data sv).1)
              !! r
  = chatIds <$> activeChats (storage sv) !! r.
Proof.
  unfold moderateAndRelay.
  destruct (messageSchema_parse data) as [content|]; [|reflexivity].
  destruct (isSpam _).
  { pose proof (ids_logFlagged now user (sanitizeMessage content) "spam" sv r).
    destruct (logFlagged _ _ _ _ _); assumption. }
  destruct (checkProfanity _ _) as [res tb1].
  destruct (severity res).
  - pose proof (ids_countAndLog now user (sanitizeMessage content) res
                  (setFilter tb1 (setFilter tb1 sv)) r).
    destruct (countAndLog _ _ _ _ _); assumption.
  - destruct (filterContent _ _) as [c' tb2].
    pose proof (ids_countAndLog now user c' res
                  (setFilter tb2 (setFilter tb1 sv)) r).
    destruct (countAndLog _ _ _ _ _); assumption.
  - pose proof (ids_logFlagged now user (sanitizeMessage content)
                  "profanity" (setFilter tb1 sv) r).
    destruct (logFlagged _ _ _ _ _); assumption.
Qed.

Lemma ids_onSendMessage now uuid userId user data sv (r : string) :
  chatIds <$> activeChats
                (storage (onSendMessage now uuid userId user data sv).1) !! r
  = chatIds <$> activeChats (storage sv) !! r.
Proof.
  unfold onSendMessage. destruct (negb (truthy _)); [reflexivity|].
  destruct (negb (checkRateLimit _ _ _ _ _ _)); [reflexivity|].
  set (sv1 := setStorage _ sv).
  pose proof (ids_moderateAndRelay now uuid userId user data sv1 r) as H.
  destruct (moderateAndRelay _ _ _ _ _ _); exact H.
Qed.

Lemma join_alone_chats (now : Z) (uuid : nat -> string) (k : string)
      (u : ConnectedUser) (sv : Server) :
  truthy (partnerId u) = false ->
  (waitingUsers (storage sv) = []
   \/ exists w, waitingUsers (storage sv) = [(k, w)]) ->
  activeChats (storage (onJoinQueue now uuid k u sv).1)
  = activeChats (storage sv).
Proof.
  intros T Hwu. unfold onJoinQueue. rewrite T.
  set (w' := mkWaitingUser k "[object Object]" (ip u) now).
  unfold matchUsers, getWaitingUsers, addWaitingUser.
  cbn [storage setStorage waitingUsers setUniqueIps setWaitingUsers wId].
  assert (E : mapSet (wId w') w' (waitingUsers (storage sv)) = [(k, w')]).
  { destruct Hwu as [->|[w ->]]; cbn; [reflexivity|].
    rewrite String.eqb_refl. reflexivity. }
  rewrite E. reflexivity.
Qed.

Lemma join_meets_chats (now : Z) (uuid : nat -> string) (k j : string)
      (u v : ConnectedUser) (w : WaitingUser) (sv : Server) :
  truthy (partnerId u) = false ->
  connectedUsers sv !! k = Some u ->
  connectedUsers sv !! j = Some v ->
  j ≠ k -> wId w = j ->
  waitingUsers (storage sv) = [(j, w)] ->
  exists chat,
    activeChats (storage (onJoinQueue now uuid k u sv).1)
    = <[uuid 0%nat := chat]> (activeChats (storage sv))
    /\ csId chat = uuid 0%nat
    /\ ((user1Id chat = id u /\ user2Id chat = id v)
        \/ (user1Id chat = id v /\ user2Id chat = id u)).
Proof.
  intros T Hu Hv Hne Hw Hwu.
  assert (Ej : String.eqb j k = false) by (apply String.eqb_neq; exact Hne).
  unfold onJoinQueue. rewrite T.
  unfold matchUsers, getWaitingUsers, addWaitingUser.
  cbn [storage setStorage waitingUsers setUniqueIps setWaitingUsers wId].
  rewrite Hwu. cbn [mapSet]. rewrite Ej.
  cbn [mapSet mapValues List.map snd sortByJoinedAt insertSorted joinedAt].
  destruct (now <? joinedAt w)%Z;
    cbn [matchLoop wId connectedUsers setStorage]; rewrite Hu, Hw, Hv;
    cbn [fst]; unfold addActiveChat, logChatSession, setDb;
    cbn [storage activeChats csId removeWaitingUser setWaitingUsers];
    eexists; (split; [reflexivity|]); cbn; auto.
Qed.

Lemma rooms_onJoinQueue (now : Z) (uuid : nat -> string) (k : string)
      (u : ConnectedUser) (sv : Server) :
  uuid 0%nat ≠ EmptyString ->
  activeChats (storage sv) !! uuid 0%nat = None ->
  Inv sv ->
  RoomInv (connectedUsers sv) (activeChats (storage sv)) ->
  connectedUsers sv !! k = Some u ->
  RoomInv (connectedUsers (onJoinQueue now uuid k u sv).1)
          (activeChats (storage (onJoinQueue now uuid k u sv).1)).
Proof.
  intros Hne0 Hfresh I Rm Hu.
  destruct (truthy (partnerId u)) eqn:T.
  { unfold onJoinQueue. rewrite T. exact Rm. }
  pose proof (PairingFacts.inv_partner_truthy sv k u I Hu T) as Hp.
  pose proof (inv_queue _ _ I) as Hlen.
  assert (Alone : waitingUsers (storage sv) = []
                  \/ (exists w, waitingUsers (storage sv) = [(k, w)]) ->
                  RoomInv (connectedUsers (onJoinQueue now uuid k u sv).1)
                    (activeChats (storage (onJoinQueue now uuid k u sv).1))).
  { intros Hwu.
    destruct (PairingFacts.onJoinQueue_alone now uuid k u sv T Hwu)
      as (Hcu & _ & _).
    rewrite Hcu, (join_alone_chats now uuid k u sv T Hwu). exact Rm. }
  destruct (waitingUsers (storage sv)) as [|[j w] [|e wu]] eqn:Hwu;
    [apply Alone; left; reflexivity | | cbn in Hlen; lia].
  destruct (decide (j = k)) as [->|Hne]; [apply Alone; right; eauto|].
  assert (Hin : In (j, w) (waitingUsers (storage sv)))
    by (rewrite Hwu; left; reflexivity).
  destruct (inv_waiting _ _ I j w Hin) as (Hw & v & Hv & Hvp).
  destruct (PairingFacts.inv_key _ _ I k u Hu) as (Hidu & _ & _).
  destruct (PairingFacts.inv_key _ _ I j v Hv) as (Hidv & _ & _).
  destruct (join_meets_chats now uuid k j u v w sv T Hu Hv Hne Hw Hwu)
    as (chat & Hch & Hid & Hids).
  rewrite Hch, Hidu, Hidv in *.
  destruct (PairingFacts.onJoinQueue_meets now uuid k j u v w sv
              T Hu Hv Hne Hw Hwu) as (_ & Hcu).
  rewrite Hidu, Hidv in Hcu.
  apply (rooms_pair (connectedUsers sv) _ _ k j (uuid 0%nat) u v chat);
    try assumption.
  - apply (roomless sv k u I Hu Hp).
  - apply (roomless sv j v I Hv Hvp).
  - destruct Hcu as [-> | ->].
    + rewrite lookup_alter_eq, lookup_alter_ne, Hu by exact Hne. reflexivity.
    + rewrite lookup_alter_ne, lookup_alter_eq, Hu by exact Hne. reflexivity.
  - destruct Hcu as [-> | ->].
    + rewrite lookup_alter_ne, lookup_alter_eq, Hv by congruence. reflexivity.
    + rewrite lookup_alter_eq, lookup_alter_ne, Hv by congruence. reflexivity.
  - intros i Hi Hij. destruct Hcu as [-> | ->];
      rewrite !lookup_alter_ne by congruence; reflexivity.
Qed.

Lemma rooms_onMessage (now : Z) (uuid : nat -> string) (k : string)
      (raw : Inbound) (sv : Server) :
  uuid 0%nat ≠ EmptyString ->
  activeChats (storage sv) !! uuid 0%nat = None ->
  Inv sv ->
  RoomInv (connectedUsers sv) (activeChats (storage sv)) ->
  RoomInv (connectedUsers (onMessage now uuid k raw sv).1)
          (activeChats (storage (onMessage now uuid k raw sv).1)).
Proof.
  intros Hne0 Hfresh I Rm. unfold onMessage.
  destruct (connectedUsers sv !! k) as [u|] eqn:Hu; [|exact Rm].
  destruct raw as [|type data]; [exact Rm|].
  destruct (String.eqb type JOIN_QUEUE).
  { apply rooms_onJoinQueue; assumption. }
  destruct (String.eqb type LEAVE_QUEUE); [exact Rm|].
  destruct (String.eqb type SEND_MESSAGE).
  { rewrite (proj1 (PairingFacts.frame_onSendMessage now uuid k u data sv)).
    apply (rooms_same_ids _ (activeChats (storage sv))); [|exact Rm].
    intros r. apply ids_onSendMessage. }
  destruct (String.eqb type TYPING).
  { unfold forwardToPartner. destruct (partnerId u); [|exact Rm].
    destruct (truthy _); exact Rm. }
  destruct (String.eqb type STOP_TYPING).
  { unfold forwardToPartner. destruct (partnerId u); [|exact Rm].
    destruct (truthy _); exact Rm. }
  destruct (String.eqb type DISCONNECT_CHAT).
  { apply rooms_onDisconnectChat; assumption. }
  exact Rm.
Qed.

Lemma fresh_rooms (sv : Server) :
  reachableFresh sv ->
  RoomInv (connectedUsers sv) (activeChats (storage sv)).
Proof.
  induction 1 as [now d | sv sv' R IH Hstep].
  - constructor; cbn; intros ? ? ?; rewrite ?lookup_empty; discriminate.
  - pose proof (PairingFacts.reachable_inv sv (fresh_is_reachable sv R)) as I.
    destruct Hstep as [now userId ip Hne Hf | now uuid userId raw Hne Hf
                      | now userId].
    + apply rooms_onConnection; assumption.
    + apply rooms_onMessage; assumption.
    + apply rooms_handleDisconnect; assumption.
Qed.

(** X28. The active chats are the rooms of the paired sessions. In every
    state the server reaches while the room ids it draws are new, the room
    of a session is an active chat between this session and its partner,
    and every active chat has a non-empty id and is the room of its two
    sessions, both registered: no chat outlives its sessions and no
    session sits in a room that is gone. *)
Theorem active_chats_are_rooms (sv : Server) :
  reachableFresh sv ->
  (forall k u r,
      connectedUsers sv !! k = Some u -> roomId u = Some r ->
      exists chat, activeChats (storage sv) !! r = Some chat
                   /\ chatOf chat k (partnerId u))
  /\ (forall r chat,
         activeChats (storage sv) !! r = Some chat ->
         r ≠ EmptyString /\ csId chat = r
         /\ exists u1 u2,
              connectedUsers sv !! user1Id chat = Some u1
              /\ roomId u1 = Some r
              /\ connectedUsers sv !! user2Id chat = Some u2
              /\ roomId u2 = Some r).
Proof.
  intros R. destruct (fresh_rooms sv R) as [R1 R2]. split; assumption.
Qed.

Lemma active_chats_are_rooms_paired :
  (forall k u r,
      connectedUsers Scenario.paired !! k = Some u -> roomId u = Some r ->
      exists chat, activeChats (storage Scenario.paired) !! r = Some chat
                   /\ chatOf chat k (partnerId u))
  /\ (forall r chat,
         activeChats (storage Scenario.paired) !! r = Some chat ->
         r ≠ EmptyString /\ csId chat = r
         /\ exists u1 u2,
              connectedUsers Scenario.paired !! user1Id chat = Some u1
              /\ roomId u1 = Some r
              /\ connectedUsers Scenario.paired !! user2Id chat = Some u2
              /\ roomId u2 = Some r).
Proof.
  apply (active_chats_are_rooms Scenario.paired).
  apply (fresh_step Scenario.s3);
    [|apply fresh_message; [discriminate | reflexivity]].
  apply (fresh_step Scenario.s2);
    [|apply fresh_message; [discriminate | reflexivity]].
  apply (fresh_step Scenario.s1);
    [|apply fresh_connection; [discriminate | reflexivity]].
  apply (fresh_step Scenario.s0);
    [|apply fresh_connection; [discriminate | reflexivity]].
  apply fresh_start.
Defined.

End RoomFacts.

(** ** The client *)

Module SocketManagerFacts.
Import SocketManager.
Local Open Scope nat_scope.

Lemma delays_app (a b : list Effect) : delays (a ++ b) = delays a ++ delays b.
Proof. unfold delays. apply flat_map_app. Qed.

Lemma delays_emit (event : string) (pg : Page) : delays (emit event pg) = [].
Proof.
  unfold emit. destruct (Storage.mapGet _ _) as [cbs|]; [|reflexivity].
  induction cbs as [|cb cbs IH]; [reflexivity | exact IH].
Qed.

(** A step that is neither an open nor a close sets no timer and leaves
    the count of attempts. *)
Lemma step_other (e : Event) (pg : Page) :
  isOpened e = false -> isClosed e = false ->
  delays (step e pg).2 = []
  /\ reconnectAttempts (manager (step e pg).1)
     = reconnectAttempts (manager pg).
Proof.
  intros H1 H2.
  destruct e as [| |type|ev cb|ev cb|n|inc|n| |]; try discriminate;
    cbn [step].
  - unfold connect. destruct (socket (manager pg)) as [n|];
      [destruct (isOpen pg n)|]; auto.
  - unfold disconnect. destruct (socket (manager pg)); auto.
  - unfold send. destruct (socket (manager pg)) as [n|];
      [destruct (isOpen pg n)|]; auto.
  - auto.
  - unfold off. destruct (Storage.mapGet _ _); auto.
  - destruct inc; cbn [onmessage fst snd]; auto using delays_emit.
  - auto.
  - unfold connect. destruct (socket (manager pg)) as [n|];
      [destruct (isOpen pg n)|]; auto.
Qed.

Lemma step_closed (n : nat) (pg : Page) :
  let a := reconnectAttempts (manager pg) in
  (a < maxReconnectAttempts ->
   delays (onclose n pg).2 = [reconnectDelay * S a]
   /\ reconnectAttempts (manager (onclose n pg).1) = S a)
  /\ (maxReconnectAttempts <= a ->
      delays (onclose n pg).2 = []
      /\ reconnectAttempts (manager (onclose n pg).1) = a).
Proof.
  cbn zeta. unfold onclose, attemptReconnect. cbn [manager].
  split; intros H.
  - apply Nat.ltb_lt in H. rewrite H. cbn [fst snd].
    rewrite delays_app, delays_emit. auto.
  - apply Nat.ltb_ge in H. rewrite H. cbn [fst snd].
    rewrite delays_app, delays_emit. auto.
Qed.

(** X29. The reconnection schedule. As long as no socket opens, each
    close sets one timer, with a delay that grows by one second from one
    close to the next, until five attempts have been made; after that a
    close sets no timer any more. Nothing else sets a timer. *)
Theorem reconnect_backoff (events : list Event) (pg : Page) :
  forallb (fun e => negb (isOpened e)) events = true ->
  let a := reconnectAttempts (manager pg) in
  let n := Nat.min (maxReconnectAttempts - a)
                   (length (List.filter isClosed events)) in
  delays (run events pg).2
  = List.map (fun i => reconnectDelay * i) (seq (S a) n)
  /\ reconnectAttempts (manager (run events pg).1) = a + n.
Proof.
  cbn zeta. revert pg.
  induction events as [|e events IH]; intros pg Hno.
  - cbn. rewrite Nat.min_0_r. cbn. auto.
  - cbn [forallb] in Hno. apply andb_true_iff in Hno.
    destruct Hno as [He Hno]. apply negb_true_iff in He.
    cbn [run List.filter].
    destruct (isClosed e) eqn:Hc.
    + destruct e; try discriminate. cbn [step].
      destruct (step_closed n pg) as [Hlt Hge].
      destruct (Nat.lt_ge_cases (reconnectAttempts (manager pg))
                                maxReconnectAttempts) as [Ha|Ha].
      * destruct (Hlt Ha) as [Hd Hr].
        destruct (onclose n pg) as [pg1 out]. cbn [fst snd] in *.
        destruct (IH pg1 Hno) as [IHd IHr].
        destruct (run events pg1) as [pg2 out']. cbn [fst snd] in *.
        rewrite delays_app, Hd, IHd, IHr, Hr. cbn [length].
        replace (Nat.min (maxReconnectAttempts
                          - reconnectAttempts (manager pg))
                         (S (length (List.filter isClosed events))))
          with (S (Nat.min (maxReconnectAttempts
                            - S (reconnectAttempts (manager pg)))
                           (length (List.filter isClosed events))))
          by lia.
        cbn [seq List.map app]. split; [reflexivity | lia].
      * destruct (Hge Ha) as [Hd Hr].
        destruct (onclose n pg) as [pg1 out]. cbn [fst snd] in *.
        destruct (IH pg1 Hno) as [IHd IHr].
        destruct (run events pg1) as [pg2 out']. cbn [fst snd] in *.
        rewrite delays_app, Hd, IHd, IHr, Hr.
        replace (maxReconnectAttempts - reconnectAttempts (manager pg))
          with 0%nat by lia.
        cbn. auto.
    + destruct (step_other e pg He Hc) as [Hd Hr].
      destruct (step e pg) as [pg1 out]. cbn [fst snd] in *.
      destruct (IH pg1 Hno) as [IHd IHr].
      destruct (run events pg1) as [pg2 out']. cbn [fst snd] in *.
      rewrite delays_app, Hd, IHd, IHr, Hr. auto.
Qed.

Lemma reconnect_backoff_seven_closes :
  let events := [CallConnect; Closed 0; TimerFired; Closed 1; TimerFired;
                 Closed 2; TimerFired; Closed 3; TimerFired; Closed 4;
                 TimerFired; Closed 5; Closed 5] in
  delays (run events initial).2 = [1000; 2000; 3000; 4000; 5000]%nat
  /\ reconnectAttempts (manager (run events initial).1) = 5%nat.
Proof.
  apply (reconnect_backoff
           [CallConnect; Closed 0; TimerFired; Closed 1; TimerFired;
            Closed 2; TimerFired; Closed 3; TimerFired; Closed 4;
            TimerFired; Closed 5; Closed 5] initial).
  reflexivity.
Defined.

(** X30. A deliberate disconnect does not last. When [disconnect()] is
    called on a manager that has a socket and has not used up its
    attempts, and the browser then reports the close of that socket, the
    manager sets a reconnection timer as after a lost connection; when the
    timer fires, [connect()] opens a new socket, which becomes the socket
    of the manager. *)
Theorem disconnect_is_undone (n : nat) (pg : Page) :
  socket (manager pg) = Some n ->
  reconnectAttempts (manager pg) < maxReconnectAttempts ->
  let r := run [CallDisconnect; Closed n; TimerFired] pg in
  let fresh := length (sockets pg) in
  r.2 = SocketClose n
        :: emit "disconnected" pg
        ++ [SetTimeout (reconnectDelay * S (reconnectAttempts (manager pg)));
            NewWebSocket fresh]
  /\ socket (manager r.1) = Some fresh
  /\ sockets r.1 !! fresh = Some CONNECTING.
Proof.
  intros Hs Ha. cbn zeta. cbn [run step].
  unfold disconnect. rewrite Hs.
  unfold onclose, attemptReconnect. cbn [manager reconnectAttempts].
  apply Nat.ltb_lt in Ha. rewrite Ha.
  unfold connect. cbn [manager setManager socket sockets fst snd].
  rewrite length_insert, length_alter. repeat split.
  - cbn [app]. f_equal. unfold emit. cbn [manager listeners].
    rewrite <- !app_assoc. reflexivity.
  - rewrite lookup_app_r; rewrite length_insert, length_alter; [|lia].
    rewrite Nat.sub_diag. reflexivity.
Qed.

Lemma disconnect_is_undone_after_open :
  let pg := (run [CallOn "disconnected" 7; CallConnect; Opened 0] initial).1 in
  let r := run [CallDisconnect; Closed 0; TimerFired] pg in
  r.2 = SocketClose 0
        :: emit "disconnected" pg
        ++ [SetTimeout (reconnectDelay * S (reconnectAttempts (manager pg)));
            NewWebSocket (length (sockets pg))]
  /\ socket (manager r.1) = Some (length (sockets pg))
  /\ sockets r.1 !! length (sockets pg) = Some CONNECTING.
Proof.
  apply (disconnect_is_undone 0
           (run [CallOn "disconnected" 7; CallConnect; Opened 0] initial).1).
  - reflexivity.
  - apply Nat.ltb_lt. vm_compute. reflexivity.
Defined.

End SocketManagerFacts.

(** ** The order of service *)

Module FifoFacts.
Import JsString Schema Storage Routes Run Notions.






Section Pass.
Variables (now : Z) (uuid : nat -> string).




End Pass.




(** [join_queue] from a session without partner runs the pass on the
    state with the entry of the sender added. *)
Lemma onJoinQueue_runs_the_pass (now : Z) (uuid : nat -> string)
      (userId : string) (u : ConnectedUser) (sv : Server) :
  partnerId u = None ->
  (onJoinQueue now uuid userId u sv).1
  = (matchUsers now uuid (atThePass now userId u sv)).1.
Proof.
  intros Hp. unfold onJoinQueue, atThePass. rewrite Hp. cbn [truthy].
  destruct (matchUsers now uuid _) as [sv2 out]. reflexivity.
Qed.

(** Every pass the server runs reads a queue of live waiting sessions:
    in a state the server reaches, when [join_queue] has added the entry
    of its sender and calls [matchUsers], the queue holds one entry per
    id, each of a registered session without partner. *)
Lemma pass_reads_live_queue (now : Z) (userId : string) (u : ConnectedUser)
      (sv : Server) :
  reachable sv ->
  connectedUsers sv !! userId = Some u ->
  partnerId u = None ->
  let sv1 := atThePass now userId u sv in
  NoDup (List.map fst (waitingUsers (storage sv1)))
  /\ forall k w, In (k, w) (waitingUsers (storage sv1)) ->
       wId w = k
       /\ exists v, connectedUsers sv1 !! k = Some v
                    /\ id v = k /\ partnerId v = None.
Proof.
  intros R Hu Hp. pose proof (PairingFacts.reachable_inv sv R) as I.
  destruct (PairingFacts.inv_key _ _ I userId u Hu) as (Hid & _ & _).
  cbn zeta. unfold atThePass, addWaitingUser.
  cbn [storage setStorage waitingUsers setUniqueIps setWaitingUsers
       connectedUsers wId].
  set (w' := mkWaitingUser userId "[object Object]" (ip u) now).
  assert (Old : forall k w, In (k, w) (waitingUsers (storage sv)) ->
                  wId w = k
                  /\ exists v, connectedUsers sv !! k = Some v
                               /\ id v = k /\ partnerId v = None).
  { intros k w Hin. destruct (inv_waiting _ _ I k w Hin) as (Hw & v & Hv & Hvp).
    split; [exact Hw|]. exists v.
    destruct (PairingFacts.inv_key _ _ I k v Hv) as (Hidv & _ & _). auto. }
  pose proof (inv_queue _ _ I) as Hlen.
  destruct (waitingUsers (storage sv)) as [|[j w] [|e wu]] eqn:Hwu;
    [| |cbn in Hlen; lia]; cbn [mapSet].
  - split; [apply (bool_decide_unpack _); reflexivity|].
    intros k w [E|[]]. injection E as <- <-. split; [reflexivity|].
    exists u. auto.
  - destruct (String.eqb_spec j userId) as [->|Hne].
    + split; [apply NoDup_singleton|].
      intros k w0 [E|[]]. injection E as <- <-. split; [reflexivity|].
      exists u. auto.
    + split.
      * cbn. apply NoDup_cons. split; [|apply NoDup_singleton].
        intros H. apply list_elem_of_singleton in H. contradiction.
      * intros k w0 [E|[E|[]]]; injection E as <- <-.
        -- apply Old. left. reflexivity.
        -- split; [reflexivity|]. exists u. auto.
Qed.


End FifoFacts.
